(** * logview: the log viewer's model, embedded from [src/logview/logview.go]

    The Go type [Model] becomes a record, its pointer-receiver methods become
    functions over that record.  Methods that can panic run in a small
    state-and-panic monad [M]; read-only methods are functions of the model.
    The libraries the package calls (textinput, regexp, lipgloss, reflow) are
    an interface, [Deps], over which every definition is parametric. *)

From Stdlib Require Import ZArith List String Ascii Bool Lia.
From Stdlib Require Import Numbers.DecimalString.
Import ListNotations.

Open Scope string_scope.
Open Scope Z_scope.

(** ** Go integers, slices and panics *)

(** Go's [int] on the 64-bit targets.  Arithmetic on a value the caller or
    the model supplies (a height, a scroll position, a delta) wraps around and
    is written with [add] and [sub]; lengths and counts of rows are far from
    the bounds, and arithmetic on them alone is Z's. *)
Definition wrap (z : Z) : Z := (z + 2 ^ 63) mod 2 ^ 64 - 2 ^ 63.
Definition add (x y : Z) : Z := wrap (x + y).
Definition sub (x y : Z) : Z := wrap (x - y).
(** [uint(width)] *)
Definition uint (z : Z) : Z := z mod 2 ^ 64.

(** [len] of a slice and of a string. *)
Definition len {A : Type} (l : list A) : Z := Z.of_nat (List.length l).
Definition slen (s : string) : Z := Z.of_nat (String.length s).

(** The run-time panics the package can raise. *)
Inductive error : Type :=
| ErrTooLong          (* bufio.Scanner: token too long *)
| IndexOutOfRange     (* s[i] with i outside 0 <= i < len(s) *)
| SliceBounds         (* s[lo:hi] with bounds out of range *)
| NegativeRepeat.     (* strings.Repeat with a negative count *)

Inductive outcome (A : Type) : Type :=
| Ok (a : A)
| Panic (e : error).
Arguments Ok {A} a.
Arguments Panic {A} e.

Definition bindR {A B : Type} (r : outcome A) (k : A -> outcome B) : outcome B :=
  match r with
  | Ok a => k a
  | Panic e => Panic e
  end.

Notation "'let?' x ':=' e 'in' k" := (bindR e (fun x => k))
  (at level 10, x name, e at level 100, k at level 200).
Notation "'let?' ' p ':=' e 'in' k" :=
  (bindR e (fun x => match x with p => k end))
  (at level 10, p pattern, e at level 100, k at level 200).

(** [l[i]] *)
Definition at_index {A : Type} (l : list A) (i : Z) : outcome A :=
  if i <? 0 then Panic IndexOutOfRange
  else match nth_error l (Z.to_nat i) with
       | Some a => Ok a
       | None => Panic IndexOutOfRange
       end.

(** [l[:hi]] and [l[lo:]] on a slice whose capacity is its length. *)
Definition slice_to {A : Type} (l : list A) (hi : Z) : outcome (list A) :=
  if (0 <=? hi) && (hi <=? len l) then Ok (firstn (Z.to_nat hi) l)
  else Panic SliceBounds.

Definition slice_from {A : Type} (l : list A) (lo : Z) : outcome (list A) :=
  if (0 <=? lo) && (lo <=? len l) then Ok (skipn (Z.to_nat lo) l)
  else Panic SliceBounds.

(** [s[lo:hi]] and [s[lo:]] on a string. *)
Definition str_slice (s : string) (lo hi : Z) : outcome string :=
  if (0 <=? lo) && (lo <=? hi) && (hi <=? slen s)
  then Ok (substring (Z.to_nat lo) (Z.to_nat (hi - lo)) s)
  else Panic SliceBounds.

Definition str_slice_from (s : string) (lo : Z) : outcome string :=
  str_slice s lo (slen s).

(** ** The monad of the methods that mutate their receiver or panic

    [St] is the receiver's type.  A panic keeps the receiver as the method
    left it. *)
Definition M (St A : Type) : Type := St -> outcome A * St.

Definition ret {St A : Type} (a : A) : M St A := fun m => (Ok a, m).
Definition panic {St A : Type} (e : error) : M St A := fun m => (Panic e, m).
Definition bind {St A B : Type} (c : M St A) (k : A -> M St B) : M St B :=
  fun m => match c m with
           | (Ok a, m') => k a m'
           | (Panic e, m') => (Panic e, m')
           end.
Definition get {St : Type} : M St St := fun m => (Ok m, m).
Definition modify {St : Type} (f : St -> St) : M St unit := fun m => (Ok tt, f m).
(** A read-only method that may panic. *)
Definition reads {St A : Type} (f : St -> outcome A) : M St A :=
  fun m => (f m, m).

Notation "x <- c ;; k" := (bind c (fun x => k))
  (at level 61, c at next level, right associativity).
Notation "' p <- c ;; k" := (bind c (fun x => match x with p => k end))
  (at level 61, p pattern, c at next level, right associativity).
Notation "c ;; k" := (bind c (fun _ => k))
  (at level 61, right associativity).

(** The receiver a computation leaves behind, and what it returns. *)
Definition exec {St A : Type} (c : M St A) (m : St) : St := snd (c m).
Definition eval {St A : Type} (c : M St A) (m : St) : outcome A := fst (c m).

(** [for _, x := range xs { body x }] *)
Fixpoint for_each {St A : Type} (xs : list A) (body : A -> M St unit)
    : M St unit :=
  match xs with
  | [] => ret tt
  | x :: rest => body x ;; for_each rest body
  end.

(** ** The [strings] package, as far as the viewer uses it *)

Definition nl : ascii := "010"%char.
Definition cr : ascii := "013"%char.
(** The one-byte string ["\n"]. *)
Definition NL : string := String nl "".

(** [strings.HasSuffix]: some tail of [s] is [suffix]. *)
Fixpoint HasSuffix (s suffix : string) : bool :=
  (s =? suffix)%string ||
  match s with
  | EmptyString => false
  | String _ s' => HasSuffix s' suffix
  end.

(** [strings.TrimPrefix] and [strings.TrimSuffix]. *)
Definition TrimPrefix (s pre : string) : string :=
  if prefix pre s
  then substring (String.length pre) (String.length s - String.length pre) s
  else s.

Definition TrimSuffix (s suffix : string) : string :=
  if HasSuffix s suffix
  then substring 0 (String.length s - String.length suffix) s
  else s.

(** [strings.Count(s, sep)] for a one-byte separator. *)
Fixpoint Count (s : string) (sep : ascii) : Z :=
  match s with
  | EmptyString => 0
  | String c s' => (if Ascii.eqb c sep then 1 else 0) + Count s' sep
  end.

(** [strings.Split(s, sep)] for a one-byte separator: never empty, one more
    element than there are separators. *)
Fixpoint Split (s : string) (sep : ascii) : list string :=
  match s with
  | EmptyString => [EmptyString]
  | String c s' =>
      if Ascii.eqb c sep then EmptyString :: Split s' sep
      else match Split s' sep with
           | h :: t => String c h :: t
           | [] => [String c EmptyString]
           end
  end.

(** [strings.Join(elems, sep)] *)
Definition Join (elems : list string) (sep : string) : string :=
  String.concat sep elems.

Fixpoint repeat_string (s : string) (n : nat) : string :=
  match n with
  | O => EmptyString
  | S n' => s ++ repeat_string s n'
  end.

(** [strings.Repeat]: panics on a negative count. *)
Definition Repeat (s : string) (count : Z) : outcome string :=
  if count <? 0 then Panic NegativeRepeat
  else Ok (repeat_string s (Z.to_nat count)).

(** [strings.IndexByte(s, c) >= 0] *)
Fixpoint contains_byte (s : string) (c : ascii) : bool :=
  match s with
  | EmptyString => false
  | String d s' => Ascii.eqb d c || contains_byte s' c
  end.

(** [fmt.Sprintf("%d", z)] *)
Definition itoa (z : Z) : string := NilZero.string_of_int (Z.to_int z).

(** ** [bufio.Scanner] with the default split function [bufio.ScanLines] *)

(** [bufio.MaxScanTokenSize] = 64 * 1024 *)
Definition MaxScanTokenSize : Z := 65536.

(** [dropCR]: drops one trailing carriage return. *)
Fixpoint dropCR (data : string) : string :=
  match data with
  | EmptyString => EmptyString
  | String c EmptyString => if Ascii.eqb c cr then EmptyString else data
  | String c rest => String c (dropCR rest)
  end.

(** The lines [ScanLines] cuts the input into, before the carriage return is
    dropped: every newline-terminated segment, then the unterminated rest when
    it is not empty. *)
Definition scan_segments (content : string) : list string :=
  let segs := Split content nl in
  if (last segs EmptyString =? "")%string then removelast segs else segs.

(** What successive [Scan] calls deliver: the tokens, and whether scanning
    stopped on [ErrTooLong].  A line that fills the scanner's buffer of
    [MaxScanTokenSize] bytes without a newline stops the scan. *)
Fixpoint deliver (segs : list string) : list string * bool :=
  match segs with
  | [] => ([], false)
  | seg :: rest =>
      if MaxScanTokenSize <=? slen seg then ([], true)
      else let '(tokens, err) := deliver rest in (dropCR seg :: tokens, err)
  end.

Record Scanner : Type := {
  tokens : list string;  (* the values of Text() after each successful Scan() *)
  failed : bool          (* Err() != nil once Scan() has returned false *)
}.

(** [bufio.NewScanner(strings.NewReader(content))] *)
Definition NewScanner (content : string) : Scanner :=
  let '(ts, err) := deliver (scan_segments content) in
  {| tokens := ts; failed := err |}.

(** ** The libraries behind the viewer *)

(** What [regexp.FindAllStringIndex] promises of the spans it returns on a
    text of length [n]: in range, left to right, not overlapping. *)
Fixpoint spans_ok (n start : Z) (spans : list (Z * Z)) : Prop :=
  match spans with
  | [] => True
  | (lo, hi) :: rest => start <= lo /\ lo <= hi /\ hi <= n /\ spans_ok n hi rest
  end.

Class Deps : Type := {
  (** [textinput.Model] *)
  Input : Type;
  input_Value : Input -> string;
  input_SetValue : string -> Input -> Input;
  input_View : Input -> string;
  (** [*regexp.Regexp] *)
  Regexp : Type;
  regexp_Compile : string -> option Regexp;
  regexp_Compile_empty : regexp_Compile "" <> None;
  FindAllStringIndex : Regexp -> string -> list (Z * Z);
  FindAllStringIndex_spans :
    forall re s, spans_ok (slen s) 0 (FindAllStringIndex re s);
  (** [highlight.Render] *)
  highlight_Render : string -> string;
  (** [wrap.String] and [truncate.String] of muesli/reflow *)
  wrap_String : string -> Z -> string;
  truncate_String : string -> Z -> string;
  (** [lipgloss.Style]; [style_Render st w h s] is
      [st.Copy().Width(w).Height(h).MaxWidth(w).MaxHeight(h).Render(s)] *)
  Style : Type;
  style_Render : Style -> Z -> Z -> string -> string
}.

Inductive FocusArea : Type :=
| focusNone
| FocusSearchBar
| FocusLogPane
| FocusHelp.

Definition FocusArea_eqb (a b : FocusArea) : bool :=
  match a, b with
  | focusNone, focusNone
  | FocusSearchBar, FocusSearchBar
  | FocusLogPane, FocusLogPane
  | FocusHelp, FocusHelp => true
  | _, _ => false
  end.

Section Logview.

Context {D : Deps}.

(** ** The model *)

Record Model : Type := {
  windowWidth : Z;
  windowHeight : Z;
  shouldHardwrap : bool;
  shouldShowStatusbar : bool;
  focus : FocusArea;
  input : Input;
  queryRe : option Regexp;   (* nil when no query is compiled *)
  prevQuery : string;
  heldKey : string;
  (* negative: tailing; otherwise the line pinned to the top of the viewport *)
  scrollPosition : Z;
  firstDisplayedLine : Z;
  lines : list string;
  filtered : list string;
  buffer : string
}.

Definition set_input (v : Input) (m : Model) : Model :=
  {| windowWidth := windowWidth m; windowHeight := windowHeight m;
     shouldHardwrap := shouldHardwrap m;
     shouldShowStatusbar := shouldShowStatusbar m;
     focus := focus m; input := v; queryRe := queryRe m;
     prevQuery := prevQuery m; heldKey := heldKey m;
     scrollPosition := scrollPosition m;
     firstDisplayedLine := firstDisplayedLine m;
     lines := lines m; filtered := filtered m; buffer := buffer m |}.

Definition set_queryRe (v : option Regexp) (m : Model) : Model :=
  {| windowWidth := windowWidth m; windowHeight := windowHeight m;
     shouldHardwrap := shouldHardwrap m;
     shouldShowStatusbar := shouldShowStatusbar m;
     focus := focus m; input := input m; queryRe := v;
     prevQuery := prevQuery m; heldKey := heldKey m;
     scrollPosition := scrollPosition m;
     firstDisplayedLine := firstDisplayedLine m;
     lines := lines m; filtered := filtered m; buffer := buffer m |}.

Definition set_scrollPosition (v : Z) (m : Model) : Model :=
  {| windowWidth := windowWidth m; windowHeight := windowHeight m;
     shouldHardwrap := shouldHardwrap m;
     shouldShowStatusbar := shouldShowStatusbar m;
     focus := focus m; input := input m; queryRe := queryRe m;
     prevQuery := prevQuery m; heldKey := heldKey m;
     scrollPosition := v;
     firstDisplayedLine := firstDisplayedLine m;
     lines := lines m; filtered := filtered m; buffer := buffer m |}.

Definition set_firstDisplayedLine (v : Z) (m : Model) : Model :=
  {| windowWidth := windowWidth m; windowHeight := windowHeight m;
     shouldHardwrap := shouldHardwrap m;
     shouldShowStatusbar := shouldShowStatusbar m;
     focus := focus m; input := input m; queryRe := queryRe m;
     prevQuery := prevQuery m; heldKey := heldKey m;
     scrollPosition := scrollPosition m;
     firstDisplayedLine := v;
     lines := lines m; filtered := filtered m; buffer := buffer m |}.

Definition set_lines (v : list string) (m : Model) : Model :=
  {| windowWidth := windowWidth m; windowHeight := windowHeight m;
     shouldHardwrap := shouldHardwrap m;
     shouldShowStatusbar := shouldShowStatusbar m;
     focus := focus m; input := input m; queryRe := queryRe m;
     prevQuery := prevQuery m; heldKey := heldKey m;
     scrollPosition := scrollPosition m;
     firstDisplayedLine := firstDisplayedLine m;
     lines := v; filtered := filtered m; buffer := buffer m |}.

Definition set_filtered (v : list string) (m : Model) : Model :=
  {| windowWidth := windowWidth m; windowHeight := windowHeight m;
     shouldHardwrap := shouldHardwrap m;
     shouldShowStatusbar := shouldShowStatusbar m;
     focus := focus m; input := input m; queryRe := queryRe m;
     prevQuery := prevQuery m; heldKey := heldKey m;
     scrollPosition := scrollPosition m;
     firstDisplayedLine := firstDisplayedLine m;
     lines := lines m; filtered := v; buffer := buffer m |}.

Definition set_buffer (v : string) (m : Model) : Model :=
  {| windowWidth := windowWidth m; windowHeight := windowHeight m;
     shouldHardwrap := shouldHardwrap m;
     shouldShowStatusbar := shouldShowStatusbar m;
     focus := focus m; input := input m; queryRe := queryRe m;
     prevQuery := prevQuery m; heldKey := heldKey m;
     scrollPosition := scrollPosition m;
     firstDisplayedLine := firstDisplayedLine m;
     lines := lines m; filtered := filtered m; buffer := v |}.

(** [New()] with no modifier; [inp] is [textinput.New()] with its prompt set. *)
Definition New (inp : Input) : Model :=
  {| windowWidth := 0; windowHeight := 0;
     shouldHardwrap := false; shouldShowStatusbar := true;
     focus := focusNone; input := inp; queryRe := None;
     prevQuery := ""; heldKey := "";
     scrollPosition := -1; firstDisplayedLine := 0;
     lines := []; filtered := []; buffer := "" |}.

Definition WithoutStatusbar (m : Model) : Model :=
  {| windowWidth := windowWidth m; windowHeight := windowHeight m;
     shouldHardwrap := shouldHardwrap m;
     shouldShowStatusbar := false;
     focus := focus m; input := input m; queryRe := queryRe m;
     prevQuery := prevQuery m; heldKey := heldKey m;
     scrollPosition := scrollPosition m;
     firstDisplayedLine := firstDisplayedLine m;
     lines := lines m; filtered := filtered m; buffer := buffer m |}.

Definition WithStartAtHead (m : Model) : Model := set_scrollPosition 0 m.

(** [SetWrapMode] *)
Definition SetWrapMode (hardwrap : bool) (m : Model) : Model :=
  {| windowWidth := windowWidth m; windowHeight := windowHeight m;
     shouldHardwrap := hardwrap;
     shouldShowStatusbar := shouldShowStatusbar m;
     focus := focus m; input := input m; queryRe := queryRe m;
     prevQuery := prevQuery m; heldKey := heldKey m;
     scrollPosition := scrollPosition m;
     firstDisplayedLine := firstDisplayedLine m;
     lines := lines m; filtered := filtered m; buffer := buffer m |}.

Definition WithSoftWrap (m : Model) : Model := SetWrapMode false m.

(** ** Search *)

(** The line view the scroll and render code works on: [m.filtered] when a
    query is compiled, [m.lines] otherwise. *)
Definition lineView (m : Model) : list string :=
  match queryRe m with
  | Some _ => filtered m
  | None => lines m
  end.

(** [stuff = *result + stuff] when [result != nil] *)
Definition onto (result : option string) (stuff : string) : string :=
  match result with
  | Some r => r ++ stuff
  | None => stuff
  end.

(** The loop of [searchLine] over the spans of the matches; it carries
    [result] and [start]. *)
Fixpoint highlight_spans (line : string) (spans : list (Z * Z))
    (result : option string) (start : Z) : outcome (option string * Z) :=
  match spans with
  | [] => Ok (result, start)
  | (m0, m1) :: rest =>
      let? result :=
        (if start <? m0
         then let? stuff := str_slice line start m0 in
              Ok (Some (onto result stuff))
         else Ok result) in
      let start := m1 in
      let? matched := str_slice line m0 m1 in
      let stuff := highlight_Render matched in
      highlight_spans line rest (Some (onto result stuff)) start
  end.

(** The part of [searchLine] that works on the text of the line. *)
Definition highlightLine (re : Regexp) (line : string) : outcome (option string) :=
  let? '(result, start) :=
    highlight_spans line (FindAllStringIndex re line) None 0 in
  match result with
  | Some r => let? rest := str_slice_from line start in Ok (Some (r ++ rest))
  | None => Ok None
  end.

Definition searchLine (m : Model) (lineno : Z) : outcome (option string) :=
  match queryRe m with
  | None => Ok None
  | Some re =>
      if lineno <? 0 then Ok None
      else let? line := at_index (lines m) lineno in highlightLine re line
  end.

Fixpoint search_range (m : Model) (idxs : list nat) (results : list string)
    : outcome (list string) :=
  match idxs with
  | [] => Ok results
  | i :: rest =>
      let? thing := searchLine m (Z.of_nat i) in
      match thing with
      | Some r => search_range m rest (results ++ [r])
      | None => search_range m rest results
      end
  end.

Definition search (m : Model) : outcome (list string) :=
  match queryRe m with
  | None => Ok []
  | Some _ => search_range m (seq 0 (List.length (lines m))) []
  end.

Definition Query (m : Model) : string := input_Value (input m).

Definition handleSearch : M Model unit :=
  m <- get ;;
  let query := input_Value (input m) in
  if (query =? "")%string then modify (set_queryRe None)
  else
    (match regexp_Compile query with
     | Some re => modify (set_queryRe (Some re))
     | None => ret tt
     end) ;;
    found <- reads search ;;
    modify (set_filtered found).

Definition SetQuery (query : string) : M Model unit :=
  modify (fun m => set_input (input_SetValue query (input m)) m) ;;
  handleSearch.

(** ** Ingestion *)

Definition handleWrite (content : string) : M Model unit :=
  let scanner := NewScanner content in
  match tokens scanner with
  | [] => ret tt
  | text :: rest =>
      modify (fun m =>
        set_buffer "" (set_lines (lines m ++ [buffer m ++ text]) m)) ;;
      found <- reads (fun m => searchLine m (len (lines m) - 1)) ;;
      (match found with
       | Some r => modify (fun m => set_filtered (filtered m ++ [r]) m)
       | None => ret tt
       end) ;;
      for_each rest (fun text =>
        modify (fun m => set_lines (lines m ++ [text]) m) ;;
        found <- reads (fun m => searchLine m (len (lines m) - 1)) ;;
        match found with
        | Some r =>
            if HasSuffix text NL
            then modify (fun m => set_filtered (filtered m ++ [r]) m)
            else ret tt
        | None => ret tt
        end) ;;
      (if failed scanner then panic ErrTooLong else ret tt) ;;
      m <- get ;;
      if (0 <? len (lines m)) && negb (HasSuffix content NL)
      then modify (fun m =>
             set_lines (removelast (lines m))
               (set_buffer (last (lines m) "") m))
      else ret tt
  end.

Definition Write (content : string) : M Model unit := handleWrite content.

(** ** Scrolling *)

Definition clamp (lower upper val : Z) : Z := Z.max lower (Z.min upper val).

Definition ScrollBy (delta : Z) (m : Model) : Model :=
  let view := lineView m in
  (* if tailing, first set scroll position to the bottom before adjusting it *)
  let m := if scrollPosition m <? 0
           then set_scrollPosition (Z.max 0 (firstDisplayedLine m)) m
           else m in
  set_scrollPosition (clamp 0 (len view - 1) (add (scrollPosition m) delta)) m.

Definition ScrollTo (line : Z) (m : Model) : Model :=
  let view := lineView m in
  if line <? 0 then set_scrollPosition (-1) m
  else set_scrollPosition (clamp 0 (len view - 1) line) m.

(** ** Wrapping *)

Definition firstNLines (s : string) (n : Z) : outcome string :=
  let rows := Split s nl in
  let? kept := slice_to rows (Z.min n (len rows)) in
  Ok (Join kept NL).

Definition lastNLines (s : string) (n : Z) : outcome string :=
  let rows := Split s nl in
  let? kept := slice_from rows (Z.max 0 (sub (len rows) n)) in
  Ok (Join kept NL).

Definition wrapLine (m : Model) (line : string) (maxLines width : Z)
    : outcome (string * Z) :=
  if shouldHardwrap m then
    let wrapped := truncate_String line (uint width) in
    Ok (wrapped, 1)
  else
    let wrapped := wrap_String line width in
    let wrappedHeight := Count wrapped nl + 1 in
    if maxLines <? wrappedHeight then
      let wrappedHeight := maxLines in
      let? wrapped :=
        (if scrollPosition m <? 0 then lastNLines wrapped wrappedHeight
         else firstNLines wrapped wrappedHeight) in
      Ok (wrapped, wrappedHeight)
    else Ok (wrapped, wrappedHeight).

(** ** Rendering the log pane *)

Definition logHeight (m : Model) (height : Z) : Z :=
  if negb (shouldShowStatusbar m) then height
  else Z.max (sub height 1) 0.

(** The tailing loop of [RenderLog]: [pointer] runs down from [n - 1]; the
    loop returns [output], [outputHeight] and the [pointer] it stopped at. *)
Fixpoint tail_loop (m : Model) (view : list string) (width targetHeight : Z)
    (n : nat) (output : string) (outputHeight : Z)
    : outcome (string * Z * Z) :=
  match n with
  | O => Ok (output, outputHeight, -1)
  | S n' =>
      if outputHeight <? targetHeight then
        let pointer := Z.of_nat n' in
        let? l := at_index view pointer in
        let? '(wrapped, wrappedHeight) :=
          wrapLine m l (sub targetHeight outputHeight) width in
        tail_loop m view width targetHeight n'
          (NL ++ wrapped ++ output) (add outputHeight wrappedHeight)
      else Ok (output, outputHeight, Z.of_nat n - 1)
  end.

(** [for outputHeight < targetHeight { output = pad + output; outputHeight += 1 }] *)
Fixpoint pad_loop (pad : string) (n : nat) (output : string) : string :=
  match n with
  | O => output
  | S n' => pad_loop pad n' (pad ++ output)
  end.

(** The pinned loop of [RenderLog] over [view[pointer:]]. *)
Fixpoint pinned_loop (m : Model) (rest : list string) (width targetHeight : Z)
    (output : string) (outputHeight : Z) : outcome (string * Z) :=
  match rest with
  | [] => Ok (output, outputHeight)
  | l :: rest' =>
      if outputHeight <? targetHeight then
        let? '(wrapped, wrappedHeight) :=
          wrapLine m l (sub targetHeight outputHeight) width in
        pinned_loop m rest' width targetHeight
          (output ++ wrapped ++ NL) (add outputHeight wrappedHeight)
      else Ok (output, outputHeight)
  end.

Definition RenderLog (width height : Z) : M Model string :=
  m <- get ;;
  let view := lineView m in
  if scrollPosition m <? 0 then
    let targetHeight := height in
    (* handle the buffer, if present *)
    '(output, outputHeight) <- reads (fun m =>
      if negb (buffer m =? "")%string then
        let? '(wrapped, wrappedHeight) :=
          wrapLine m (buffer m) targetHeight width in
        Ok (NL ++ wrapped, wrappedHeight)
      else Ok ("", 0)) ;;
    '(output, outputHeight, pointer) <- reads (fun m =>
      tail_loop m view width targetHeight (List.length view)
        output outputHeight) ;;
    modify (set_firstDisplayedLine pointer) ;;
    let output := TrimPrefix output NL in
    if outputHeight <? targetHeight then
      pad <- reads (fun _ =>
        let? spaces := Repeat " " width in Ok (spaces ++ NL)) ;;
      ret (pad_loop pad (Z.to_nat (targetHeight - outputHeight)) output)
    else ret output
  else
    let targetHeight := logHeight m height in
    modify (set_firstDisplayedLine (scrollPosition m)) ;;
    (* handle the lines *)
    '(output, outputHeight) <- reads (fun m =>
      pinned_loop m (skipn (Z.to_nat (scrollPosition m)) view)
        width targetHeight "" 0) ;;
    (* handle the buffer *)
    output <- reads (fun m =>
      if (outputHeight <? targetHeight) && negb (buffer m =? "")%string then
        let? '(wrapped, _) :=
          wrapLine m (buffer m) (sub targetHeight outputHeight) width in
        Ok (output ++ wrapped ++ NL)
      else Ok output) ;;
    ret (TrimSuffix output NL).

(** ** The status bar and the frame *)

Definition RenderLineStatus (m : Model) : string :=
  let linecount := len (lineView m) in
  let linecount := if negb (buffer m =? "")%string
                   then linecount + 1 else linecount in
  if scrollPosition m <? 0 then ""
  else itoa (add (scrollPosition m) 1) ++ " of " ++ itoa linecount.

Definition RenderSearchStatus (m : Model) : string :=
  if negb (Query m =? "")%string || FocusArea_eqb (focus m) FocusSearchBar
  then input_View (input m)
  else "".

Definition viewStatusbar (m : Model) : string :=
  let result := RenderLineStatus m in
  let result := if negb (result =? "")%string
                then result ++ String "009" "" else result in
  result ++ RenderSearchStatus m.

Record Styles : Type := {
  Log : Style;
  Statusbar : Style
}.

Definition Render (styles : Styles) (width height : Z) : M Model string :=
  (* don't crash if window has zero area *)
  if (width <=? 0) || (height <=? 0) then ret ""
  else
    m <- get ;;
    (* skip statusbar if window is too short *)
    if (height <? 2) || negb (shouldShowStatusbar m) then
      content <- RenderLog width height ;;
      ret (style_Render (Log styles) width height content)
    else
      (* render logview and statusbar *)
      content <- RenderLog width (sub height 1) ;;
      let logview := style_Render (Log styles) width (sub height 1) content in
      m <- get ;;
      let statusbar := style_Render (Statusbar styles) width 1 (viewStatusbar m) in
      ret (logview ++ NL ++ statusbar).

End Logview.

(** * The rest of the package *)

(** [modulo]: Go's [%] truncates towards zero, as [Z.rem] does. *)
Definition modulo (i n : Z) : Z :=
  if n =? 0 then 0
  else Z.rem (add (Z.rem i n) n) n.

Section Accessors.

Context {D : Deps}.

Definition set_focus (v : FocusArea) (m : Model) : Model :=
  {| windowWidth := windowWidth m; windowHeight := windowHeight m;
     shouldHardwrap := shouldHardwrap m;
     shouldShowStatusbar := shouldShowStatusbar m;
     focus := v; input := input m; queryRe := queryRe m;
     prevQuery := prevQuery m; heldKey := heldKey m;
     scrollPosition := scrollPosition m;
     firstDisplayedLine := firstDisplayedLine m;
     lines := lines m; filtered := filtered m; buffer := buffer m |}.

Definition set_prevQuery (v : string) (m : Model) : Model :=
  {| windowWidth := windowWidth m; windowHeight := windowHeight m;
     shouldHardwrap := shouldHardwrap m;
     shouldShowStatusbar := shouldShowStatusbar m;
     focus := focus m; input := input m; queryRe := queryRe m;
     prevQuery := v; heldKey := heldKey m;
     scrollPosition := scrollPosition m;
     firstDisplayedLine := firstDisplayedLine m;
     lines := lines m; filtered := filtered m; buffer := buffer m |}.

Definition set_heldKey (v : string) (m : Model) : Model :=
  {| windowWidth := windowWidth m; windowHeight := windowHeight m;
     shouldHardwrap := shouldHardwrap m;
     shouldShowStatusbar := shouldShowStatusbar m;
     focus := focus m; input := input m; queryRe := queryRe m;
     prevQuery := prevQuery m; heldKey := v;
     scrollPosition := scrollPosition m;
     firstDisplayedLine := firstDisplayedLine m;
     lines := lines m; filtered := filtered m; buffer := buffer m |}.

Definition SetDimensions (width height : Z) (m : Model) : Model :=
  {| windowWidth := width; windowHeight := height;
     shouldHardwrap := shouldHardwrap m;
     shouldShowStatusbar := shouldShowStatusbar m;
     focus := focus m; input := input m; queryRe := queryRe m;
     prevQuery := prevQuery m; heldKey := heldKey m;
     scrollPosition := scrollPosition m;
     firstDisplayedLine := firstDisplayedLine m;
     lines := lines m; filtered := filtered m; buffer := buffer m |}.

Definition ShowStatusbar (show : bool) (m : Model) : Model :=
  {| windowWidth := windowWidth m; windowHeight := windowHeight m;
     shouldHardwrap := shouldHardwrap m;
     shouldShowStatusbar := show;
     focus := focus m; input := input m; queryRe := queryRe m;
     prevQuery := prevQuery m; heldKey := heldKey m;
     scrollPosition := scrollPosition m;
     firstDisplayedLine := firstDisplayedLine m;
     lines := lines m; filtered := filtered m; buffer := buffer m |}.

Definition ToggleWrapMode (m : Model) : Model :=
  SetWrapMode (negb (shouldHardwrap m)) m.

Definition Focus (m : Model) : FocusArea := focus m.

(** [content]: the lines, and the buffer after them when it is not empty. *)
Definition content (m : Model) : list string :=
  if negb (buffer m =? "")%string then (lines m ++ [buffer m])%list
  else lines m.

(** [String] *)
Definition String_ (m : Model) : string := Join (content m) NL.

(** [View]; [defaultStyles] are the package's default styles. *)
Definition View (defaultStyles : Styles) : M Model string :=
  m <- get ;;
  Render defaultStyles (windowWidth m) (windowHeight m).

End Accessors.

(** ** Messages, keys and the mouse *)

(** [tea.MouseButton] *)
Inductive MouseButton : Type :=
| MouseButtonNone
| MouseButtonLeft
| MouseButtonMiddle
| MouseButtonRight
| MouseButtonWheelUp
| MouseButtonWheelDown
| MouseButtonWheelLeft
| MouseButtonWheelRight
| MouseButtonBackward
| MouseButtonForward
| MouseButton10
| MouseButton11.

(** [tea.Msg], by the dynamic types [Update] tells apart. *)
Inductive Msg (K Ms O : Type) : Type :=
| OfKey (msg : K)
| OfMouse (msg : Ms)
| OfOther (msg : O).
Arguments OfKey {K Ms O} msg.
Arguments OfMouse {K Ms O} msg.
Arguments OfOther {K Ms O} msg.

(** What the viewer uses of bubbletea and of the text input beyond [Deps]:
    [tea.KeyMsg] with its [String()], [tea.MouseMsg] with its [Button],
    [tea.Cmd] and [tea.Quit], and the [Update], [Focus] and [Blur] of
    [textinput.Model] (the command [Focus] returns is dropped by the
    viewer). *)
Class Tea (D : Deps) : Type := {
  KeyMsg : Type;
  key_String : KeyMsg -> string;
  MouseMsg : Type;
  mouse_Button : MouseMsg -> MouseButton;
  OtherMsg : Type;
  Cmd : Type;
  tea_Quit : Cmd;
  input_Update : Msg KeyMsg MouseMsg OtherMsg -> Input -> Input * option Cmd;
  input_Focus : Input -> Input;
  input_Blur : Input -> Input
}.

Section Keys.

Context {D : Deps} {T : Tea D}.

Definition SetFocus (area : FocusArea) : M Model unit :=
  modify (set_focus area) ;;
  match area with
  | FocusSearchBar =>
      modify (fun m => set_input (input_Focus (input m)) m) ;;
      handleSearch
  | _ => modify (fun m => set_input (input_Blur (input m)) m)
  end.

(** [case k1, k2, ...:] of a switch on a string. *)
Definition key_in (key : string) (keys : list string) : bool :=
  existsb (String.eqb key) keys.

(** The [default] case of the search bar: the text input handles the key,
    and the search runs again when the text changed. *)
Definition typeInSearchBar (msg : KeyMsg) : M Model (option Cmd) :=
  m <- get ;;
  let queryBefore := input_Value (input m) in
  let '(newSearch, cmd) := input_Update (OfKey msg) (input m) in
  modify (set_input newSearch) ;;
  (if negb (input_Value newSearch =? queryBefore)%string
   then handleSearch else ret tt) ;;
  ret cmd.

Definition handleKey (msg : KeyMsg) : M Model (option Cmd) :=
  m <- get ;;
  let key := key_String msg in
  if FocusArea_eqb (focus m) FocusHelp then
    (if key_in key ["esc"; "ctrl+c"; "q"; "h"; "?"]
     then SetFocus FocusLogPane else ret tt) ;;
    ret None
  else if FocusArea_eqb (focus m) FocusSearchBar then
    if key_in key ["esc"; "ctrl+c"] then
      modify (fun m => set_input (input_SetValue (prevQuery m) (input m)) m) ;;
      modify (set_prevQuery "") ;;
      SetFocus FocusLogPane ;;
      ret None
    else if key_in key ["enter"] then
      SetFocus FocusLogPane ;;
      ret None
    else if key_in key ["backspace"] then
      if (Query m =? "")%string then
        SetFocus FocusLogPane ;;
        ret None
      else typeInSearchBar msg
    else typeInSearchBar msg
  else if key_in key ["ctrl+c"; "esc"] then ret (Some tea_Quit)
  else
    (if key_in key ["w"] then
       modify (fun m => SetWrapMode (negb (shouldHardwrap m)) m)
     else if key_in key ["/"] then
       modify (fun m => set_prevQuery (Query m) m) ;;
       SetQuery "" ;;
       SetFocus FocusSearchBar
     else if key_in key ["up"; "k"] then modify (ScrollBy (-1))
     else if key_in key ["down"; "j"] then modify (ScrollBy 1)
     else if key_in key ["pgup"] then
       modify (fun m =>
         let pageDistance := Z.max 0 (sub (windowHeight m) 4) in
         ScrollBy (sub 0 pageDistance) m)
     else if key_in key ["pgdown"] then
       modify (fun m =>
         let pageDistance := Z.max 0 (sub (windowHeight m) 4) in
         ScrollBy pageDistance m)
     else if key_in key ["ctrl+u"] then
       modify (fun m => ScrollBy (Z.quot (sub 0 (windowHeight m)) 2) m)
     else if key_in key ["ctrl+d"] then
       modify (fun m => ScrollBy (Z.quot (windowHeight m) 2) m)
     else if key_in key ["home"] then modify (ScrollTo 0)
     else if key_in key ["end"] then modify (ScrollTo (-1))
     else if key_in key ["g"] then
       modify (fun m =>
         if (heldKey m =? "g")%string
         then set_heldKey "" (ScrollTo 0 m)
         else set_heldKey "g" m)
     else if key_in key ["G"] then modify (ScrollTo (-1))
     else ret tt) ;;
    ret None.

Definition handleMouse (msg : MouseMsg) : M Model unit :=
  match mouse_Button msg with
  | MouseButtonWheelDown => modify (ScrollBy 1)
  | MouseButtonWheelUp => modify (ScrollBy (-1))
  | _ => ret tt
  end.

(** [Update]; the model it returns is the receiver, so the result is the
    command alone. *)
Definition Update (msg : Msg KeyMsg MouseMsg OtherMsg) : M Model (option Cmd) :=
  match msg with
  | OfKey k => handleKey k
  | OfMouse ms => handleMouse ms ;; ret None
  | OfOther _ =>
      m <- get ;;
      let '(newInput, cmd) := input_Update msg (input m) in
      modify (set_input newInput) ;;
      ret cmd
  end.

End Keys.

(** ** [tailStdin] of [src/main.go]

    What [tailStdin] passes to its sink, in order, and the error it returns,
    from the bytes standard input holds: every scanned line with a newline
    after it, then ["EOF\n"] when the scanner stopped without an error. *)
Definition tailStdin (stdin : string) : list string * option error :=
  let sc := NewScanner stdin in
  let sunk := map (fun text => text ++ NL) (tokens sc) in
  if failed sc then (sunk, Some ErrTooLong)
  else (app sunk ["EOF" ++ NL], None).

(** * Notions the properties are stated with *)

(** Content without a carriage return whose lines all fit the scanner's
    buffer. *)
Definition plain_chunk (content : string) : Prop :=
  contains_byte content cr = false /\
  Forall (fun seg => slen seg < MaxScanTokenSize) (Split content nl).

(** Ingestion byte by byte: a newline finishes the pending line, any other
    byte is added to it. *)
Fixpoint feed (ls : list string) (buf : string) (content : string)
    : list string * string :=
  match content with
  | EmptyString => (ls, buf)
  | String c rest =>
      if Ascii.eqb c nl then feed (ls ++ [buf]) "" rest
      else feed ls (buf ++ String c "") rest
  end.

Section Notions.

Context {D : Deps}.

(** Every field but [lines], [filtered] and [buffer] is the same in both. *)
Definition same_outside_store (m m' : Model) : Prop :=
  windowWidth m' = windowWidth m /\
  windowHeight m' = windowHeight m /\
  shouldHardwrap m' = shouldHardwrap m /\
  shouldShowStatusbar m' = shouldShowStatusbar m /\
  focus m' = focus m /\
  input m' = input m /\
  queryRe m' = queryRe m /\
  prevQuery m' = prevQuery m /\
  heldKey m' = heldKey m /\
  scrollPosition m' = scrollPosition m /\
  firstDisplayedLine m' = firstDisplayedLine m.

Definition store_only {A : Type} (c : M Model A) : Prop :=
  forall m, same_outside_store m (exec c m).

(** The filter in force in [m] still decides what [m'] shows: the compiled
    query and the lines are those of [m], the filtered view is what a full
    search of [m] finds, and the line view is chosen by the query of [m]. *)
Definition filter_kept (m m' : Model) : Prop :=
  queryRe m' = queryRe m /\
  lines m' = lines m /\
  search m = Ok (filtered m') /\
  lineView m' = match queryRe m with
                | Some _ => filtered m'
                | None => lines m
                end.


(** The body of the loop of [handleWrite] over the tokens after the first. *)
Definition write_rest (text : string) : M Model unit :=
  modify (fun m => set_lines (lines m ++ [text]) m) ;;
  found <- reads (fun m => searchLine m (len (lines m) - 1)) ;;
  match found with
  | Some r =>
      if HasSuffix text NL
      then modify (fun m => set_filtered (filtered m ++ [r]) m)
      else ret tt
  | None => ret tt
  end.

(** [m.buffer = m.lines[len(m.lines)-1]; m.lines = m.lines[:len(m.lines)-1]] *)
Definition unscan_last (m : Model) : Model :=
  set_lines (removelast (lines m)) (set_buffer (last (lines m) "") m).

(** The indices of the lines the tailing loop adds to the output, newest
    first: the companion of [tail_loop] that records [pointer] each time the
    body runs. *)
Fixpoint tail_painted (m : Model) (view : list string) (width targetHeight : Z)
    (n : nat) (outputHeight : Z) : list Z :=
  match n with
  | O => []
  | S n' =>
      if outputHeight <? targetHeight then
        match
          (let? l := at_index view (Z.of_nat n') in
           wrapLine m l (sub targetHeight outputHeight) width)
        with
        | Ok (_, wrappedHeight) =>
            Z.of_nat n' ::
            tail_painted m view width targetHeight n'
              (add outputHeight wrappedHeight)
        | Panic _ => []
        end
      else []
  end.

(** The indices of the lines a tailing [RenderLog] paints, newest first. *)
Definition tailing_painted (m : Model) (width height : Z) : list Z :=
  match
    (if negb (buffer m =? "")%string
     then let? '(_, wrappedHeight) := wrapLine m (buffer m) height width in
          Ok wrappedHeight
     else Ok 0)
  with
  | Ok outputHeight =>
      tail_painted m (lineView m) width height (List.length (lineView m))
        outputHeight
  | Panic _ => []
  end.

End Notions.

(** * A plain-text instance of the libraries

    Enough of each library to run the model on printable ASCII text: a text
    input that holds its value, patterns without metacharacters (which Go's
    [regexp] matches literally, leftmost first and without overlap), a wrap
    that breaks a row after [width] columns, a truncation that keeps the
    first [width] columns, a highlight that brackets the match and a style
    that renders its content as it is, without padding.  A pattern with a
    metacharacter is refused; of those, the properties below use ["("], which
    [regexp] refuses as well. *)
Module Plain.

Definition is_meta (c : ascii) : bool :=
  existsb (Ascii.eqb c)
    ["\"; "."; "+"; "*"; "?"; "("; ")"; "|"; "["; "]"; "{"; "}"; "^"; "$"]%char.

Fixpoint has_meta (p : string) : bool :=
  match p with
  | EmptyString => false
  | String c p' => is_meta c || has_meta p'
  end.

Definition Compile (p : string) : option string :=
  if has_meta p then None else Some p.

(** The occurrences of [p] in [s], which starts at offset [pos] of the text;
    [skip] bytes belong to the previous match. *)
Fixpoint find_all (p s : string) (pos : Z) (skip : nat) {struct s}
    : list (Z * Z) :=
  match skip with
  | S k =>
      match s with
      | EmptyString => []
      | String _ s' => find_all p s' (pos + 1) k
      end
  | O =>
      if prefix p s then
        (pos, pos + slen p) ::
        match s with
        | EmptyString => []
        | String _ s' => find_all p s' (pos + 1) (String.length p - 1)
        end
      else
        match s with
        | EmptyString => []
        | String _ s' => find_all p s' (pos + 1) 0
        end
  end.

Definition FindAll (p s : string) : list (Z * Z) := find_all p s 0 0.

Definition mark (s : string) : string := "[" ++ s ++ "]".

Fixpoint wrap_at (s : string) (width col : Z) : string :=
  match s with
  | EmptyString => EmptyString
  | String c s' =>
      if Ascii.eqb c nl then String c (wrap_at s' width 0)
      else if width <=? col then String nl (String c (wrap_at s' width 1))
      else String c (wrap_at s' width (col + 1))
  end.

Definition wrap_text (s : string) (width : Z) : string :=
  if width <=? 0 then s else wrap_at s width 0.

Fixpoint truncate_text (s : string) (width : Z) : string :=
  match s with
  | EmptyString => EmptyString
  | String c s' =>
      if width <=? 0 then EmptyString
      else String c (truncate_text s' (width - 1))
  end.

Lemma prefix_slen (p s : string) : prefix p s = true -> slen p <= slen s.
Proof.
  unfold slen. revert s.
  induction p as [|c p IH]; intros s H; [simpl; lia|].
  destruct s as [|d s]; simpl in H; [discriminate H|].
  destruct (ascii_dec c d); [|discriminate H].
  specialize (IH s H). simpl String.length. lia.
Qed.

Lemma find_all_spans (p s : string) :
  forall pos skip start,
    start <= pos + Z.of_nat skip ->
    Z.of_nat skip <= slen s ->
    spans_ok (pos + slen s) start (find_all p s pos skip).
Proof.
  induction s as [|c s IH]; intros pos skip start Hs Hk.
  - unfold slen in Hk. simpl in Hk. destruct skip; [|lia]. cbn [find_all].
    destruct (prefix p "") eqn:Hp; cbn [spans_ok]; [|exact I].
    apply prefix_slen in Hp. unfold slen in *. simpl String.length in *. lia.
  - assert (Hlen : pos + slen (String c s) = (pos + 1) + slen s).
    { unfold slen. simpl String.length. lia. }
    rewrite Hlen.
    assert (Hc : slen (String c s) = 1 + slen s).
    { unfold slen. simpl String.length. lia. }
    assert (Hn : 0 <= slen p) by (unfold slen; lia).
    assert (Hn' : 0 <= slen s) by (unfold slen; lia).
    destruct skip as [|k].
    + cbn [find_all].
      destruct (prefix p (String c s)) eqn:Hp.
      * apply prefix_slen in Hp. rewrite Hc in Hp.
        cbn [spans_ok]. split; [lia|]. split; [lia|]. split; [lia|].
        apply IH; unfold slen in *; lia.
      * apply IH; lia.
    + cbn [find_all]. apply IH; lia.
Qed.

Lemma FindAll_spans (p s : string) : spans_ok (slen s) 0 (FindAll p s).
Proof.
  unfold FindAll. change (slen s) with (0 + slen s).
  apply find_all_spans; unfold slen; simpl; lia.
Qed.

Lemma Compile_empty : Compile "" <> None.
Proof. intro H. vm_compute in H. discriminate H. Qed.

#[export] Instance deps : Deps := {|
  Input := string;
  input_Value := fun v => v;
  input_SetValue := fun q _ => q;
  input_View := fun v => "/" ++ v;
  Regexp := string;
  regexp_Compile := Compile;
  regexp_Compile_empty := Compile_empty;
  FindAllStringIndex := FindAll;
  FindAllStringIndex_spans := FindAll_spans;
  highlight_Render := mark;
  wrap_String := wrap_text;
  truncate_String := truncate_text;
  Style := unit;
  style_Render := fun _ _ _ s => s
|}.

(** A new model and the default styles over this instance. *)
Definition start : @Model deps := @New deps "".
Definition styles : @Styles deps := @Build_Styles deps tt tt.

End Plain.

(** * Properties *)

(** ** Arithmetic, and the [strings] functions on appended text *)

Lemma wrap_small (z : Z) : - 2 ^ 63 <= z < 2 ^ 63 -> wrap z = z.
Proof.
  intros H. unfold wrap.
  rewrite Z.mod_small by lia. lia.
Qed.

Lemma len_nonneg {A : Type} (l : list A) : 0 <= len l.
Proof. unfold len. lia. Qed.


Lemma append_nil_r (s : string) : s ++ "" = s.
Proof. induction s as [|c s IH]; simpl; [reflexivity | now rewrite IH]. Qed.

Lemma append_assoc (s1 s2 s3 : string) : (s1 ++ s2) ++ s3 = s1 ++ (s2 ++ s3).
Proof. induction s1 as [|c s1 IH]; simpl; [reflexivity | now rewrite IH]. Qed.

Lemma length_append (s1 s2 : string) :
  String.length (s1 ++ s2) = (String.length s1 + String.length s2)%nat.
Proof. induction s1 as [|c s1 IH]; simpl; [reflexivity | now rewrite IH]. Qed.

Lemma substring_all (s : string) : substring 0 (String.length s) s = s.
Proof. induction s as [|c s IH]; simpl; [reflexivity | now rewrite IH]. Qed.

Lemma substring_app_l (s t : string) :
  substring 0 (String.length s) (s ++ t) = s.
Proof.
  induction s as [|c s IH]; simpl.
  - destruct t; reflexivity.
  - now rewrite IH.
Qed.

Lemma HasSuffix_app (s suffix : string) : HasSuffix (s ++ suffix) suffix = true.
Proof.
  induction s as [|c s IH]; simpl.
  - destruct suffix; simpl.
    + reflexivity.
    + rewrite Ascii.eqb_refl, String.eqb_refl. reflexivity.
  - rewrite IH. apply orb_true_r.
Qed.

Lemma TrimSuffix_app (s suffix : string) : TrimSuffix (s ++ suffix) suffix = s.
Proof.
  unfold TrimSuffix. rewrite HasSuffix_app, length_append.
  replace (String.length s + String.length suffix - String.length suffix)%nat
    with (String.length s) by lia.
  apply substring_app_l.
Qed.

Lemma TrimPrefix_NL (s : string) : TrimPrefix (NL ++ s) NL = s.
Proof.
  unfold TrimPrefix, NL. simpl.
  destruct (ascii_dec nl nl) as [_|n]; [|now elim n].
  rewrite Nat.sub_0_r.
  replace (prefix "" s) with true by (destruct s; reflexivity).
  apply substring_all.
Qed.

(** ** Ingestion touches the line store only *)

Section Frame.

Context {D : Deps}.

Lemma same_outside_store_refl (m : Model) : same_outside_store m m.
Proof. unfold same_outside_store. repeat split. Qed.

Lemma same_outside_store_trans (m1 m2 m3 : Model) :
  same_outside_store m1 m2 -> same_outside_store m2 m3 ->
  same_outside_store m1 m3.
Proof.
  unfold same_outside_store. intros H12 H23.
  decompose [and] H12. decompose [and] H23.
  repeat split; congruence.
Qed.

Ltac same_fields :=
  intros; unfold same_outside_store; simpl; repeat split; reflexivity.

Lemma store_only_ret {A : Type} (a : A) : store_only (ret a).
Proof. intros m. apply same_outside_store_refl. Qed.

Lemma store_only_panic {A : Type} (e : error) : store_only (@panic Model A e).
Proof. intros m. apply same_outside_store_refl. Qed.

Lemma store_only_get : store_only (@get Model).
Proof. intros m. apply same_outside_store_refl. Qed.

Lemma store_only_reads {A : Type} (f : Model -> outcome A) :
  store_only (reads f).
Proof. intros m. apply same_outside_store_refl. Qed.

Lemma store_only_modify (f : Model -> Model) :
  (forall m, same_outside_store m (f m)) -> store_only (modify f).
Proof. intros H m. apply H. Qed.

Lemma store_only_bind {A B : Type} (c : M Model A) (k : A -> M Model B) :
  store_only c -> (forall a, store_only (k a)) -> store_only (bind c k).
Proof.
  intros Hc Hk m. unfold exec, bind.
  specialize (Hc m). unfold exec in Hc.
  destruct (c m) as [[a|e] m1]; simpl in *.
  - eapply same_outside_store_trans; [exact Hc|]. apply Hk.
  - exact Hc.
Qed.

Lemma store_only_for_each {A : Type} (xs : list A) (body : A -> M Model unit) :
  (forall x, store_only (body x)) -> store_only (for_each xs body).
Proof.
  intros Hb. induction xs as [|x xs IH]; simpl.
  - apply store_only_ret.
  - apply store_only_bind; [apply Hb | intros _; exact IH].
Qed.

(** One step through a computation built from the operations above. *)
Ltac store_step :=
  first
    [ apply store_only_ret
    | apply store_only_panic
    | apply store_only_get
    | apply store_only_reads
    | apply store_only_modify; same_fields
    | apply store_only_for_each; intros
    | apply store_only_bind; [|intros]
    | match goal with
      | |- store_only (match ?x with _ => _ end) => destruct x
      end ].

(** C10. For every model and every content, [handleWrite] (hence [Write])
    leaves every field other than [lines], [filtered] and [buffer] as it
    was: the scroll position, the first displayed line, the compiled query,
    the text input, the focus, the wrap mode, the status bar flag, the window
    dimensions, the previous query and the held key.  This also holds of the
    model a panic of the scanner leaves behind. *)
Theorem handleWrite_frame (content : string) (m : Model) :
  same_outside_store m (exec (handleWrite content) m) /\
  same_outside_store m (exec (Write content) m).
Proof.
  assert (H : store_only (handleWrite content)).
  { unfold handleWrite. repeat store_step. }
  split; apply H.
Qed.

End Frame.

(** ** Degenerate viewports *)

(** C9. For every model, [Render] with [width <= 0] or [height <= 0]
    returns the empty string; it does not panic and leaves the model as it
    was. *)
Theorem Render_degenerate {D : Deps} (styles : Styles) (width height : Z)
    (m : Model) :
  width <= 0 \/ height <= 0 ->
  Render styles width height m = (Ok "", m).
Proof.
  intros H. unfold Render.
  assert (Hb : (width <=? 0) || (height <=? 0) = true).
  { apply orb_true_iff. destruct H; [left | right]; now apply Z.leb_le. }
  rewrite Hb. reflexivity.
Qed.

Lemma Render_degenerate_witness :
  Render Plain.styles 80 0 (exec (Write ("a" ++ NL ++ "b")) Plain.start) =
  (Ok "", exec (Write ("a" ++ NL ++ "b")) Plain.start).
Proof. apply Render_degenerate. right. lia. Defined.

(** ** Scrolling stays inside the view *)

Section Scroll.

Context {D : Deps}.

Lemma clamp_range (upper val : Z) :
  0 <= clamp 0 upper val <= Z.max 0 upper.
Proof. unfold clamp. lia. Qed.


Lemma ScrollBy_lineView (delta : Z) (m : Model) :
  lineView (ScrollBy delta m) = lineView m.
Proof. unfold ScrollBy. destruct (scrollPosition m <? 0); reflexivity. Qed.

Lemma ScrollTo_lineView (line : Z) (m : Model) :
  lineView (ScrollTo line m) = lineView m.
Proof. unfold ScrollTo. destruct (line <? 0); reflexivity. Qed.

Lemma ScrollBy_position (delta : Z) (m : Model) :
  0 <= scrollPosition (ScrollBy delta m) <= Z.max 0 (len (lineView m) - 1).
Proof.
  unfold ScrollBy.
  destruct (scrollPosition m <? 0); simpl; apply clamp_range.
Qed.

(** C4, as the code has it.  [ScrollBy] with any delta and [ScrollTo] with
    any non-negative line leave the view as it was and the model pinned at an
    index with [0 <= index <= max 0 (len view - 1)]: below [len view] when the
    view has a line, and [0] when the view is empty. *)
Theorem scroll_position_range (delta line : Z) (m : Model) :
  0 <= line ->
  let n := len (lineView m) in
  (lineView (ScrollBy delta m) = lineView m /\
   0 <= scrollPosition (ScrollBy delta m) <= Z.max 0 (n - 1)) /\
  (lineView (ScrollTo line m) = lineView m /\
   0 <= scrollPosition (ScrollTo line m) <= Z.max 0 (n - 1)).
Proof.
  intros Hline n. split; split.
  - apply ScrollBy_lineView.
  - apply ScrollBy_position.
  - apply ScrollTo_lineView.
  - unfold ScrollTo.
    assert (Hb : (line <? 0) = false) by (apply Z.ltb_ge; lia).
    rewrite Hb. simpl. apply clamp_range.
Qed.

End Scroll.

Lemma scroll_position_range_witness :
  let m := exec (Write ("a" ++ NL ++ "b" ++ NL ++ "c" ++ NL)) Plain.start in
  (lineView (ScrollBy (-1) m) = lineView m /\
   0 <= scrollPosition (ScrollBy (-1) m) <= Z.max 0 (len (lineView m) - 1)) /\
  (lineView (ScrollTo 7 m) = lineView m /\
   0 <= scrollPosition (ScrollTo 7 m) <= Z.max 0 (len (lineView m) - 1)).
Proof. intros m. apply (scroll_position_range (-1) 7 m). lia. Defined.

(** C4 as stated fails on the empty view: after [ScrollBy 1] (and after
    [ScrollTo 0]) on a new model the view has no line and the model is pinned
    at index 0, which is not below the length of the view. *)
Lemma scroll_empty_view_counterexample :
  let m := Plain.start in
  len (lineView (ScrollBy 1 m)) = 0 /\
  scrollPosition (ScrollBy 1 m) = 0 /\
  (scrollPosition (ScrollBy 1 m) <? len (lineView (ScrollBy 1 m))) = false /\
  len (lineView (ScrollTo 0 m)) = 0 /\
  scrollPosition (ScrollTo 0 m) = 0 /\
  (scrollPosition (ScrollTo 0 m) <? len (lineView (ScrollTo 0 m))) = false.
Proof. vm_compute. repeat split. Qed.

(** ** Search never panics *)

Section SearchTotal.

Context {D : Deps}.

Lemma str_slice_ok (s : string) (lo hi : Z) :
  0 <= lo -> lo <= hi -> hi <= slen s ->
  str_slice s lo hi = Ok (substring (Z.to_nat lo) (Z.to_nat (hi - lo)) s).
Proof.
  intros H1 H2 H3. unfold str_slice.
  assert (Hb : (0 <=? lo) && (lo <=? hi) && (hi <=? slen s) = true).
  { rewrite !andb_true_iff. repeat split; now apply Z.leb_le. }
  rewrite Hb. reflexivity.
Qed.

(** Over spans that keep the promise of [FindAllStringIndex] the loop of
    [searchLine] slices in range, and it ends with [start] inside the line. *)
Lemma highlight_spans_ok (line : string) (spans : list (Z * Z)) :
  forall (result : option string) (start : Z),
    0 <= start ->
    spans_ok (slen line) start spans ->
    start <= slen line ->
    exists result' start',
      highlight_spans line spans result start = Ok (result', start') /\
      0 <= start' <= slen line /\
      (spans <> [] -> result' <> None) /\
      (spans = [] -> result' = result).
Proof.
  induction spans as [|[m0 m1] rest IH]; intros result start H0 Hok Hlen.
  - exists result, start. simpl. repeat split; try lia; congruence.
  - cbn [spans_ok] in Hok. destruct Hok as (Ha & Hb & Hc & Hrest).
    cbn [highlight_spans].
    rewrite (str_slice_ok line m0 m1) by lia.
    destruct (start <? m0) eqn:Hlt.
    + rewrite (str_slice_ok line start m0) by lia. cbn [bindR].
      destruct (IH (Some (onto (Some (onto result
                  (substring (Z.to_nat start) (Z.to_nat (m0 - start)) line)))
                  (highlight_Render
                     (substring (Z.to_nat m0) (Z.to_nat (m1 - m0)) line))))
                  m1) as (r' & s' & Heq & Hrange & Hne & Hnil); try lia; auto.
      exists r', s'. repeat split; try lia; try exact Heq; try discriminate.
      intros _. destruct rest as [|sp rest'].
      * rewrite Hnil by reflexivity. discriminate.
      * apply Hne. discriminate.
    + cbn [bindR].
      destruct (IH (Some (onto result
                  (highlight_Render
                     (substring (Z.to_nat m0) (Z.to_nat (m1 - m0)) line))))
                  m1) as (r' & s' & Heq & Hrange & Hne & Hnil); try lia; auto.
      exists r', s'. repeat split; try lia; try exact Heq; try discriminate.
      intros _. destruct rest as [|sp rest'].
      * rewrite Hnil by reflexivity. discriminate.
      * apply Hne. discriminate.
Qed.

Lemma highlightLine_ok (re : Regexp) (line : string) :
  exists found, highlightLine re line = Ok found.
Proof.
  unfold highlightLine.
  destruct (highlight_spans_ok line (FindAllStringIndex re line) None 0)
    as (r' & s' & Heq & Hrange & _ & _).
  - lia.
  - apply FindAllStringIndex_spans.
  - unfold slen. lia.
  - rewrite Heq. cbn [bindR]. destruct r' as [r|].
    + unfold str_slice_from. rewrite str_slice_ok by lia.
      cbn [bindR]. eexists. reflexivity.
    + eexists. reflexivity.
Qed.

Lemma at_index_ok {A : Type} (l : list A) (i : nat) :
  (i < List.length l)%nat -> exists a, at_index l (Z.of_nat i) = Ok a.
Proof.
  intros Hi. unfold at_index.
  assert (Hb : (Z.of_nat i <? 0) = false) by (apply Z.ltb_ge; lia).
  rewrite Hb, Nat2Z.id.
  destruct (nth_error l i) as [a|] eqn:Hn.
  - exists a. reflexivity.
  - apply nth_error_None in Hn. lia.
Qed.

Lemma searchLine_ok (m : Model) (i : nat) :
  (i < List.length (lines m))%nat ->
  exists found, searchLine m (Z.of_nat i) = Ok found.
Proof.
  intros Hi. unfold searchLine.
  destruct (queryRe m) as [re|]; [|eexists; reflexivity].
  assert (Hb : (Z.of_nat i <? 0) = false) by (apply Z.ltb_ge; lia).
  rewrite Hb.
  destruct (at_index_ok (lines m) i Hi) as (line & Hline).
  rewrite Hline. cbn [bindR]. apply highlightLine_ok.
Qed.

Lemma search_range_ok (m : Model) (idxs : list nat) :
  Forall (fun i => (i < List.length (lines m))%nat) idxs ->
  forall results, exists found, search_range m idxs results = Ok found.
Proof.
  induction 1 as [|i idxs Hi _ IH]; intros results.
  - exists results. reflexivity.
  - cbn [search_range].
    destruct (searchLine_ok m i Hi) as (thing & Hthing).
    rewrite Hthing. cbn [bindR]. destruct thing; apply IH.
Qed.

(** [search] returns: with the spans the library promises it never slices
    out of range. *)
Lemma search_ok (m : Model) : exists found, search m = Ok found.
Proof.
  unfold search. destruct (queryRe m); [|eexists; reflexivity].
  apply search_range_ok.
  apply Forall_forall. intros i Hi. apply in_seq in Hi. cbv beta. lia.
Qed.

(** [search] reads the compiled query and the lines, nothing else. *)
Lemma search_ext (m m' : Model) :
  queryRe m' = queryRe m -> lines m' = lines m -> search m' = search m.
Proof.
  intros Hq Hl.
  assert (Hs : forall i, searchLine m' i = searchLine m i).
  { intros i. unfold searchLine. now rewrite Hq, Hl. }
  unfold search. rewrite Hq, Hl.
  destruct (queryRe m); [|reflexivity].
  generalize (seq 0 (List.length (lines m))) as idxs.
  generalize (@nil string) as results.
  intros results idxs. revert results.
  induction idxs as [|i idxs IH]; intros results; [reflexivity|].
  cbn [search_range]. rewrite Hs.
  destruct (searchLine m (Z.of_nat i)) as [[hit|]|e]; cbn [bindR];
    [apply IH | apply IH | reflexivity].
Qed.

End SearchTotal.

(** ** A pattern that does not compile *)

Section InvalidPattern.

Context {D : Deps}.

Lemma handleSearch_invalid (m : Model) :
  regexp_Compile (input_Value (input m)) = None ->
  exists found,
    search m = Ok found /\ handleSearch m = (Ok tt, set_filtered found m).
Proof.
  intros Hc.
  destruct (search_ok m) as (found & Hfound).
  exists found. split; [exact Hfound|].
  unfold handleSearch, bind, get.
  destruct (String.eqb_spec (input_Value (input m)) "") as [He|_].
  - rewrite He in Hc. now apply regexp_Compile_empty in Hc.
  - rewrite Hc. unfold ret, reads, modify. rewrite Hfound. reflexivity.
Qed.

Lemma filter_kept_set_filtered (m : Model) (found : list string) :
  search m = Ok found -> filter_kept m (set_filtered found m).
Proof.
  intros Hs. unfold filter_kept, lineView. simpl.
  split; [reflexivity|]. split; [reflexivity|]. split; [exact Hs|reflexivity].
Qed.

(** C7, as the code has it.  [handleSearch] compiles the text the input
    holds, and [SetQuery] the text the input holds once the query is set,
    not the string it is given.  When that text does not compile, [SetQuery]
    returns without a panic, the compiled query is the one from before, and
    the filtered view and the line view are those the previous query selects
    from the lines; [handleSearch] does the same on every model whose input
    holds a text that does not compile. *)
Theorem SetQuery_invalid_pattern (m : Model) (query : string) :
  (regexp_Compile (input_Value (input_SetValue query (input m))) = None ->
   eval (SetQuery query) m = Ok tt /\
   filter_kept m (exec (SetQuery query) m)) /\
  (regexp_Compile (input_Value (input m)) = None ->
   eval handleSearch m = Ok tt /\
   filter_kept m (exec handleSearch m)).
Proof.
  split; intros Hc.
  - set (m1 := set_input (input_SetValue query (input m)) m).
    destruct (handleSearch_invalid m1 Hc) as (found & Hfound & Hrun).
    assert (Hset : SetQuery query m = handleSearch m1) by reflexivity.
    assert (Hm : search m = Ok found).
    { rewrite <- Hfound. symmetry. apply search_ext; reflexivity. }
    unfold eval, exec. rewrite Hset, Hrun. cbn [fst snd].
    split; [reflexivity|].
    destruct (filter_kept_set_filtered m1 found Hfound) as (Hq & Hl & _ & Hv).
    unfold filter_kept. split; [exact Hq|]. split; [exact Hl|].
    split; [|exact Hv]. rewrite Hm. reflexivity.
  - destruct (handleSearch_invalid m Hc) as (found & Hfound & Hrun).
    unfold eval, exec. rewrite Hrun. cbn [fst snd].
    split; [reflexivity|]. apply filter_kept_set_filtered. exact Hfound.
Qed.

End InvalidPattern.

Lemma SetQuery_invalid_pattern_witness :
  let m := exec (Write ("a" ++ NL ++ "b" ++ NL) ;; SetQuery "b") Plain.start in
  let m1 := set_input (input_SetValue "(" (input m)) m in
  (eval (SetQuery "(") m = Ok tt /\
   filter_kept m (exec (SetQuery "(") m)) /\
  (eval handleSearch m1 = Ok tt /\
   filter_kept m1 (exec handleSearch m1)).
Proof.
  intros m m1. split.
  - apply (proj1 (SetQuery_invalid_pattern m "(")). reflexivity.
  - apply (proj2 (SetQuery_invalid_pattern m1 "")). reflexivity.
Defined.

(** A text input that cleans what it is given: it drops the byte [0xff],
    which no text encoded in UTF-8 holds.  The regexp of this instance, like
    Go's, compiles no pattern that holds such a byte; apart from that the
    instance is the plain one. *)
Module Cleaning.

Definition stray : ascii := "255"%char.

Fixpoint clean (s : string) : string :=
  match s with
  | EmptyString => EmptyString
  | String c s' =>
      if Ascii.eqb c stray then clean s' else String c (clean s')
  end.

Definition Compile (p : string) : option string :=
  if contains_byte p stray then None else Plain.Compile p.

Lemma Compile_empty_text : Compile "" <> None.
Proof. intro H. vm_compute in H. discriminate H. Qed.

#[export] Instance deps : Deps := {|
  Input := string;
  input_Value := fun v => v;
  input_SetValue := fun q _ => clean q;
  input_View := fun v => "/" ++ v;
  Regexp := string;
  regexp_Compile := Compile;
  regexp_Compile_empty := Compile_empty_text;
  FindAllStringIndex := Plain.FindAll;
  FindAllStringIndex_spans := Plain.FindAll_spans;
  highlight_Render := Plain.mark;
  wrap_String := Plain.wrap_text;
  truncate_String := Plain.truncate_text;
  Style := unit;
  style_Render := fun _ _ _ s => s
|}.

Definition start : @Model deps := @New deps "".

End Cleaning.

(** C7 as stated fails.  The query [a] followed by the byte [0xff] does not
    compile, yet setting it over a text input that cleans what it is given
    replaces the compiled query [b] by [a], and the filtered view with it:
    what [handleSearch] compiles is the text the input holds, [a]. *)
Lemma SetQuery_cleaned_counterexample :
  let query := "a" ++ String Cleaning.stray "" in
  let m := exec (@Write Cleaning.deps ("a" ++ NL ++ "b" ++ NL) ;;
                 @SetQuery Cleaning.deps "b") Cleaning.start in
  let m' := exec (@SetQuery Cleaning.deps query) m in
  @regexp_Compile Cleaning.deps query = None /\
  eval (@SetQuery Cleaning.deps query) m = Ok tt /\
  (queryRe m = Some "b" /\ filtered m = ["[b]"]) /\
  (queryRe m' = Some "a" /\ filtered m' = ["[a]"]).
Proof. vm_compute. repeat split. Qed.

(** ** Clipping a wrapped line *)

Lemma Split_cons (s : string) (sep : ascii) :
  exists h t, Split s sep = h :: t.
Proof.
  destruct s as [|c s]; simpl.
  - eexists _, _. reflexivity.
  - destruct (Ascii.eqb c sep).
    + eexists _, _. reflexivity.
    + destruct (Split s sep); eexists _, _; reflexivity.
Qed.

(** [strings.Count(s, sep) + 1] is the number of rows [strings.Split] gives. *)
Lemma Count_Split (s : string) (sep : ascii) :
  Count s sep + 1 = len (Split s sep).
Proof.
  unfold len. induction s as [|c s IH]; simpl; [reflexivity|].
  destruct (Ascii.eqb c sep).
  - simpl List.length. lia.
  - destruct (Split_cons s sep) as (h & t & Hs). rewrite Hs in *.
    simpl List.length in *. lia.
Qed.

Section Clip.

Context {D : Deps}.

(** C8. In soft-wrap mode, when the reflow of [line] at [width] has more
    rows than the budget [maxLines >= 0], [wrapLine] returns [maxLines] rows
    and reports the height [maxLines]: the last [maxLines] rows of the reflow
    when the model is tailing ([scrollPosition < 0]), the first [maxLines]
    rows when it is pinned.  [len rows < 2 ^ 63] holds of every Go slice. *)
Theorem wrapLine_clip (m : Model) (line : string) (maxLines width : Z) :
  shouldHardwrap m = false ->
  let rows := Split (wrap_String line width) nl in
  0 <= maxLines < len rows ->
  len rows < 2 ^ 63 ->
  exists kept dropped : list string,
    wrapLine m line maxLines width = Ok (Join kept NL, maxLines) /\
    len kept = maxLines /\
    rows = if scrollPosition m <? 0 then (dropped ++ kept)%list
           else (kept ++ dropped)%list.
Proof.
  intros Hsoft rows Hm Hmax.
  unfold wrapLine. rewrite Hsoft.
  rewrite Count_Split. fold rows.
  assert (Hlt : (maxLines <? len rows) = true) by (apply Z.ltb_lt; lia).
  rewrite Hlt.
  destruct (scrollPosition m <? 0).
  - exists (skipn (Z.to_nat (len rows - maxLines)) rows),
           (firstn (Z.to_nat (len rows - maxLines)) rows).
    unfold lastNLines. fold rows.
    unfold sub. rewrite wrap_small by lia.
    rewrite Z.max_r by lia.
    unfold slice_from.
    assert (Hb : (0 <=? len rows - maxLines) &&
                 (len rows - maxLines <=? len rows) = true).
    { rewrite andb_true_iff. split; apply Z.leb_le; lia. }
    rewrite Hb. cbn [bindR]. split; [reflexivity|]. split.
    + unfold len in *. rewrite length_skipn. lia.
    + symmetry. apply firstn_skipn.
  - exists (firstn (Z.to_nat maxLines) rows), (skipn (Z.to_nat maxLines) rows).
    unfold firstNLines. fold rows.
    rewrite Z.min_l by lia.
    unfold slice_to.
    assert (Hb : (0 <=? maxLines) && (maxLines <=? len rows) = true).
    { rewrite andb_true_iff. split; apply Z.leb_le; lia. }
    rewrite Hb. cbn [bindR]. split; [reflexivity|]. split.
    + unfold len in *. rewrite length_firstn. lia.
    + symmetry. apply firstn_skipn.
Qed.

End Clip.

Lemma wrapLine_clip_witness :
  let rows := Split (@wrap_String Plain.deps "abcdef" 2) nl in
  let pinned := WithStartAtHead Plain.start in
  (exists kept dropped : list string,
     wrapLine Plain.start "abcdef" 2 2 = Ok (Join kept NL, 2) /\
     len kept = 2 /\
     rows = if scrollPosition Plain.start <? 0 then (dropped ++ kept)%list
            else (kept ++ dropped)%list) /\
  (exists kept dropped : list string,
     wrapLine pinned "abcdef" 2 2 = Ok (Join kept NL, 2) /\
     len kept = 2 /\
     rows = if scrollPosition pinned <? 0 then (dropped ++ kept)%list
            else (kept ++ dropped)%list).
Proof.
  split.
  - apply (wrapLine_clip Plain.start "abcdef" 2 2).
    + reflexivity.
    + vm_compute. split; [discriminate | reflexivity].
    + vm_compute. reflexivity.
  - apply (wrapLine_clip (WithStartAtHead Plain.start) "abcdef" 2 2).
    + reflexivity.
    + vm_compute. split; [discriminate | reflexivity].
    + vm_compute. reflexivity.
Defined.

(** ** Changing the query and the pinned position *)

Section QueryToggle.

Context {D : Deps}.





End QueryToggle.



(** ** Runs of the model on plain text *)

(** C1 fails on the code.  A carriage return that ends a chunk is dropped by
    the scanner, one inside a chunk is kept: written as ["a\r"] then ["b"] the
    pending buffer is ["ab"], written at once as ["a\rb"] it is ["a\rb"]. *)
Theorem Write_chunks_carriage_return :
  let CR := String cr "" in
  let split := exec (Write ("a" ++ CR) ;; Write "b") Plain.start in
  let whole := exec (Write ("a" ++ CR ++ "b")) Plain.start in
  (lines split = [] /\ buffer split = "ab") /\
  (lines whole = [] /\ buffer whole = "a" ++ CR ++ "b").
Proof. vm_compute. repeat split. Qed.

(** C2 fails on the code.  With the query [b] compiled, writing ["a\nb\n"]
    finishes the lines [a] and [b]; [b] matches (a full search finds it, and
    written as the first line of a chunk it is appended), yet the filtered
    view stays empty. *)
Theorem Write_skips_later_matches :
  let m := exec (SetQuery "b") Plain.start in
  let m' := exec (Write ("a" ++ NL ++ "b" ++ NL)) m in
  filtered m = [] /\
  lines m' = ["a"; "b"] /\
  filtered m' = [] /\
  search m' = Ok ["[b]"] /\
  filtered (exec (Write ("b" ++ NL)) m) = ["[b]"].
Proof. vm_compute. repeat split. Qed.

(** C3 fails on the code.  Status bar enabled, three lines, a frame of
    height 4: the log pane has 3 rows and [Render] asks [RenderLog] for 3.
    Tailing, [RenderLog] fills the 3 rows; pinned at line 0 it stops after 2,
    and the frame shows two lines above the status bar. *)
Theorem RenderLog_pinned_one_row_short :
  let tailing := exec (Write ("a" ++ NL ++ "b" ++ NL ++ "c" ++ NL)) Plain.start in
  let pinned := ScrollTo 0 tailing in
  eval (RenderLog 10 3) tailing = Ok ("a" ++ NL ++ "b" ++ NL ++ "c") /\
  eval (RenderLog 10 3) pinned = Ok ("a" ++ NL ++ "b") /\
  eval (Render Plain.styles 10 4) pinned
  = Ok ("a" ++ NL ++ "b" ++ NL ++ "1 of 3" ++ String "009" "").
Proof. vm_compute. repeat split. Qed.

(** C5 fails on the code.  Three lines, tailing, two rows: the render paints
    the lines of index 1 and 2, and records 0 as the first displayed line;
    scrolling by 0 then pins the view at line 0, which was not on screen. *)
Theorem RenderLog_tailing_first_displayed :
  let m := exec (Write ("a" ++ NL ++ "b" ++ NL ++ "c" ++ NL)) Plain.start in
  let m' := exec (RenderLog 10 2) m in
  eval (RenderLog 10 2) m = Ok ("b" ++ NL ++ "c") /\
  tailing_painted m 10 2 = [2; 1] /\
  at_index (lineView m) 1 = Ok "b" /\
  firstDisplayedLine m' = 0 /\
  scrollPosition (ScrollBy 0 m') = 0.
Proof. vm_compute. repeat split. Qed.

(** ** What ingestion does to the line store *)

Section Store.

Context {D : Deps}.

Lemma searchLine_last_ok (m : Model) (l : list string) (x : string) :
  lines m = (l ++ [x])%list ->
  exists found, searchLine m (len (lines m) - 1) = Ok found.
Proof.
  intros Hl.
  replace (len (lines m) - 1) with (Z.of_nat (List.length l)).
  - apply searchLine_ok. rewrite Hl, length_app. simpl. lia.
  - rewrite Hl. unfold len. rewrite length_app. simpl. lia.
Qed.

Lemma write_rest_store (text : string) (m : Model) :
  exists m',
    write_rest text m = (Ok tt, m') /\
    lines m' = (lines m ++ [text])%list /\
    buffer m' = buffer m /\
    (HasSuffix text NL = false -> filtered m' = filtered m).
Proof.
  unfold write_rest, bind, modify, reads, ret.
  destruct (searchLine_last_ok (set_lines (lines m ++ [text]) m) (lines m) text)
    as (found & Hfound); [reflexivity|].
  rewrite Hfound.
  destruct found as [r|].
  - destruct (HasSuffix text NL); eexists; repeat split; congruence.
  - eexists; repeat split.
Qed.

Lemma write_loop_store (rest : list string) :
  forall m, exists m',
    for_each rest write_rest m = (Ok tt, m') /\
    lines m' = (lines m ++ rest)%list /\
    buffer m' = buffer m /\
    (Forall (fun t => HasSuffix t NL = false) rest ->
     filtered m' = filtered m).
Proof.
  induction rest as [|t rest IH]; intros m.
  - exists m. simpl. rewrite app_nil_r. repeat split.
  - destruct (write_rest_store t m) as (m1 & Hrun1 & Hl1 & Hb1 & Hf1).
    destruct (IH m1) as (m2 & Hrun2 & Hl2 & Hb2 & Hf2).
    exists m2. cbn [for_each]. unfold bind at 1. rewrite Hrun1.
    split; [exact Hrun2|].
    split; [rewrite Hl2, Hl1, <- app_assoc; reflexivity|].
    split; [congruence|].
    intros Hall. inversion Hall; subst.
    rewrite Hf2, Hf1; auto.
Qed.

(** A run of [handleWrite] whose scanner delivers a token: the tokens are
    appended, the first one onto the buffer, and at most the match of the
    first line is added to the filtered view; then the run panics when the
    scanner failed, and otherwise the last line goes back to the buffer when
    the content does not end in a newline. *)
Lemma handleWrite_run (content : string) (m : Model) (text : string)
    (rest : list string) :
  tokens (NewScanner content) = text :: rest ->
  exists m3 found,
    handleWrite content m =
      (if failed (NewScanner content) then (Panic ErrTooLong, m3)
       else (Ok tt, if HasSuffix content NL then m3 else unscan_last m3)) /\
    lines m3 = (lines m ++ (buffer m ++ text)%string :: rest)%list /\
    buffer m3 = "" /\
    searchLine
      (set_buffer "" (set_lines (lines m ++ [(buffer m ++ text)%string]) m))
      (len (lines m)) = Ok found /\
    (Forall (fun t => HasSuffix t NL = false) rest ->
     filtered m3 = match found with
                   | Some r => (filtered m ++ [r])%list
                   | None => filtered m
                   end).
Proof.
  intros Htok.
  set (m1 := set_buffer "" (set_lines (lines m ++ [(buffer m ++ text)%string]) m)).
  destruct (searchLine_last_ok m1 (lines m) (buffer m ++ text))
    as (found & Hfound); [reflexivity|].
  set (m2 := match found with
             | Some r => set_filtered (filtered m1 ++ [r]) m1
             | None => m1
             end).
  assert (Hl2 : lines m2 = (lines m ++ [(buffer m ++ text)%string])%list).
  { unfold m2. destruct found; reflexivity. }
  assert (Hb2 : buffer m2 = "").
  { unfold m2. destruct found; reflexivity. }
  destruct (write_loop_store rest m2) as (m3 & Hrun3 & Hl3 & Hb3 & Hf3).
  assert (Hall : lines m3 = (lines m ++ (buffer m ++ text)%string :: rest)%list).
  { rewrite Hl3, Hl2, <- app_assoc. reflexivity. }
  assert (Hpos : (0 <? len (lines m3)) = true).
  { apply Z.ltb_lt. rewrite Hall. unfold len. rewrite length_app. simpl. lia. }
  exists m3, found.
  split; [|split; [exact Hall|split; [congruence|split]]].
  - unfold handleWrite. rewrite Htok. fold write_rest.
    unfold bind, modify, reads, ret, get, panic. fold m1.
    rewrite Hfound.
    destruct found as [r|]; unfold m2 in Hrun3; cbv beta iota;
      rewrite Hrun3; (destruct (failed (NewScanner content)); [reflexivity|]);
      rewrite Hpos; cbn [andb];
      destruct (HasSuffix content NL); reflexivity.
  - rewrite <- Hfound. f_equal. unfold m1, len. simpl.
    rewrite length_app. simpl. lia.
  - intros Hall'. rewrite (Hf3 Hall'). unfold m2.
    destruct found; reflexivity.
Qed.

End Store.

(** ** What the scanner delivers *)

Lemma Split_no_sep (s : string) (sep : ascii) :
  Forall (fun seg => contains_byte seg sep = false) (Split s sep).
Proof.
  induction s as [|c s IH]; simpl.
  - constructor; [reflexivity | constructor].
  - destruct (Ascii.eqb c sep) eqn:Hc.
    + constructor; [reflexivity | exact IH].
    + destruct (Split s sep) as [|h t].
      * constructor; [simpl; now rewrite Hc | constructor].
      * inversion IH; subst. constructor; [|assumption].
        simpl. rewrite Hc. assumption.
Qed.

Lemma Split_keeps_absent (s : string) (sep c : ascii) :
  contains_byte s c = false ->
  Forall (fun seg => contains_byte seg c = false) (Split s sep).
Proof.
  induction s as [|d s IH]; simpl; intros H.
  - constructor; [reflexivity | constructor].
  - apply orb_false_iff in H. destruct H as [Hd Hs]. specialize (IH Hs).
    destruct (Ascii.eqb d sep).
    + constructor; [reflexivity | exact IH].
    + destruct (Split s sep) as [|h t].
      * constructor; [simpl; now rewrite Hd | constructor].
      * inversion IH; subst. constructor; [|assumption].
        simpl. rewrite Hd. assumption.
Qed.

Lemma HasSuffix_contains (s : string) (c : ascii) :
  HasSuffix s (String c "") = true -> contains_byte s c = true.
Proof.
  induction s as [|d s IH]; simpl; intros H.
  - discriminate H.
  - apply orb_true_iff in H. destruct H as [H|H].
    + destruct (Ascii.eqb d c); [reflexivity | discriminate H].
    + rewrite (IH H). apply orb_true_r.
Qed.

Lemma dropCR_contains (s : string) (c : ascii) :
  contains_byte s c = false -> contains_byte (dropCR s) c = false.
Proof.
  induction s as [|d s IH]; intros H; [reflexivity|].
  simpl in H. apply orb_false_iff in H. destruct H as [Hd Hs].
  destruct s as [|e s'].
  - simpl. destruct (Ascii.eqb d cr); simpl; [reflexivity | now rewrite Hd].
  - change (dropCR (String d (String e s')))
      with (String d (dropCR (String e s'))).
    simpl contains_byte at 1. rewrite Hd. apply IH. exact Hs.
Qed.

Lemma dropCR_no_cr (s : string) : contains_byte s cr = false -> dropCR s = s.
Proof.
  induction s as [|d s IH]; intros H; [reflexivity|].
  simpl in H. apply orb_false_iff in H. destruct H as [Hd Hs].
  destruct s as [|e s'].
  - simpl. now rewrite Hd.
  - change (dropCR (String d (String e s')))
      with (String d (dropCR (String e s'))).
    now rewrite (IH Hs).
Qed.

Lemma Forall_removelast {A : Type} (P : A -> Prop) (l : list A) :
  Forall P l -> Forall P (removelast l).
Proof.
  induction 1 as [|x l Hx Hl IH]; simpl; [constructor|].
  destruct l; [constructor | constructor; assumption].
Qed.

Lemma scan_segments_Forall (P : string -> Prop) (content : string) :
  Forall P (Split content nl) -> Forall P (scan_segments content).
Proof.
  intros H. unfold scan_segments.
  destruct (last (Split content nl) "" =? "")%string;
    [now apply Forall_removelast | exact H].
Qed.

Lemma deliver_no_newline (segs : list string) :
  Forall (fun seg => contains_byte seg nl = false) segs ->
  Forall (fun t => HasSuffix t NL = false) (fst (deliver segs)).
Proof.
  induction 1 as [|seg segs Hseg _ IH]; simpl; [constructor|].
  destruct (MaxScanTokenSize <=? slen seg); [constructor|].
  destruct (deliver segs) as [ts err]. simpl in *.
  constructor; [|exact IH].
  destruct (HasSuffix (dropCR seg) NL) eqn:Hs; [|reflexivity].
  apply HasSuffix_contains in Hs.
  rewrite (dropCR_contains seg nl Hseg) in Hs. discriminate Hs.
Qed.

(** No token of the scanner ends in a newline. *)
Lemma tokens_no_newline (content : string) :
  Forall (fun t => HasSuffix t NL = false) (tokens (NewScanner content)).
Proof.
  unfold NewScanner.
  pose proof (deliver_no_newline (scan_segments content)
                (scan_segments_Forall _ content (Split_no_sep content nl))) as H.
  destruct (deliver (scan_segments content)) as [ts err]. exact H.
Qed.

Section FilteredOnIngest.

Context {D : Deps}.

(** X1: what [handleWrite] does to the filtered view, for every model and
    every content: nothing when the scanner delivers no token, and otherwise it
    appends the match of the first line (the old buffer followed by the first
    token) when there is one.  No later line is ever appended. *)
Lemma handleWrite_filtered (content : string) (m : Model) :
  match tokens (NewScanner content) with
  | [] => filtered (exec (handleWrite content) m) = filtered m
  | text :: _ =>
      exists found,
        searchLine
          (set_buffer ""
             (set_lines (lines m ++ [(buffer m ++ text)%string]) m))
          (len (lines m)) = Ok found /\
        filtered (exec (handleWrite content) m)
        = match found with
          | Some r => (filtered m ++ [r])%list
          | None => filtered m
          end
  end.
Proof.
  destruct (tokens (NewScanner content)) as [|text rest] eqn:Htok.
  - unfold exec, handleWrite. rewrite Htok. reflexivity.
  - destruct (handleWrite_run content m text rest Htok)
      as (m3 & found & Hrun & _ & _ & Hfound & Hfilt).
    exists found. split; [exact Hfound|].
    assert (Hrest : Forall (fun t => HasSuffix t NL = false) rest).
    { pose proof (tokens_no_newline content) as H. rewrite Htok in H.
      now inversion H. }
    specialize (Hfilt Hrest).
    unfold exec. rewrite Hrun.
    destruct (failed (NewScanner content)); cbn [snd]; [exact Hfilt|].
    destruct (HasSuffix content NL); exact Hfilt.
Qed.

End FilteredOnIngest.

(** ** Chunking, for content the scanner passes through unchanged *)

Lemma feed_app (c1 c2 : string) :
  forall ls buf,
    feed ls buf (c1 ++ c2) = feed (fst (feed ls buf c1)) (snd (feed ls buf c1)) c2.
Proof.
  induction c1 as [|c c1 IH]; intros ls buf; simpl; [reflexivity|].
  destruct (Ascii.eqb c nl); apply IH.
Qed.

Lemma feed_Split (s : string) :
  forall ls buf,
    feed ls buf s =
    match Split s nl with
    | [] => (ls, buf)
    | [s0] => (ls, buf ++ s0)
    | s0 :: r => ((ls ++ (buf ++ s0)%string :: removelast r)%list, last r "")
    end.
Proof.
  induction s as [|c s IH]; intros ls buf.
  - simpl. now rewrite append_nil_r.
  - cbn [feed Split]. destruct (Ascii.eqb c nl).
    + rewrite IH. destruct (Split_cons s nl) as (h & t & Hs). rewrite Hs.
      rewrite append_nil_r. destruct t as [|h' t].
      * reflexivity.
      * rewrite <- app_assoc. reflexivity.
    + rewrite IH. destruct (Split_cons s nl) as (h & t & Hs). rewrite Hs.
      rewrite append_assoc. destruct t; reflexivity.
Qed.

Lemma Split_single (s x : string) (sep : ascii) :
  Split s sep = [x] -> x = s.
Proof.
  revert x. induction s as [|c s IH]; intros x H; simpl in H.
  - now inversion H.
  - destruct (Ascii.eqb c sep).
    + destruct (Split_cons s sep) as (h & t & Hs). rewrite Hs in H.
      discriminate H.
    + destruct (Split s sep) as [|h t] eqn:Hs.
      * destruct (Split_cons s sep) as (h & t & Hs'). congruence.
      * inversion H; subst. f_equal. now apply IH.
Qed.

(** [strings.HasSuffix(s, "\n")] read off the rows of [s]. *)
Lemma HasSuffix_Split (s : string) :
  HasSuffix s NL =
  match Split s nl with
  | _ :: r :: t => (last (r :: t) "" =? "")%string
  | _ => false
  end.
Proof.
  induction s as [|c s IH]; [reflexivity|].
  cbn [HasSuffix Split]. rewrite IH.
  unfold NL. cbn [String.eqb].
  destruct (Split_cons s nl) as (h & t & Hs). rewrite Hs.
  fold nl. destruct (Ascii.eqb c nl).
  - destruct t as [|r t].
    + apply Split_single in Hs. subst h.
      cbn [last]. now rewrite orb_false_r.
    + destruct (s =? "")%string eqn:He; [|reflexivity].
      apply String.eqb_eq in He. subst s. discriminate Hs.
  - destruct t; reflexivity.
Qed.

Lemma deliver_plain (segs : list string) :
  Forall (fun seg => contains_byte seg cr = false) segs ->
  Forall (fun seg => slen seg < MaxScanTokenSize) segs ->
  deliver segs = (segs, false).
Proof.
  induction 1 as [|seg segs Hcr _ IH]; intros Hshort; [reflexivity|].
  inversion Hshort; subst. cbn [deliver].
  assert (Hb : (MaxScanTokenSize <=? slen seg) = false) by (apply Z.leb_gt; lia).
  rewrite Hb, IH by assumption. now rewrite dropCR_no_cr.
Qed.

Lemma NewScanner_plain (content : string) :
  plain_chunk content ->
  tokens (NewScanner content) = scan_segments content /\
  failed (NewScanner content) = false.
Proof.
  intros [Hcr Hshort]. unfold NewScanner.
  rewrite deliver_plain.
  - split; reflexivity.
  - apply scan_segments_Forall. now apply Split_keeps_absent.
  - now apply scan_segments_Forall.
Qed.

Lemma removelast_app_cons {A : Type} (l : list A) (x : A) (r : list A) :
  removelast (l ++ x :: r) = (l ++ removelast (x :: r))%list.
Proof. apply removelast_app. discriminate. Qed.

Lemma last_app_cons {A : Type} (l : list A) (x : A) (r : list A) (d : A) :
  last (l ++ x :: r) d = last (x :: r) d.
Proof.
  induction l as [|y l IH]; [reflexivity|].
  change ((y :: l) ++ x :: r)%list with (y :: (l ++ x :: r))%list.
  cbn [last]. destruct (l ++ x :: r)%list eqn:E; [|exact IH].
  destruct l; discriminate E.
Qed.

Section Chunking.

Context {D : Deps}.

(** On plain content [handleWrite] returns and leaves the lines and the
    buffer that feeding the content byte by byte gives. *)
Lemma handleWrite_feed (content : string) (m : Model) :
  plain_chunk content ->
  eval (handleWrite content) m = Ok tt /\
  (lines (exec (handleWrite content) m), buffer (exec (handleWrite content) m))
  = feed (lines m) (buffer m) content.
Proof.
  intros Hplain.
  destruct (NewScanner_plain content Hplain) as [Htok Hfail].
  rewrite feed_Split.
  pose proof (HasSuffix_Split content) as Hsuf.
  unfold scan_segments in Htok.
  destruct (Split content nl) as [|s0 r] eqn:Hsplit.
  { destruct (Split_cons content nl) as (h & t & Hs). congruence. }
  destruct r as [|r0 t].
  - (* no newline in the content *)
    cbn [last] in Htok.
    destruct (s0 =? "")%string eqn:He.
    + apply String.eqb_eq in He. subst s0. cbn [removelast] in Htok.
      unfold eval, exec, handleWrite. rewrite Htok. cbn [ret fst snd].
      now rewrite append_nil_r.
    + destruct (handleWrite_run content m s0 [] Htok)
        as (m3 & found & Hrun & Hl3 & Hb3 & _ & _).
      rewrite Hfail, Hsuf in Hrun.
      unfold eval, exec. rewrite Hrun. cbn [fst snd].
      split; [reflexivity|].
      unfold unscan_last. simpl. rewrite Hl3.
      rewrite removelast_app_cons, last_app_cons. cbn [removelast last].
      now rewrite app_nil_r.
  - (* the content has a newline *)
    destruct (last (s0 :: r0 :: t) "" =? "")%string eqn:He.
    + change (removelast (s0 :: r0 :: t)) with (s0 :: removelast (r0 :: t))
        in Htok.
      destruct (handleWrite_run content m s0 (removelast (r0 :: t)) Htok)
        as (m3 & found & Hrun & Hl3 & Hb3 & _ & _).
      rewrite Hfail, Hsuf in Hrun.
      change (last (s0 :: r0 :: t) "") with (last (r0 :: t) "") in He.
      rewrite He in Hrun.
      unfold eval, exec. rewrite Hrun. cbn [fst snd].
      split; [reflexivity|].
      apply String.eqb_eq in He. rewrite He, Hl3, Hb3. reflexivity.
    + destruct (handleWrite_run content m s0 (r0 :: t) Htok)
        as (m3 & found & Hrun & Hl3 & Hb3 & _ & _).
      rewrite Hfail, Hsuf in Hrun.
      change (last (s0 :: r0 :: t) "") with (last (r0 :: t) "") in He.
      rewrite He in Hrun.
      unfold eval, exec. rewrite Hrun. cbn [fst snd].
      split; [reflexivity|].
      unfold unscan_last. simpl lines. simpl buffer. rewrite Hl3.
      rewrite removelast_app_cons, last_app_cons.
      reflexivity.
Qed.

End Chunking.

Lemma contains_byte_app (s t : string) (c : ascii) :
  contains_byte (s ++ t) c = contains_byte s c || contains_byte t c.
Proof.
  induction s as [|d s IH]; simpl; [reflexivity|].
  now rewrite IH, orb_assoc.
Qed.

Lemma Split_app_head (c1 c2 : string) :
  (String.length (hd "" (Split c1 nl))
   <= String.length (hd "" (Split (c1 ++ c2) nl)))%nat.
Proof.
  induction c1 as [|c c1 IH]; simpl; [lia|].
  destruct (Ascii.eqb c nl); simpl; [lia|].
  destruct (Split_cons c1 nl) as (h & t & Hs).
  destruct (Split_cons (c1 ++ c2) nl) as (h' & t' & Hs').
  rewrite Hs, Hs' in *. simpl in *. lia.
Qed.

(** The lines of the parts are no longer than the lines of the whole. *)
Lemma Split_app_short (c1 c2 : string) :
  Forall (fun seg => slen seg < MaxScanTokenSize) (Split (c1 ++ c2) nl) ->
  Forall (fun seg => slen seg < MaxScanTokenSize) (Split c1 nl) /\
  Forall (fun seg => slen seg < MaxScanTokenSize) (Split c2 nl).
Proof.
  induction c1 as [|c c1 IH]; intros H.
  - split; [|exact H]. constructor; [reflexivity | constructor].
  - pose proof (Split_app_head (String c c1) c2) as Hhd.
    change (String c c1 ++ c2) with (String c (c1 ++ c2)) in *.
    cbn [Split] in *. destruct (Ascii.eqb c nl).
    + inversion H as [|x l Hx Hl]; subst. destruct (IH Hl) as [P1 P2].
      split; [constructor; assumption | exact P2].
    + destruct (Split_cons c1 nl) as (h & t & Hs).
      destruct (Split_cons (c1 ++ c2) nl) as (h' & t' & Hs').
      rewrite Hs, Hs' in *. inversion H as [|x l Hx Hl]; subst.
      assert (Hh' : slen h' < MaxScanTokenSize).
      { unfold slen in *. simpl String.length in Hx. lia. }
      destruct (IH (Forall_cons h' Hh' Hl)) as [P1 P2].
      split; [|exact P2]. inversion P1 as [|y k Hy Hk]; subst.
      constructor; [|assumption].
      unfold slen in *. cbn [hd] in Hhd. lia.
Qed.

Lemma plain_chunk_app (c1 c2 : string) :
  plain_chunk (c1 ++ c2) -> plain_chunk c1 /\ plain_chunk c2.
Proof.
  intros [Hcr Hshort]. rewrite contains_byte_app in Hcr.
  apply orb_false_iff in Hcr. destruct Hcr as [H1 H2].
  destruct (Split_app_short c1 c2 Hshort) as [S1 S2].
  split; split; assumption.
Qed.

Section ChunkingInvariance.

Context {D : Deps}.

(** X2: content without a carriage return whose lines fit the scanner's
    buffer: written in two parts, split anywhere, or at once, it
    leaves the same lines and the same buffer, and no write panics. *)
Lemma Write_chunks_plain (c1 c2 : string) (m : Model) :
  plain_chunk (c1 ++ c2) ->
  let split := Write c1 ;; Write c2 in
  let whole := Write (c1 ++ c2) in
  eval split m = Ok tt /\
  eval whole m = Ok tt /\
  lines (exec split m) = lines (exec whole m) /\
  buffer (exec split m) = buffer (exec whole m).
Proof.
  intros Hplain split whole.
  destruct (plain_chunk_app c1 c2 Hplain) as [H1 H2].
  destruct (handleWrite_feed (c1 ++ c2) m Hplain) as [Hev Hst].
  destruct (handleWrite_feed c1 m H1) as [Hev1 Hst1].
  destruct (handleWrite_feed c2 (exec (handleWrite c1) m) H2) as [Hev2 Hst2].
  rewrite feed_app, <- Hst1 in Hst. cbn [fst snd] in Hst.
  rewrite <- Hst2 in Hst.
  assert (Hrun : split m = handleWrite c2 (exec (handleWrite c1) m)).
  { unfold split, Write, bind. unfold eval, exec in *.
    destruct (handleWrite c1 m) as [[[]|e] m1]; simpl in *;
      [reflexivity | discriminate Hev1]. }
  unfold eval, exec in *. rewrite Hrun. unfold whole, Write.
  inversion Hst. repeat split; assumption.
Qed.

End ChunkingInvariance.

(** ** The rows of a pinned render and the anchor of a tailing one *)

Section Panes.

Context {D : Deps}.

(** [wrapLine] reads the wrap mode and the scroll position, nothing else. *)
Lemma wrapLine_ext (m m' : Model) (line : string) (maxLines width : Z) :
  shouldHardwrap m' = shouldHardwrap m ->
  scrollPosition m' = scrollPosition m ->
  wrapLine m' line maxLines width = wrapLine m line maxLines width.
Proof. intros Hh Hs. unfold wrapLine. now rewrite Hh, Hs. Qed.

Lemma pinned_loop_ext (m m' : Model) (rest : list string)
    (width targetHeight : Z) :
  shouldHardwrap m' = shouldHardwrap m ->
  scrollPosition m' = scrollPosition m ->
  forall output outputHeight,
    pinned_loop m' rest width targetHeight output outputHeight
    = pinned_loop m rest width targetHeight output outputHeight.
Proof.
  intros Hh Hs. induction rest as [|l rest IH]; intros output outputHeight;
    [reflexivity|].
  cbn [pinned_loop]. destruct (outputHeight <? targetHeight); [|reflexivity].
  rewrite (wrapLine_ext m m') by assumption.
  destruct (wrapLine m l (sub targetHeight outputHeight) width)
    as [[wrapped k]|e]; cbn [bindR]; [apply IH | reflexivity].
Qed.

(** X3: with the status bar enabled, a pinned [RenderLog] asked for
    [height] rows paints what it paints for [height - 1] rows (never fewer than 0)
    without the status bar: it takes the row of the status bar off the height
    it is given, which [Render] has taken off already.  The tailing branch
    uses [height] as it is. *)
Lemma RenderLog_pinned_target (m : Model) (width height : Z) :
  0 <= scrollPosition m ->
  shouldShowStatusbar m = true ->
  eval (RenderLog width height) m
  = eval (RenderLog width (Z.max (sub height 1) 0)) (WithoutStatusbar m).
Proof.
  intros Hpos Hbar.
  assert (Hp : (scrollPosition m <? 0) = false) by (apply Z.ltb_ge; lia).
  unfold eval, RenderLog, bind, get, modify, reads, ret.
  change (scrollPosition (WithoutStatusbar m)) with (scrollPosition m).
  rewrite Hp.
  change (lineView (WithoutStatusbar m)) with (lineView m).
  assert (Ht : logHeight m height = Z.max (sub height 1) 0).
  { unfold logHeight. now rewrite Hbar. }
  assert (Ht' : logHeight (WithoutStatusbar m) (Z.max (sub height 1) 0)
                = Z.max (sub height 1) 0) by reflexivity.
  rewrite Ht, Ht'.
  set (target := Z.max (sub height 1) 0).
  set (m1 := set_firstDisplayedLine (scrollPosition m) m).
  set (m2 := set_firstDisplayedLine (scrollPosition m) (WithoutStatusbar m)).
  change (scrollPosition m1) with (scrollPosition m).
  change (scrollPosition m2) with (scrollPosition m).
  rewrite (pinned_loop_ext m1 m2) by reflexivity.
  destruct (pinned_loop m1 (skipn (Z.to_nat (scrollPosition m)) (lineView m))
              width target "" 0) as [[output outputHeight]|e]; [|reflexivity].
  cbv beta iota.
  change (buffer m2) with (buffer m1).
  rewrite (wrapLine_ext m1 m2) by reflexivity.
  destruct ((outputHeight <? target) && negb (buffer m1 =? "")%string);
    [|reflexivity].
  destruct (wrapLine m1 (buffer m1) (sub target outputHeight) width)
    as [[wrapped k]|e]; reflexivity.
Qed.

Lemma last_cons_default {A : Type} (l : list A) :
  forall (x d d' : A), last (x :: l) d = last (x :: l) d'.
Proof.
  induction l as [|y l IH]; intros x d d'; [reflexivity|].
  change (last (x :: y :: l) d) with (last (y :: l) d).
  change (last (x :: y :: l) d') with (last (y :: l) d').
  apply IH.
Qed.

(** Where the tailing loop stops: one below the oldest line it added. *)
Lemma tail_loop_pointer (m : Model) (view : list string)
    (width targetHeight : Z) (n : nat) :
  forall output outputHeight output' outputHeight' pointer,
    tail_loop m view width targetHeight n output outputHeight
    = Ok (output', outputHeight', pointer) ->
    pointer
    = last (tail_painted m view width targetHeight n outputHeight)
        (Z.of_nat n) - 1.
Proof.
  induction n as [|n IH]; intros output oh output' oh' pointer Hrun.
  - simpl in Hrun. inversion Hrun. reflexivity.
  - cbn [tail_loop tail_painted] in *.
    destruct (oh <? targetHeight).
    + destruct (at_index view (Z.of_nat n)) as [l|e]; cbn [bindR] in *;
        [|discriminate Hrun].
      destruct (wrapLine m l (sub targetHeight oh) width) as [[wrapped k]|e];
        cbn [bindR] in *; [|discriminate Hrun].
      specialize (IH _ _ _ _ _ Hrun). rewrite IH.
      destruct (tail_painted m view width targetHeight n (add oh k))
        as [|z painted]; [reflexivity|].
      change (last (Z.of_nat n :: z :: painted) (Z.of_nat (S n)))
        with (last (z :: painted) (Z.of_nat (S n))).
      f_equal. apply last_cons_default.
    + inversion Hrun. reflexivity.
Qed.

(** X4: a tailing render that returns leaves [firstDisplayedLine] one below
    the index of the oldest line it painted (and at [len view - 1] when it
    painted none): the index recorded is not the one of a painted line. *)
Lemma RenderLog_tailing_anchor (m : Model) (width height : Z)
    (output : string) (m' : Model) :
  scrollPosition m < 0 ->
  RenderLog width height m = (Ok output, m') ->
  firstDisplayedLine m'
  = last (tailing_painted m width height) (len (lineView m)) - 1.
Proof.
  intros Htail Hrun.
  assert (Hp : (scrollPosition m <? 0) = true) by (apply Z.ltb_lt; lia).
  unfold RenderLog, bind, get, modify, reads, ret in Hrun.
  rewrite Hp in Hrun. unfold tailing_painted.
  destruct (negb (buffer m =? "")%string).
  - destruct (wrapLine m (buffer m) height width) as [[wrapped k]|e];
      cbn [bindR] in *; [|discriminate Hrun].
    destruct (tail_loop m (lineView m) width height (List.length (lineView m))
                (NL ++ wrapped) k) as [[[out oh] pointer]|e] eqn:Hloop;
      [|discriminate Hrun].
    apply tail_loop_pointer in Hloop. fold (len (lineView m)) in Hloop.
    rewrite <- Hloop. cbv beta iota in Hrun.
    destruct (oh <? height).
    + destruct (Repeat " " width); cbn [bindR] in Hrun;
        inversion Hrun; reflexivity.
    + inversion Hrun. reflexivity.
  - destruct (tail_loop m (lineView m) width height (List.length (lineView m))
                "" 0) as [[[out oh] pointer]|e] eqn:Hloop;
      [|discriminate Hrun].
    apply tail_loop_pointer in Hloop. fold (len (lineView m)) in Hloop.
    rewrite <- Hloop. cbv beta iota in Hrun.
    destruct (oh <? height).
    + destruct (Repeat " " width); cbn [bindR] in Hrun;
        inversion Hrun; reflexivity.
    + inversion Hrun. reflexivity.
Qed.

End Panes.

(** * More of the package *)

(** ** Plain text, keys and the mouse

    The text input of the plain instance under keys: a key whose name is one
    character is typed at the end, [backspace] deletes the last character,
    any other message leaves the text as it is; no command is returned. *)
Module PlainTea.

Fixpoint drop_last (s : string) : string :=
  match s with
  | EmptyString => EmptyString
  | String c EmptyString => EmptyString
  | String c rest => String c (drop_last rest)
  end.

Definition type_key (key : string) (v : string) : string :=
  if (key =? "backspace")%string then drop_last v
  else if (String.length key =? 1)%nat then v ++ key
  else v.

Definition update (msg : Msg string MouseButton unit)
    (v : @Input Plain.deps) : @Input Plain.deps * option unit :=
  match msg with
  | OfKey key => (type_key key v, None)
  | _ => (v, None)
  end.

#[export] Instance tea : Tea Plain.deps := {|
  KeyMsg := string;
  key_String := fun key => key;
  MouseMsg := MouseButton;
  mouse_Button := fun b => b;
  OtherMsg := unit;
  Cmd := unit;
  tea_Quit := tt;
  input_Update := update;
  input_Focus := fun v : @Input Plain.deps => v;
  input_Blur := fun v : @Input Plain.deps => v
|}.

End PlainTea.

(** ** Witnesses of the lemmas on ingestion and on the panes *)

Lemma Write_chunks_plain_witness :
  let c1 := "a" ++ NL ++ "b" in
  let c2 := "c" ++ NL ++ NL ++ "d" in
  let m := exec (Write "x") Plain.start in
  eval (Write c1 ;; Write c2) m = Ok tt /\
  eval (Write (c1 ++ c2)) m = Ok tt /\
  lines (exec (Write c1 ;; Write c2) m) = lines (exec (Write (c1 ++ c2)) m) /\
  buffer (exec (Write c1 ;; Write c2) m) = buffer (exec (Write (c1 ++ c2)) m).
Proof.
  intros c1 c2 m. apply (Write_chunks_plain c1 c2 m).
  split; [reflexivity|]. vm_compute. repeat constructor.
Defined.

Lemma RenderLog_pinned_target_witness :
  let m := ScrollTo 0
             (exec (Write ("a" ++ NL ++ "b" ++ NL ++ "c" ++ NL)) Plain.start) in
  eval (RenderLog 10 3) m
  = eval (RenderLog 10 (Z.max (sub 3 1) 0)) (WithoutStatusbar m).
Proof.
  intros m. apply (RenderLog_pinned_target m 10 3).
  - vm_compute. discriminate.
  - reflexivity.
Defined.

Lemma RenderLog_tailing_anchor_witness :
  let m := exec (Write ("a" ++ NL ++ "b" ++ NL ++ "c" ++ NL)) Plain.start in
  firstDisplayedLine (exec (RenderLog 10 2) m)
  = last (tailing_painted m 10 2) (len (lineView m)) - 1.
Proof.
  intros m.
  apply (RenderLog_tailing_anchor m 10 2 ("b" ++ NL ++ "c")
           (exec (RenderLog 10 2) m)).
  - reflexivity.
  - reflexivity.
Defined.

(** ** [String] gives back what was written *)

Lemma Join_cons (x : string) (y : string) (l : list string) (sep : string) :
  Join (x :: y :: l) sep = x ++ sep ++ Join (y :: l) sep.
Proof. reflexivity. Qed.

(** [strings.Join(strings.Split(s, sep), sep) == s] *)
Lemma Join_Split (s : string) (sep : ascii) :
  Join (Split s sep) (String sep "") = s.
Proof.
  induction s as [|c s IH]; [reflexivity|].
  cbn [Split].
  destruct (Split_cons s sep) as (h & t & Hs). rewrite Hs in *.
  destruct (Ascii.eqb_spec c sep) as [->|Hc].
  - rewrite Join_cons, IH. reflexivity.
  - destruct t as [|y t].
    + cbn in IH |- *. now rewrite IH.
    + rewrite Join_cons in IH |- *.
      change (String c (h ++ String sep "" ++ Join (y :: t) (String sep ""))
              = String c s).
      now rewrite IH.
Qed.

Lemma Join_snoc_empty (l : list string) (sep : string) :
  l <> [] -> Join (l ++ [""]) sep = Join l sep ++ sep.
Proof.
  induction l as [|x l IH]; intros Hne; [contradiction|].
  destruct l as [|y l].
  - cbn. now rewrite append_nil_r.
  - change ((x :: y :: l) ++ [""])%list with (x :: ((y :: l) ++ [""]))%list.
    change ((y :: l) ++ [""])%list with (y :: (l ++ [""]))%list.
    rewrite Join_cons.
    change (y :: (l ++ [""]))%list with ((y :: l) ++ [""])%list.
    rewrite IH by discriminate.
    rewrite Join_cons, !append_assoc. reflexivity.
Qed.

(** The text of the store that feeding [c] to an empty store gives. *)
Lemma Join_feed (c : string) :
  let '(ls, buf) := feed [] "" c in
  Join (if negb (buf =? "")%string then (ls ++ [buf])%list else ls) NL
  = TrimSuffix c NL.
Proof.
  rewrite feed_Split.
  pose proof (HasSuffix_Split c) as Hsuf.
  pose proof (Join_Split c nl) as Hjoin. fold NL in Hjoin.
  destruct (Split c nl) as [|s0 r] eqn:Hsplit.
  { destruct (Split_cons c nl) as (h & t & Hs). congruence. }
  destruct r as [|r0 t].
  - apply Split_single in Hsplit. subst s0. cbn [append app].
    unfold TrimSuffix. rewrite Hsuf.
    destruct (String.eqb_spec c "") as [->|Hc]; reflexivity.
  - cbn [append app].
    unfold TrimSuffix. rewrite Hsuf.
    assert (Hr : (r0 :: t) = (removelast (r0 :: t) ++ [last (r0 :: t) ""])%list)
      by (apply app_removelast_last; discriminate).
    destruct (String.eqb_spec (last (r0 :: t) "") "") as [He|Hne]; cbn [negb].
    + rewrite He in Hr.
      assert (Hc : c = Join (s0 :: removelast (r0 :: t)) NL ++ NL).
      { rewrite <- Hjoin at 1. rewrite Hr at 1.
        change (s0 :: (removelast (r0 :: t) ++ [""]))%list
          with ((s0 :: removelast (r0 :: t)) ++ [""])%list.
        apply Join_snoc_empty. discriminate. }
      rewrite Hc.
      rewrite length_append. cbn [String.length NL].
      replace (String.length (Join (s0 :: removelast (r0 :: t)) NL) + 1 - 1)%nat
        with (String.length (Join (s0 :: removelast (r0 :: t)) NL)) by lia.
      now rewrite substring_app_l.
    + change ((s0 :: removelast (r0 :: t)) ++ [last (r0 :: t) ""])%list
        with (s0 :: (removelast (r0 :: t) ++ [last (r0 :: t) ""]))%list.
      rewrite <- Hr. exact Hjoin.
Qed.

(** The chunks of a list, one after the other. *)
Definition concat_chunks (chunks : list string) : string :=
  fold_right append "" chunks.

Section Writes.

Context {D : Deps}.

(** Writing plain chunks one after the other feeds their concatenation. *)
Lemma writes_feed (chunks : list string) :
  forall m,
    plain_chunk (concat_chunks chunks) ->
    eval (for_each chunks Write) m = Ok tt /\
    (lines (exec (for_each chunks Write) m),
     buffer (exec (for_each chunks Write) m))
    = feed (lines m) (buffer m) (concat_chunks chunks).
Proof.
  induction chunks as [|c chunks IH]; intros m Hplain.
  - split; reflexivity.
  - cbn [concat_chunks fold_right] in Hplain |- *.
    fold (concat_chunks chunks) in Hplain |- *.
    destruct (plain_chunk_app _ _ Hplain) as [Hc Hrest].
    destruct (handleWrite_feed c m Hc) as [Hev Hst].
    destruct (IH (exec (handleWrite c) m) Hrest) as [Hev' Hst'].
    rewrite feed_app, <- Hst. cbn [fst snd]. rewrite <- Hst'.
    assert (Hrun : for_each (c :: chunks) Write m
                   = for_each chunks Write (exec (handleWrite c) m)).
    { cbn [for_each]. unfold bind, Write. unfold eval, exec in *.
      destruct (handleWrite c m) as [[[]|e] m1]; cbn [fst snd] in *;
        [reflexivity | discriminate Hev]. }
    unfold eval, exec in *. rewrite Hrun. split; [exact Hev' | reflexivity].
Qed.

(** X5: after plain chunks are written to a new model, one after the other
    and split anywhere, [String] returns their concatenation without its
    final newline, if it has one; no write panics. *)
Theorem String_after_writes (inp : Input) (chunks : list string) :
  plain_chunk (concat_chunks chunks) ->
  eval (for_each chunks Write) (New inp) = Ok tt /\
  String_ (exec (for_each chunks Write) (New inp))
  = TrimSuffix (concat_chunks chunks) NL.
Proof.
  intros Hplain.
  destruct (writes_feed chunks (New inp) Hplain) as [Hev Hst].
  split; [exact Hev|].
  pose proof (Join_feed (concat_chunks chunks)) as HJ.
  cbn [lines buffer New] in Hst. rewrite <- Hst in HJ.
  exact HJ.
Qed.

End Writes.

Lemma String_after_writes_witness :
  let chunks := ["one" ++ NL ++ "tw"; "o"; NL ++ "three" ++ NL] in
  eval (for_each chunks Write) Plain.start = Ok tt /\
  String_ (exec (for_each chunks Write) Plain.start)
  = TrimSuffix (concat_chunks chunks) NL.
Proof.
  intros chunks. apply (String_after_writes (D := Plain.deps) "" chunks).
  split; [reflexivity|]. vm_compute. repeat constructor.
Defined.

(** ** [modulo] *)

(** X6: for a modulus [n] other than 0 with [|n| <= 2 ^ 62], [modulo i n] is
    the remainder of the floored division of [i] by [n]: it has the sign of
    [n] and is smaller than [n] in absolute value.  For a larger modulus the
    sum inside [modulo] can wrap around.  [modulo i 0] is 0. *)
Theorem modulo_floor (i n : Z) :
  n <> 0 ->
  - 2 ^ 62 <= n <= 2 ^ 62 ->
  modulo i n = i mod n /\
  (0 < n -> 0 <= modulo i n < n) /\
  (n < 0 -> n < modulo i n <= 0) /\
  modulo i 0 = 0.
Proof.
  intros Hn Hrange.
  assert (Hm : modulo i n = i mod n).
  { unfold modulo. destruct (Z.eqb_spec n 0) as [|_]; [contradiction|].
    pose proof (Z.rem_bound_abs i n Hn) as Hb.
    unfold add. rewrite wrap_small by lia.
    pose proof (Z.quot_rem' i n) as Hqr.
    destruct (Z_lt_le_dec 0 n) as [Hpos|Hneg].
    - (* n positive *)
      destruct (Z_lt_le_dec (Z.rem i n) 0) as [Hr|Hr].
      + rewrite Z.rem_small by lia.
        apply (Z.mod_unique_pos i n (Z.quot i n - 1)); lia.
      + replace (Z.rem i n + n) with (Z.rem i n + 1 * n) by lia.
        rewrite Z.rem_add by nia.
        rewrite Z.rem_small by lia.
        apply (Z.mod_unique_pos i n (Z.quot i n)); lia.
    - (* n negative *)
      assert (Hlt : n < 0) by lia.
      assert (Hsmall : forall r, n < r <= 0 -> Z.rem r n = r).
      { intros r Hr'.
        rewrite <- (Z.opp_involutive r), <- (Z.opp_involutive n) at 1.
        rewrite Z.rem_opp_opp by lia. rewrite Z.rem_small by lia. lia. }
      destruct (Z_lt_le_dec 0 (Z.rem i n)) as [Hr|Hr].
      + rewrite Hsmall by lia.
        apply (Z.mod_unique_neg i n (Z.quot i n - 1)); lia.
      + replace (Z.rem i n + n) with (Z.rem i n + 1 * n) by lia.
        rewrite Z.rem_add by nia.
        rewrite Hsmall by lia.
        apply (Z.mod_unique_neg i n (Z.quot i n)); lia. }
  split; [exact Hm|]. rewrite Hm.
  split; [|split].
  - intros Hpos. apply Z.mod_pos_bound. exact Hpos.
  - intros Hneg. apply Z.mod_neg_bound. exact Hneg.
  - reflexivity.
Qed.

Lemma modulo_floor_witness :
  modulo (-7) 3 = (-7) mod 3 /\
  (0 < 3 -> 0 <= modulo (-7) 3 < 3) /\
  (3 < 0 -> 3 < modulo (-7) 3 <= 0) /\
  modulo (-7) 0 = 0.
Proof. apply (modulo_floor (-7) 3); lia. Defined.

Lemma modulo_large_modulus : modulo (2 ^ 63 - 2) (2 ^ 63 - 1) = -3.
Proof. reflexivity. Qed.

(** ** Scrolling composes *)

Lemma wrap_range (z : Z) : - 2 ^ 63 <= wrap z < 2 ^ 63.
Proof.
  unfold wrap.
  pose proof (Z.mod_pos_bound (z + 2 ^ 63) (2 ^ 64) ltac:(lia)). lia.
Qed.

Section ScrollCompose.

Context {D : Deps}.

(** X7: once a scroll has happened, scrolling by 0 changes nothing:
    [ScrollBy 0] after [ScrollBy delta] is [ScrollBy delta], for every model
    and every delta. *)
Theorem ScrollBy_zero_idempotent (delta : Z) (m : Model) :
  ScrollBy 0 (ScrollBy delta m) = ScrollBy delta m.
Proof.
  unfold ScrollBy at 1.
  rewrite ScrollBy_lineView.
  pose proof (ScrollBy_position delta m) as Hp.
  assert (Hb : (scrollPosition (ScrollBy delta m) <? 0) = false)
    by (apply Z.ltb_ge; lia).
  rewrite Hb.
  assert (Hlt : scrollPosition (ScrollBy delta m) < 2 ^ 63).
  { unfold ScrollBy. destruct (scrollPosition m <? 0); cbn [scrollPosition set_scrollPosition];
      unfold clamp, add;
      match goal with |- context [wrap ?z] => pose proof (wrap_range z) end; lia. }
  unfold add. rewrite Z.add_0_r, wrap_small by lia.
  replace (clamp 0 (len (lineView m) - 1) (scrollPosition (ScrollBy delta m)))
    with (scrollPosition (ScrollBy delta m)) by (unfold clamp; lia).
  unfold ScrollBy. destruct (scrollPosition m <? 0); reflexivity.
Qed.

(** X8: on a model pinned inside its view, two scrolls in the same direction
    are one scroll by the sum (deltas and position within [2 ^ 61], so that
    no sum wraps around). *)
Theorem ScrollBy_compose (a b : Z) (m : Model) :
  0 <= scrollPosition m <= Z.max 0 (len (lineView m) - 1) ->
  scrollPosition m <= 2 ^ 61 ->
  (0 <= a <= 2 ^ 61 /\ 0 <= b <= 2 ^ 61) \/
  (- 2 ^ 61 <= a <= 0 /\ - 2 ^ 61 <= b <= 0) ->
  ScrollBy b (ScrollBy a m) = ScrollBy (a + b) m.
Proof.
  intros Hp Hbound Hsign.
  assert (Hb : (scrollPosition m <? 0) = false) by (apply Z.ltb_ge; lia).
  unfold ScrollBy at 1. rewrite ScrollBy_lineView.
  unfold ScrollBy. rewrite Hb.
  cbn [scrollPosition set_scrollPosition].
  unfold add. rewrite (wrap_small (scrollPosition m + a)) by lia.
  rewrite (wrap_small (scrollPosition m + (a + b))) by lia.
  set (p1 := clamp 0 (len (lineView m) - 1) (scrollPosition m + a)).
  assert (Hp1 : 0 <= p1 <= 2 ^ 62 /\
                clamp 0 (len (lineView m) - 1) (p1 + b)
                = clamp 0 (len (lineView m) - 1) (scrollPosition m + (a + b))).
  { unfold p1, clamp. lia. }
  destruct Hp1 as [Hr Heq].
  assert (Hb1 : (p1 <? 0) = false) by (apply Z.ltb_ge; lia).
  rewrite Hb1. cbn [scrollPosition set_scrollPosition].
  rewrite wrap_small by lia. rewrite Heq. reflexivity.
Qed.

End ScrollCompose.

Lemma ScrollBy_compose_witness :
  let m := ScrollTo 2
             (exec (Write ("a" ++ NL ++ "b" ++ NL ++ "c" ++ NL ++ "d" ++ NL))
                Plain.start) in
  ScrollBy (-1) (ScrollBy (-3) m) = ScrollBy (-3 + -1) m.
Proof.
  intros m. apply (ScrollBy_compose (-3) (-1) m).
  - vm_compute. split; discriminate.
  - vm_compute. discriminate.
  - right. lia.
Defined.

(** ** What a search finds *)

Section SearchFinds.

Context {D : Deps}.

(** The entry a line contributes to the filtered view: its highlighted
    rendering when the pattern matches in it, nothing otherwise. *)
Definition hit (re : Regexp) (line : string) : list string :=
  match highlightLine re line with
  | Ok (Some r) => [r]
  | _ => []
  end.

Lemma at_index_app {A : Type} (pre : list A) (x : A) (rest : list A) :
  at_index (pre ++ x :: rest) (Z.of_nat (List.length pre)) = Ok x.
Proof.
  unfold at_index.
  assert (Hb : (Z.of_nat (List.length pre) <? 0) = false)
    by (apply Z.ltb_ge; lia).
  rewrite Hb, Nat2Z.id, nth_error_app2 by lia.
  rewrite Nat.sub_diag. reflexivity.
Qed.

Lemma search_range_from (m : Model) (re : Regexp) :
  queryRe m = Some re ->
  forall suffix pre results,
    lines m = (pre ++ suffix)%list ->
    search_range m (seq (List.length pre) (List.length suffix)) results
    = Ok (results ++ flat_map (hit re) suffix)%list.
Proof.
  intros Hq. induction suffix as [|x rest IH]; intros pre results Hl.
  - cbn. now rewrite app_nil_r.
  - cbn [List.length seq search_range flat_map].
    unfold searchLine at 1. rewrite Hq.
    assert (Hb : (Z.of_nat (List.length pre) <? 0) = false)
      by (apply Z.ltb_ge; lia).
    rewrite Hb, Hl, at_index_app. cbn [bindR].
    assert (Hnext : lines m = ((pre ++ [x]) ++ rest)%list)
      by (rewrite Hl, <- app_assoc; reflexivity).
    assert (Hlen : S (List.length pre) = List.length (pre ++ [x]))
      by (rewrite length_app; simpl; lia).
    destruct (highlightLine_ok re x) as (found & Hfound).
    unfold hit at 1. rewrite Hfound. cbn [bindR].
    rewrite Hlen.
    destruct found as [r|].
    + rewrite (IH (pre ++ [x])%list (results ++ [r])%list Hnext).
      rewrite <- app_assoc. reflexivity.
    + rewrite (IH (pre ++ [x])%list results Hnext). reflexivity.
Qed.

(** [search] returns, for every model: the renderings of the matching lines,
    in the order of the lines, when a query is compiled, and nothing when
    none is. *)
Lemma search_finds (m : Model) :
  search m = Ok match queryRe m with
                | Some re => flat_map (hit re) (lines m)
                | None => []
                end.
Proof.
  unfold search. destruct (queryRe m) as [re|] eqn:Hq; [|reflexivity].
  apply (search_range_from m re Hq (lines m) [] []). reflexivity.
Qed.

Lemma flat_map_hit_length (re : Regexp) (ls : list string) :
  len (flat_map (hit re) ls) <= len ls.
Proof.
  unfold len. induction ls as [|x ls IH]; [simpl; lia|].
  cbn [flat_map]. rewrite length_app. cbn [List.length].
  assert (List.length (hit re x) <= 1)%nat.
  { unfold hit. destruct (highlightLine re x) as [[r|]|e]; simpl; lia. }
  lia.
Qed.

(** X9: [SetQuery] with a text that is not empty and compiles never panics
    and installs the full recomputation: the compiled query is the new one,
    the filtered view holds the rendering of each matching line, in the order
    of the lines and never more entries than there are lines, the line view
    is the filtered view, and the lines are untouched. *)
Theorem SetQuery_recomputes (m : Model) (query : string) (re : Regexp) :
  let text := input_Value (input_SetValue query (input m)) in
  text <> "" ->
  regexp_Compile text = Some re ->
  let m' := exec (SetQuery query) m in
  eval (SetQuery query) m = Ok tt /\
  queryRe m' = Some re /\
  filtered m' = flat_map (hit re) (lines m) /\
  lineView m' = filtered m' /\
  len (filtered m') <= len (lines m') /\
  lines m' = lines m.
Proof.
  intros text Hne Hc m'.
  set (m1 := set_input (input_SetValue query (input m)) m).
  set (m2 := set_queryRe (Some re) m1).
  assert (Hs : search m2 = Ok (flat_map (hit re) (lines m))).
  { rewrite search_finds. reflexivity. }
  assert (Hrun : SetQuery query m
                 = (Ok tt, set_filtered (flat_map (hit re) (lines m)) m2)).
  { unfold SetQuery, bind at 1, modify at 1. fold m1.
    unfold handleSearch, bind, get.
    change (input_Value (input m1)) with text.
    destruct (String.eqb_spec text "") as [He|_]; [contradiction|].
    rewrite Hc. unfold modify, reads. fold m2. rewrite Hs. reflexivity. }
  unfold m', eval, exec. rewrite Hrun. cbn [fst snd].
  repeat split.
  cbn [filtered lines set_filtered]. apply flat_map_hit_length.
Qed.

End SearchFinds.

Lemma SetQuery_recomputes_witness :
  let m := exec (Write ("abc" ++ NL ++ "xyz" ++ NL ++ "cab" ++ NL)) Plain.start in
  let m' := exec (SetQuery "ab") m in
  eval (SetQuery "ab") m = Ok tt /\
  queryRe m' = Some "ab" /\
  filtered m' = flat_map (hit (D := Plain.deps) "ab") (lines m) /\
  lineView m' = filtered m' /\
  len (filtered m') <= len (lines m') /\
  lines m' = lines m.
Proof.
  intros m. apply (SetQuery_recomputes m "ab" "ab").
  - discriminate.
  - reflexivity.
Defined.

(** ** What highlighting does to a line *)

Lemma substring_zero (n : nat) (s : string) : substring n 0 s = "".
Proof.
  revert n. induction s as [|c s IH]; intros [|n]; simpl; auto.
Qed.

Lemma substring_app (s : string) :
  forall n k1 k2,
    substring n k1 s ++ substring (n + k1) k2 s = substring n (k1 + k2) s.
Proof.
  induction s as [|c s IH]; intros n k1 k2.
  - destruct n, k1, k2; reflexivity.
  - destruct n as [|n].
    + destruct k1 as [|k1].
      * reflexivity.
      * cbn [Nat.add substring append]. f_equal. apply (IH 0%nat).
    + cbn [Nat.add substring]. apply IH.
Qed.

Section Highlight.

Context {D : Deps}.

(** The rest of [line] from the byte offset [start] on. *)
Definition rest_from (line : string) (start : Z) : string :=
  substring (Z.to_nat start) (String.length line - Z.to_nat start) line.

(** [line] from [start] on with every span replaced by its highlighted
    rendering. *)
Fixpoint mark_spans (line : string) (spans : list (Z * Z)) (start : Z)
    : string :=
  match spans with
  | [] => rest_from line start
  | (lo, hi) :: rest =>
      substring (Z.to_nat start) (Z.to_nat (lo - start)) line ++
      highlight_Render (substring (Z.to_nat lo) (Z.to_nat (hi - lo)) line) ++
      mark_spans line rest hi
  end.

Lemma onto_app (result : option string) (a b : string) :
  onto result (a ++ b) = onto result a ++ b.
Proof. destruct result; simpl; [now rewrite append_assoc | reflexivity]. Qed.

Lemma highlight_spans_marks (line : string) (spans : list (Z * Z)) :
  forall (result : option string) (start : Z),
    0 <= start <= slen line ->
    spans_ok (slen line) start spans ->
    exists result' start',
      highlight_spans line spans result start = Ok (result', start') /\
      0 <= start' <= slen line /\
      onto result' (rest_from line start')
      = onto result (mark_spans line spans start) /\
      (spans <> [] -> result' <> None) /\
      (spans = [] -> result' = result).
Proof.
  induction spans as [|[m0 m1] rest IH]; intros result start H0 Hok.
  - exists result, start. cbn. repeat split; try lia; congruence.
  - cbn [spans_ok] in Hok. destruct Hok as (Ha & Hb & Hc & Hrest).
    cbn [highlight_spans mark_spans].
    rewrite (str_slice_ok line m0 m1) by lia.
    set (matched := highlight_Render
                      (substring (Z.to_nat m0) (Z.to_nat (m1 - m0)) line)).
    destruct (start <? m0) eqn:Hlt.
    + rewrite (str_slice_ok line start m0) by lia. cbn [bindR].
      set (piece := substring (Z.to_nat start) (Z.to_nat (m0 - start)) line).
      destruct (IH (Some (onto (Some (onto result piece)) matched)) m1)
        as (r' & s' & Heq & Hrange & Htext & Hne & Hnil); [lia | exact Hrest |].
      exists r', s'. split; [exact Heq|]. split; [exact Hrange|].
      split; [|split; [|discriminate]].
      * rewrite Htext. cbn [onto]. rewrite !onto_app, append_assoc.
        reflexivity.
      * intros _. destruct rest as [|sp rest'].
        -- rewrite Hnil by reflexivity. discriminate.
        -- apply Hne. discriminate.
    + cbn [bindR].
      assert (Hz : Z.to_nat (m0 - start) = 0%nat)
        by (apply Z.ltb_ge in Hlt; lia).
      rewrite Hz, substring_zero. cbn [append].
      destruct (IH (Some (onto result matched)) m1)
        as (r' & s' & Heq & Hrange & Htext & Hne & Hnil); [lia | exact Hrest |].
      exists r', s'. split; [exact Heq|]. split; [exact Hrange|].
      split; [|split; [|discriminate]].
      * rewrite Htext. cbn [onto]. rewrite onto_app. reflexivity.
      * intros _. destruct rest as [|sp rest'].
        -- rewrite Hnil by reflexivity. discriminate.
        -- apply Hne. discriminate.
Qed.

(** [highlightLine] never panics; it returns nothing when the pattern has no
    match in the line, and otherwise the line with every match, and only the
    matches, replaced by its highlighted rendering. *)
Lemma highlightLine_marks (re : Regexp) (line : string) :
  highlightLine re line
  = Ok match FindAllStringIndex re line with
       | [] => None
       | spans => Some (mark_spans line spans 0)
       end.
Proof.
  unfold highlightLine.
  destruct (highlight_spans_marks line (FindAllStringIndex re line) None 0)
    as (r' & s' & Heq & Hrange & Htext & Hne & Hnil).
  - unfold slen. lia.
  - apply FindAllStringIndex_spans.
  - rewrite Heq. cbn [bindR].
    destruct (FindAllStringIndex re line) as [|sp spans].
    + rewrite Hnil by reflexivity. reflexivity.
    + destruct r' as [r|]; [|now elim Hne].
      unfold str_slice_from. rewrite str_slice_ok by lia. cbn [bindR].
      cbn [onto] in Htext. rewrite <- Htext.
      unfold rest_from.
      replace (Z.to_nat (slen line - s'))
        with (String.length line - Z.to_nat s')%nat by (unfold slen; lia).
      reflexivity.
Qed.

Lemma mark_spans_plain (line : string) (spans : list (Z * Z)) :
  (forall s, highlight_Render s = s) ->
  forall start,
    0 <= start ->
    spans_ok (slen line) start spans ->
    mark_spans line spans start = rest_from line start.
Proof.
  intros Hid. induction spans as [|[lo hi] rest IH]; intros start H0 Hok;
    [reflexivity|].
  cbn [spans_ok] in Hok. destruct Hok as (Ha & Hb & Hc & Hrest).
  cbn [mark_spans]. rewrite Hid, IH by (assumption || lia).
  unfold rest_from, slen in *.
  replace (Z.to_nat hi) with (Z.to_nat lo + Z.to_nat (hi - lo))%nat by lia.
  rewrite substring_app.
  replace (Z.to_nat lo) with (Z.to_nat start + Z.to_nat (lo - start))%nat
    at 1 by lia.
  rewrite substring_app. f_equal. lia.
Qed.

(** X10: with a highlight that renders a match as it is, the rendering of a
    matching line is the line itself: highlighting loses no text, adds none
    and keeps the order. *)
Theorem highlightLine_keeps_text (re : Regexp) (line : string) :
  (forall s, highlight_Render s = s) ->
  FindAllStringIndex re line <> [] ->
  highlightLine re line = Ok (Some line).
Proof.
  intros Hid Hne. rewrite highlightLine_marks.
  pose proof (FindAllStringIndex_spans re line) as Hok.
  destruct (FindAllStringIndex re line) as [|sp spans]; [contradiction|].
  rewrite (mark_spans_plain line (sp :: spans) Hid 0) by (assumption || lia).
  unfold rest_from. cbn [Z.to_nat]. rewrite Nat.sub_0_r.
  do 2 f_equal. apply substring_all.
Qed.

(** X11: what [searchLine] returns, for every model and every line number.
    Without a compiled query, or for a negative number, nothing.  Otherwise
    it panics when the number is not below the number of lines, returns
    nothing when the pattern has no match in the line, and else returns the
    line with every match, and only the matches, replaced by its highlighted
    rendering. *)
Theorem searchLine_cases (m : Model) (lineno : Z) :
  searchLine m lineno
  = match queryRe m with
    | None => Ok None
    | Some re =>
        if lineno <? 0 then Ok None
        else match nth_error (lines m) (Z.to_nat lineno) with
             | None => Panic IndexOutOfRange
             | Some line =>
                 Ok match FindAllStringIndex re line with
                    | [] => None
                    | spans => Some (mark_spans line spans 0)
                    end
             end
    end.
Proof.
  unfold searchLine. destruct (queryRe m) as [re|]; [|reflexivity].
  destruct (lineno <? 0) eqn:Hneg; [reflexivity|].
  unfold at_index. rewrite Hneg.
  destruct (nth_error (lines m) (Z.to_nat lineno)) as [line|]; cbn [bindR];
    [apply highlightLine_marks | reflexivity].
Qed.

End Highlight.

(** The plain instance with a highlight that renders a match as it is. *)
Definition plain_unmarked : Deps := {|
  Input := @Input Plain.deps;
  input_Value := @input_Value Plain.deps;
  input_SetValue := @input_SetValue Plain.deps;
  input_View := @input_View Plain.deps;
  Regexp := @Regexp Plain.deps;
  regexp_Compile := @regexp_Compile Plain.deps;
  regexp_Compile_empty := @regexp_Compile_empty Plain.deps;
  FindAllStringIndex := @FindAllStringIndex Plain.deps;
  FindAllStringIndex_spans := @FindAllStringIndex_spans Plain.deps;
  highlight_Render := fun s => s;
  wrap_String := @wrap_String Plain.deps;
  truncate_String := @truncate_String Plain.deps;
  Style := @Style Plain.deps;
  style_Render := @style_Render Plain.deps
|}.

Lemma highlightLine_keeps_text_witness :
  @highlightLine plain_unmarked "ab" "xxabyab" = Ok (Some "xxabyab").
Proof.
  apply (@highlightLine_keeps_text plain_unmarked "ab" "xxabyab").
  - intros s. reflexivity.
  - vm_compute. discriminate.
Defined.

(** ** What setting the query touches *)

Section QueryFrame.

Context {D : Deps}.

(** Every field but [input], [queryRe] and [filtered] is the same in both. *)
Definition same_outside_query (m m' : Model) : Prop :=
  windowWidth m' = windowWidth m /\
  windowHeight m' = windowHeight m /\
  shouldHardwrap m' = shouldHardwrap m /\
  shouldShowStatusbar m' = shouldShowStatusbar m /\
  focus m' = focus m /\
  prevQuery m' = prevQuery m /\
  heldKey m' = heldKey m /\
  scrollPosition m' = scrollPosition m /\
  firstDisplayedLine m' = firstDisplayedLine m /\
  lines m' = lines m /\
  buffer m' = buffer m.

Lemma handleSearch_run (m : Model) :
  exists m',
    handleSearch m = (Ok tt, m') /\
    same_outside_query m m' /\
    input m' = input m /\
    (input_Value (input m) = "" ->
     queryRe m' = None /\ filtered m' = filtered m).
Proof.
  unfold handleSearch, bind, get, modify, reads, ret.
  destruct (String.eqb_spec (input_Value (input m)) "") as [He|Hne].
  - eexists. split; [reflexivity|]. unfold same_outside_query.
    cbn. repeat split.
  - destruct (regexp_Compile (input_Value (input m))) as [re|].
    + destruct (search_ok (set_queryRe (Some re) m)) as (found & Hfound).
      rewrite Hfound. eexists. split; [reflexivity|].
      unfold same_outside_query. cbn. repeat split; contradiction.
    + destruct (search_ok m) as (found & Hfound).
      rewrite Hfound. eexists. split; [reflexivity|].
      unfold same_outside_query. cbn. repeat split; contradiction.
Qed.

Lemma SetQuery_run (query : string) (m : Model) :
  exists m',
    SetQuery query m = (Ok tt, m') /\
    same_outside_query m m' /\
    input m' = input_SetValue query (input m) /\
    (input_Value (input_SetValue query (input m)) = "" ->
     queryRe m' = None /\ filtered m' = filtered m).
Proof.
  destruct (handleSearch_run (set_input (input_SetValue query (input m)) m))
    as (m' & Hrun & Hsame & Hin & Hempty).
  exists m'. split; [exact Hrun|]. split; [exact Hsame|].
  split; [exact Hin | exact Hempty].
Qed.

(** X12: [SetQuery] never panics, whatever the text, and touches nothing but
    the text input, the compiled query and the filtered view: the lines, the
    buffer, the scroll position and every other field are as before. *)
Theorem SetQuery_frame (query : string) (m : Model) :
  eval (SetQuery query) m = Ok tt /\
  same_outside_query m (exec (SetQuery query) m) /\
  input (exec (SetQuery query) m) = input_SetValue query (input m).
Proof.
  destruct (SetQuery_run query m) as (m' & Hrun & Hsame & Hin & _).
  unfold eval, exec. rewrite Hrun. cbn [fst snd].
  split; [reflexivity|]. split; assumption.
Qed.

(** X13: with a text input that is empty once it is set to the empty text,
    setting any query and then the empty query shows the line store again:
    no query is compiled and the line view is the lines, as before.  The
    filtered view is not cleared; it keeps what the first query left. *)
Theorem SetQuery_empty_restores (pattern : string) (m : Model) :
  (forall i, input_Value (input_SetValue "" i) = "") ->
  let m1 := exec (SetQuery pattern) m in
  let m2 := exec (SetQuery pattern ;; SetQuery "") m in
  eval (SetQuery pattern ;; SetQuery "") m = Ok tt /\
  queryRe m2 = None /\
  lineView m2 = lines m /\
  filtered m2 = filtered m1.
Proof.
  intros Hempty m1 m2.
  destruct (SetQuery_run pattern m) as (ma & Hrun1 & Hsame1 & _ & _).
  destruct (SetQuery_run "" ma) as (mb & Hrun2 & Hsame2 & _ & Hclear).
  destruct (Hclear (Hempty (input ma))) as [Hq Hf].
  assert (Hboth : (SetQuery pattern ;; SetQuery "") m = (Ok tt, mb)).
  { unfold bind. rewrite Hrun1. exact Hrun2. }
  unfold m1, m2, eval, exec. rewrite Hboth, Hrun1. cbn [fst snd].
  split; [reflexivity|]. split; [exact Hq|]. split; [|exact Hf].
  unfold lineView. rewrite Hq.
  unfold same_outside_query in *. decompose [and] Hsame1.
  decompose [and] Hsame2. congruence.
Qed.

End QueryFrame.

Lemma SetQuery_empty_restores_witness :
  let m := exec (Write ("abc" ++ NL ++ "xyz" ++ NL)) Plain.start in
  let m1 := exec (SetQuery "b") m in
  let m2 := exec (SetQuery "b" ;; SetQuery "") m in
  eval (SetQuery "b" ;; SetQuery "") m = Ok tt /\
  queryRe m2 = None /\
  lineView m2 = lines m /\
  filtered m2 = filtered m1.
Proof.
  intros m. apply (SetQuery_empty_restores "b" m).
  intros i. reflexivity.
Defined.

(** ** Rendering never panics *)

Section RenderTotal.

Context {D : Deps}.

(** A budget that is not negative never makes [wrapLine] panic; the height
    it reports is at least 0, and between 1 and the budget when the budget is
    at least 1. *)
Lemma wrapLine_ok (m : Model) (line : string) (maxLines width : Z) :
  0 <= maxLines < 2 ^ 63 ->
  exists wrapped k,
    wrapLine m line maxLines width = Ok (wrapped, k) /\
    0 <= k /\
    (1 <= maxLines -> 1 <= k <= maxLines).
Proof.
  intros Hm. unfold wrapLine.
  destruct (shouldHardwrap m).
  { eexists _, _. split; [reflexivity|]. lia. }
  rewrite Count_Split.
  set (rows := Split (wrap_String line width) nl).
  pose proof (len_nonneg rows) as Hrows.
  destruct (maxLines <? len rows) eqn:Hclip.
  - apply Z.ltb_lt in Hclip.
    destruct (scrollPosition m <? 0).
    + unfold lastNLines. fold rows. unfold slice_from.
      set (lo := Z.max 0 (sub (len rows) maxLines)).
      assert (Hlo : 0 <= lo <= len rows).
      { unfold lo, sub. pose proof (wrap_range (len rows - maxLines)) as Hw.
        destruct (Z_lt_le_dec (len rows) (2 ^ 63)) as [Hs|Hs].
        - rewrite wrap_small by lia. lia.
        - lia. }
      assert (Hb : (0 <=? lo) && (lo <=? len rows) = true).
      { rewrite andb_true_iff. split; apply Z.leb_le; lia. }
      rewrite Hb. cbn [bindR]. eexists _, _. split; [reflexivity|]. lia.
    + unfold firstNLines. fold rows. unfold slice_to.
      assert (Hb : (0 <=? Z.min maxLines (len rows)) &&
                   (Z.min maxLines (len rows) <=? len rows) = true).
      { rewrite andb_true_iff. split; apply Z.leb_le; lia. }
      rewrite Hb. cbn [bindR]. eexists _, _. split; [reflexivity|]. lia.
  - apply Z.ltb_ge in Hclip.
    destruct (Split_cons (wrap_String line width) nl) as (h & t & Hs).
    assert (1 <= len rows).
    { unfold rows, len. rewrite Hs. simpl List.length. lia. }
    eexists _, _. split; [reflexivity|]. lia.
Qed.

Lemma at_index_lt {A : Type} (l : list A) (i : nat) :
  (i < List.length l)%nat ->
  exists a, at_index l (Z.of_nat i) = Ok a /\ In a l.
Proof.
  intros Hi. unfold at_index.
  assert (Hb : (Z.of_nat i <? 0) = false) by (apply Z.ltb_ge; lia).
  rewrite Hb, Nat2Z.id.
  destruct (nth_error l i) as [a|] eqn:Hn.
  - exists a. split; [reflexivity|]. eapply nth_error_In. exact Hn.
  - apply nth_error_None in Hn. lia.
Qed.

Lemma tail_loop_ok (m : Model) (view : list string) (width targetHeight : Z)
    (n : nat) :
  targetHeight < 2 ^ 63 ->
  (n <= List.length view)%nat ->
  forall output outputHeight,
    0 <= outputHeight ->
    exists output' outputHeight' pointer,
      tail_loop m view width targetHeight n output outputHeight
      = Ok (output', outputHeight', pointer).
Proof.
  intros Ht. induction n as [|n IH]; intros Hn output oh Hoh.
  - eexists _, _, _. reflexivity.
  - cbn [tail_loop]. destruct (oh <? targetHeight) eqn:Hlt;
      [|eexists _, _, _; reflexivity].
    apply Z.ltb_lt in Hlt.
    destruct (at_index_lt view n) as (l & Hl & _); [lia|].
    rewrite Hl. cbn [bindR].
    assert (Hsub : sub targetHeight oh = targetHeight - oh)
      by (unfold sub; apply wrap_small; lia).
    destruct (wrapLine_ok m l (sub targetHeight oh) width)
      as (wrapped & k & Hw & Hk0 & Hk); [lia|].
    rewrite Hw. cbn [bindR].
    assert (Hadd : add oh k = oh + k) by (unfold add; apply wrap_small; lia).
    rewrite Hadd. apply IH; lia.
Qed.

Lemma pinned_loop_ok (m : Model) (rest : list string) (width targetHeight : Z) :
  targetHeight < 2 ^ 63 ->
  forall output outputHeight,
    0 <= outputHeight ->
    exists output' outputHeight',
      pinned_loop m rest width targetHeight output outputHeight
      = Ok (output', outputHeight') /\
      0 <= outputHeight'.
Proof.
  intros Ht. induction rest as [|l rest IH]; intros output oh Hoh.
  - eexists _, _. split; [reflexivity | exact Hoh].
  - cbn [pinned_loop]. destruct (oh <? targetHeight) eqn:Hlt;
      [|eexists _, _; split; [reflexivity | exact Hoh]].
    apply Z.ltb_lt in Hlt.
    assert (Hsub : sub targetHeight oh = targetHeight - oh)
      by (unfold sub; apply wrap_small; lia).
    destruct (wrapLine_ok m l (sub targetHeight oh) width)
      as (wrapped & k & Hw & Hk0 & Hk); [lia|].
    rewrite Hw. cbn [bindR].
    assert (Hadd : add oh k = oh + k) by (unfold add; apply wrap_small; lia).
    rewrite Hadd. apply IH; lia.
Qed.

(** [RenderLog] returns for a width and a height that are not negative. *)
Lemma RenderLog_ok (m : Model) (width height : Z) :
  0 <= width ->
  0 <= height < 2 ^ 63 ->
  exists output, eval (RenderLog width height) m = Ok output.
Proof.
  intros Hw Hh.
  unfold eval, RenderLog, bind, get, modify, reads, ret.
  destruct (scrollPosition m <? 0).
  - (* tailing *)
    assert (Hstart : exists output outputHeight,
               (if negb (buffer m =? "")%string
                then let? '(wrapped, wrappedHeight) :=
                       wrapLine m (buffer m) height width in
                     Ok (NL ++ wrapped, wrappedHeight)
                else Ok ("", 0)) = Ok (output, outputHeight) /\
               0 <= outputHeight).
    { destruct (negb (buffer m =? "")%string).
      - destruct (wrapLine_ok m (buffer m) height width)
          as (wrapped & k & Hk & Hk0 & _); [lia|].
        rewrite Hk. cbn [bindR]. eexists _, _. split; [reflexivity | exact Hk0].
      - eexists _, _. split; [reflexivity | lia]. }
    destruct Hstart as (output & oh & Hstart & Hoh). rewrite Hstart.
    destruct (tail_loop_ok m (lineView m) width height
                (List.length (lineView m)) ltac:(lia) ltac:(lia) output oh Hoh)
      as (output' & oh' & pointer & Hloop).
    cbv beta iota. rewrite Hloop. cbv beta iota.
    destruct (oh' <? height).
    + unfold Repeat.
      assert (Hb : (width <? 0) = false) by (apply Z.ltb_ge; lia).
      rewrite Hb. cbn [bindR fst]. eexists. reflexivity.
    + cbn [fst]. eexists. reflexivity.
  - (* pinned *)
    assert (Ht : 0 <= logHeight m height < 2 ^ 63).
    { unfold logHeight, sub. pose proof (wrap_range (height - 1)).
      destruct (negb (shouldShowStatusbar m)); lia. }
    set (m1 := set_firstDisplayedLine (scrollPosition m) m).
    destruct (pinned_loop_ok m1
                (skipn (Z.to_nat (scrollPosition m1)) (lineView m))
                width (logHeight m height) ltac:(lia) "" 0 ltac:(lia))
      as (output & oh & Hloop & Hoh).
    rewrite Hloop. cbv beta iota.
    destruct ((oh <? logHeight m height) && negb (buffer m1 =? "")%string)
      eqn:Hcond.
    + apply andb_true_iff in Hcond. destruct Hcond as [Hlt _].
      apply Z.ltb_lt in Hlt.
      assert (Hsub : sub (logHeight m height) oh = logHeight m height - oh)
        by (unfold sub; apply wrap_small; lia).
      destruct (wrapLine_ok m1 (buffer m1) (sub (logHeight m height) oh) width)
        as (wrapped & k & Hk & _ & _); [lia|].
      rewrite Hk. cbn [bindR fst]. eexists. reflexivity.
    + cbn [fst]. eexists. reflexivity.
Qed.

(** X14: [Render] never panics: for every model, every styles, every width
    and every height (an [int], so below [2 ^ 63]) it returns a frame. *)
Theorem Render_never_panics (styles : Styles) (width height : Z) (m : Model) :
  height < 2 ^ 63 ->
  exists frame, eval (Render styles width height) m = Ok frame.
Proof.
  intros Hh. unfold eval, Render.
  destruct ((width <=? 0) || (height <=? 0)) eqn:Hdeg.
  { eexists. reflexivity. }
  apply orb_false_iff in Hdeg. destruct Hdeg as [Hw Hh0].
  apply Z.leb_gt in Hw. apply Z.leb_gt in Hh0.
  unfold bind at 1. unfold get at 1.
  destruct ((height <? 2) || negb (shouldShowStatusbar m)) eqn:Hbar.
  - destruct (RenderLog_ok m width height) as (content & Hc); [lia | lia |].
    unfold eval in Hc. unfold bind.
    destruct (RenderLog width height m) as [[c|e] m1]; cbn [fst] in Hc;
      [|discriminate Hc].
    eexists. reflexivity.
  - apply orb_false_iff in Hbar. destruct Hbar as [H2 _].
    apply Z.ltb_ge in H2.
    assert (Hsub : sub height 1 = height - 1)
      by (unfold sub; apply wrap_small; lia).
    destruct (RenderLog_ok m width (sub height 1)) as (content & Hc);
      [lia | lia |].
    unfold eval in Hc. unfold bind.
    destruct (RenderLog width (sub height 1) m) as [[c|e] m1]; cbn [fst] in Hc;
      [|discriminate Hc].
    unfold get. eexists. reflexivity.
Qed.

End RenderTotal.

Lemma Render_never_panics_witness :
  exists frame,
    eval (Render Plain.styles 3 2)
      (exec (Write ("abcdefgh" ++ NL ++ "xy")) Plain.start) = Ok frame.
Proof. apply Render_never_panics. lia. Defined.

(** ** A tailing render fills the height it is given *)

Lemma Count_app (s t : string) (c : ascii) :
  Count (s ++ t) c = Count s c + Count t c.
Proof. induction s as [|d s IH]; simpl; [reflexivity | rewrite IH; lia]. Qed.

Lemma Count_absent (s : string) (c : ascii) :
  contains_byte s c = false -> Count s c = 0.
Proof.
  induction s as [|d s IH]; simpl; intros H; [reflexivity|].
  apply orb_false_iff in H. destruct H as [Hd Hs].
  rewrite Hd, IH by assumption. reflexivity.
Qed.

Lemma Count_NL : Count NL nl = 1.
Proof. reflexivity. Qed.

(** Rows that hold no newline, joined by newlines, are that many rows. *)
Lemma Count_Join (rows : list string) :
  Forall (fun r => contains_byte r nl = false) rows ->
  rows <> [] ->
  Count (Join rows NL) nl + 1 = len rows.
Proof.
  unfold len. induction 1 as [|r rows Hr Hrows IH]; intros Hne;
    [contradiction|].
  destruct rows as [|r' rows].
  - cbn. rewrite Count_absent by assumption. reflexivity.
  - rewrite Join_cons, !Count_app, Count_NL, (Count_absent r) by assumption.
    specialize (IH ltac:(discriminate)). cbn [List.length] in *. lia.
Qed.

Lemma Count_spaces (n : nat) : Count (repeat_string " " n) nl = 0.
Proof. induction n as [|n IH]; [reflexivity|]. cbn. exact IH. Qed.

Lemma Count_pad_loop (pad : string) (n : nat) :
  forall output,
    Count (pad_loop pad n output) nl
    = Z.of_nat n * Count pad nl + Count output nl.
Proof.
  induction n as [|n IH]; intros output; [cbn; lia|].
  cbn [pad_loop]. rewrite IH, Count_app. lia.
Qed.

Section TailingRows.

Context {D : Deps}.

(** The reflow of [line] at [width] has fewer than [2 ^ 63] rows, as every
    Go slice has. *)
Definition reflow_sized (width : Z) (line : string) : Prop :=
  len (Split (wrap_String line width) nl) < 2 ^ 63.

(** In soft-wrap mode the text [wrapLine] returns has as many rows as the
    height it reports. *)
Lemma wrapLine_rows (m : Model) (line : string) (maxLines width : Z) :
  shouldHardwrap m = false ->
  1 <= maxLines < 2 ^ 63 ->
  reflow_sized width line ->
  exists wrapped k,
    wrapLine m line maxLines width = Ok (wrapped, k) /\
    1 <= k <= maxLines /\
    Count wrapped nl + 1 = k.
Proof.
  intros Hsoft Hm Hsized. unfold reflow_sized in Hsized.
  unfold wrapLine. rewrite Hsoft, Count_Split.
  set (rows := Split (wrap_String line width) nl) in *.
  pose proof (Split_no_sep (wrap_String line width) nl) as Hclean.
  fold rows in Hclean.
  destruct (maxLines <? len rows) eqn:Hclip.
  - apply Z.ltb_lt in Hclip.
    rewrite <- (firstn_skipn (Z.to_nat (len rows - maxLines)) rows) in Hclean.
    apply Forall_app in Hclean. destruct Hclean as [_ Hlast].
    pose proof (Split_no_sep (wrap_String line width) nl) as Hclean.
    fold rows in Hclean.
    rewrite <- (firstn_skipn (Z.to_nat maxLines) rows) in Hclean.
    apply Forall_app in Hclean. destruct Hclean as [Hfirst _].
    destruct (scrollPosition m <? 0).
    + unfold lastNLines. fold rows. unfold sub.
      rewrite wrap_small by lia. rewrite Z.max_r by lia.
      unfold slice_from.
      assert (Hb : (0 <=? len rows - maxLines) &&
                   (len rows - maxLines <=? len rows) = true).
      { rewrite andb_true_iff. split; apply Z.leb_le; lia. }
      rewrite Hb. cbn [bindR]. eexists _, _. split; [reflexivity|].
      split; [lia|].
      assert (Hlen : len (skipn (Z.to_nat (len rows - maxLines)) rows)
                     = maxLines).
      { unfold len in *. rewrite length_skipn. lia. }
      rewrite Count_Join; [exact Hlen | exact Hlast |].
      intros He. rewrite He in Hlen. cbn in Hlen. lia.
    + unfold firstNLines. fold rows. rewrite Z.min_l by lia.
      unfold slice_to.
      assert (Hb : (0 <=? maxLines) && (maxLines <=? len rows) = true).
      { rewrite andb_true_iff. split; apply Z.leb_le; lia. }
      rewrite Hb. cbn [bindR]. eexists _, _. split; [reflexivity|].
      split; [lia|].
      assert (Hlen : len (firstn (Z.to_nat maxLines) rows) = maxLines).
      { unfold len in *. rewrite length_firstn. lia. }
      rewrite Count_Join; [exact Hlen | exact Hfirst |].
      intros He. rewrite He in Hlen. cbn in Hlen. lia.
  - apply Z.ltb_ge in Hclip.
    destruct (Split_cons (wrap_String line width) nl) as (h & t & Hs).
    assert (1 <= len rows).
    { unfold rows, len. rewrite Hs. simpl List.length. lia. }
    eexists _, _. split; [reflexivity|].
    split; [lia|]. unfold rows. apply Count_Split.
Qed.

(** What the tailing loop keeps: nothing is painted yet, or the output is a
    newline followed by as many rows as [outputHeight] counts. *)
Definition tail_rows (output : string) (outputHeight : Z) : Prop :=
  (outputHeight = 0 /\ output = "") \/
  (1 <= outputHeight /\
   exists painted, output = NL ++ painted /\
                   Count painted nl + 1 = outputHeight).

Lemma tail_loop_rows (m : Model) (view : list string) (width targetHeight : Z)
    (n : nat) :
  shouldHardwrap m = false ->
  targetHeight < 2 ^ 63 ->
  Forall (reflow_sized width) view ->
  (n <= List.length view)%nat ->
  forall output outputHeight,
    tail_rows output outputHeight ->
    outputHeight <= targetHeight ->
    exists output' outputHeight' pointer,
      tail_loop m view width targetHeight n output outputHeight
      = Ok (output', outputHeight', pointer) /\
      tail_rows output' outputHeight' /\
      outputHeight' <= targetHeight /\
      (1 <= outputHeight \/ (1 <= n)%nat /\ outputHeight < targetHeight ->
       1 <= outputHeight').
Proof.
  intros Hsoft Ht Hsized. induction n as [|n IH]; intros Hn output oh HJ Hle.
  - eexists _, _, _. split; [reflexivity|]. split; [exact HJ|].
    split; [exact Hle|]. intros [H|[H _]]; [exact H | lia].
  - assert (Hoh : 0 <= oh) by (destruct HJ as [[-> _]|[H _]]; lia).
    cbn [tail_loop]. destruct (oh <? targetHeight) eqn:Hlt.
    + apply Z.ltb_lt in Hlt.
      destruct (at_index_lt view n) as (l & Hl & Hin); [lia|].
      rewrite Hl. cbn [bindR].
      assert (Hsub : sub targetHeight oh = targetHeight - oh)
        by (unfold sub; apply wrap_small; lia).
      rewrite Forall_forall in Hsized.
      destruct (wrapLine_rows m l (sub targetHeight oh) width Hsoft)
        as (wrapped & k & Hw & Hk & Hrows); [lia | now apply Hsized |].
      rewrite Hw. cbn [bindR].
      assert (Hadd : add oh k = oh + k) by (unfold add; apply wrap_small; lia).
      rewrite Hadd.
      assert (HJ' : tail_rows (NL ++ wrapped ++ output) (oh + k)).
      { right. split; [lia|]. exists (wrapped ++ output).
        split; [reflexivity|].
        destruct HJ as [[-> ->]|[_ (painted & -> & Hp)]].
        - rewrite append_nil_r. lia.
        - rewrite !Count_app, Count_NL. lia. }
      destruct (IH ltac:(lia) (NL ++ wrapped ++ output) (oh + k) HJ' ltac:(lia))
        as (output' & oh' & pointer & Hrun & HJ'' & Hle' & Hmore).
      eexists _, _, _. split; [exact Hrun|]. split; [exact HJ''|].
      split; [exact Hle'|]. intros _. apply Hmore. left. lia.
    + apply Z.ltb_ge in Hlt.
      eexists _, _, _. split; [reflexivity|]. split; [exact HJ|].
      split; [exact Hle|]. intros [H|[_ H]]; [exact H | lia].
Qed.

(** In soft-wrap mode a tailing [RenderLog] over a store that is not empty
    returns [height] rows and does not panic. *)
Lemma RenderLog_tailing_count (m : Model) (width height : Z) :
  shouldHardwrap m = false ->
  scrollPosition m < 0 ->
  0 <= width ->
  1 <= height < 2 ^ 63 ->
  lineView m <> [] \/ buffer m <> "" ->
  Forall (reflow_sized width) (buffer m :: lineView m) ->
  exists output,
    eval (RenderLog width height) m = Ok output /\
    Count output nl + 1 = height.
Proof.
  intros Hsoft Htail Hw Hh Hstore Hsized.
  inversion Hsized as [|b v Hbuf Hview]; subst.
  assert (Hp : (scrollPosition m <? 0) = true) by (apply Z.ltb_lt; lia).
  unfold eval, RenderLog, bind, get, modify, reads, ret. rewrite Hp.
  assert (Hstart : exists output oh,
             (if negb (buffer m =? "")%string
              then let? '(wrapped, wrappedHeight) :=
                     wrapLine m (buffer m) height width in
                   Ok (NL ++ wrapped, wrappedHeight)
              else Ok ("", 0)) = Ok (output, oh) /\
             tail_rows output oh /\ oh <= height /\
             (buffer m <> "" -> 1 <= oh)).
  { destruct (String.eqb_spec (buffer m) "") as [He|Hne]; cbn [negb].
    - eexists _, _. split; [reflexivity|]. split; [left; split; reflexivity|].
      split; [lia | contradiction].
    - destruct (wrapLine_rows m (buffer m) height width Hsoft Hh Hbuf)
        as (wrapped & k & Hk & Hrange & Hrows).
      rewrite Hk. cbn [bindR]. eexists _, _. split; [reflexivity|].
      split; [|split; [lia | intros _; lia]].
      right. split; [lia|]. exists wrapped. split; [reflexivity | exact Hrows]. }
  destruct Hstart as (output & oh & Hstart & HJ & Hle & Hbufrows).
  rewrite Hstart. cbv beta iota.
  destruct (tail_loop_rows m (lineView m) width height
              (List.length (lineView m)) Hsoft ltac:(lia) Hview ltac:(lia)
              output oh HJ Hle)
    as (output' & oh' & pointer & Hloop & HJ' & Hle' & Hmore).
  rewrite Hloop. cbv beta iota.
  assert (Hpainted : 1 <= oh').
  { apply Hmore.
    destruct (String.eqb_spec (buffer m) "") as [He|Hne].
    - destruct Hstore as [Hv|Hb]; [|contradiction].
      right. split.
      + destruct (lineView m); [contradiction | simpl; lia].
      + destruct HJ as [[-> _]|[H1 _]]; [lia|].
        destruct (negb (buffer m =? "")%string) eqn:E.
        * rewrite He in E. discriminate E.
        * inversion Hstart. lia.
    - left. apply Hbufrows. exact Hne. }
  destruct HJ' as [[H0 _]|[_ (painted & -> & Hrows)]]; [lia|].
  rewrite TrimPrefix_NL.
  destruct (oh' <? height) eqn:Hshort.
  - apply Z.ltb_lt in Hshort. unfold Repeat.
    assert (Hb : (width <? 0) = false) by (apply Z.ltb_ge; lia).
    rewrite Hb. cbn [bindR fst]. eexists. split; [reflexivity|].
    rewrite Count_pad_loop, Count_app, Count_spaces, Count_NL. lia.
  - apply Z.ltb_ge in Hshort. cbn [fst]. eexists. split; [reflexivity|]. lia.
Qed.

(** The rows of a line wrapped at [width]. *)
Definition reflow_rows (width : Z) (line : string) : list string :=
  Split (wrap_String line width) nl.

(** The rows of the wrapped content, oldest first: those of the line view,
    then those of the buffer when it is not empty. *)
Definition wrapped_rows (m : Model) (width : Z) : list string :=
  flat_map (reflow_rows width)
    (lineView m ++ if negb (buffer m =? "")%string then [buffer m] else []).

(** The newest [k] of the rows, all of them when they are fewer. *)
Definition newest (k : nat) (rows : list string) : list string :=
  skipn (List.length rows - k) rows.

(** Rows, each after a newline: how the tailing loop holds its output. *)
Fixpoint stacked (rows : list string) : string :=
  match rows with
  | [] => ""
  | r :: rest => NL ++ r ++ stacked rest
  end.

Lemma stacked_app (a b : list string) :
  stacked (a ++ b) = stacked a ++ stacked b.
Proof.
  induction a as [|r a IH]; [reflexivity|].
  cbn [app stacked]. rewrite IH, !append_assoc. reflexivity.
Qed.

Lemma stacked_Join (rows : list string) :
  rows <> [] -> stacked rows = NL ++ Join rows NL.
Proof.
  induction rows as [|r rows IH]; intros Hne; [contradiction|].
  destruct rows as [|r' rows].
  - cbn. now rewrite append_nil_r.
  - cbn [stacked] in IH |- *. rewrite Join_cons.
    rewrite IH by discriminate. reflexivity.
Qed.

Lemma newest_length (k : nat) (rows : list string) :
  List.length (newest k rows) = Nat.min k (List.length rows).
Proof. unfold newest. rewrite length_skipn. lia. Qed.

Lemma newest_all (k : nat) (rows : list string) :
  (List.length rows <= k)%nat -> newest k rows = rows.
Proof.
  intros H. unfold newest.
  replace (List.length rows - k)%nat with 0%nat by lia. reflexivity.
Qed.

Lemma newest_app (k : nat) (a b : list string) :
  (List.length b <= k)%nat ->
  newest k (a ++ b) = (newest (k - List.length b) a ++ b)%list.
Proof.
  intros H. unfold newest. rewrite length_app, skipn_app.
  replace (List.length a + List.length b - k - List.length a)%nat
    with 0%nat by lia.
  replace (List.length a + List.length b - k)%nat
    with (List.length a - (k - List.length b))%nat by lia.
  reflexivity.
Qed.

Lemma newest_app_full (k : nat) (a b : list string) :
  (k <= List.length b)%nat -> newest k (a ++ b) = newest k b.
Proof.
  intros H. unfold newest. rewrite length_app, skipn_app.
  replace (List.length a + List.length b - k - List.length a)%nat
    with (List.length b - k)%nat by lia.
  rewrite skipn_all2 by lia. reflexivity.
Qed.

Lemma reflow_rows_cons (width : Z) (line : string) :
  (1 <= List.length (reflow_rows width line))%nat.
Proof.
  unfold reflow_rows.
  destruct (Split_cons (wrap_String line width) nl) as (h & t & ->).
  simpl. lia.
Qed.

(** While tailing, in soft-wrap mode, [wrapLine] returns the newest
    [maxLines] rows of the line, joined, and their number. *)
Lemma wrapLine_newest (m : Model) (line : string) (maxLines width : Z) :
  shouldHardwrap m = false ->
  scrollPosition m < 0 ->
  1 <= maxLines < 2 ^ 63 ->
  reflow_sized width line ->
  let kept := newest (Z.to_nat maxLines) (reflow_rows width line) in
  wrapLine m line maxLines width = Ok (Join kept NL, len kept).
Proof.
  intros Hsoft Htail Hm Hsized kept. unfold reflow_sized in Hsized.
  unfold wrapLine. rewrite Hsoft, Count_Split.
  unfold kept, reflow_rows.
  set (rows := Split (wrap_String line width) nl) in *.
  destruct (maxLines <? len rows) eqn:Hclip.
  - apply Z.ltb_lt in Hclip.
    assert (Hp : (scrollPosition m <? 0) = true) by (apply Z.ltb_lt; lia).
    rewrite Hp. unfold lastNLines. fold rows. unfold sub.
    rewrite wrap_small by lia. rewrite Z.max_r by lia.
    unfold slice_from.
    assert (Hb : (0 <=? len rows - maxLines) &&
                 (len rows - maxLines <=? len rows) = true).
    { rewrite andb_true_iff. split; apply Z.leb_le; lia. }
    rewrite Hb. cbn [bindR]. unfold newest.
    replace (Z.to_nat (len rows - maxLines))
      with (List.length rows - Z.to_nat maxLines)%nat by (unfold len in *; lia).
    do 2 f_equal. unfold len in *. rewrite length_skipn. lia.
  - apply Z.ltb_ge in Hclip.
    rewrite newest_all by (unfold len in *; lia).
    unfold rows. pose proof (Join_Split (wrap_String line width) nl) as HJ.
    fold NL in HJ. rewrite HJ. reflexivity.
Qed.

(** The tailing loop, from a state that holds the newest rows of what
    follows line [n], ends in the state that holds the newest rows of all. *)
Lemma tail_loop_newest (m : Model) (view : list string) (width targetHeight : Z)
    (below : list string) :
  shouldHardwrap m = false ->
  scrollPosition m < 0 ->
  1 <= targetHeight < 2 ^ 63 ->
  Forall (reflow_sized width) view ->
  forall n,
    (n <= List.length view)%nat ->
    let all := (flat_map (reflow_rows width) view ++ below)%list in
    let held :=
      newest (Z.to_nat targetHeight)
        (flat_map (reflow_rows width) (skipn n view) ++ below)%list in
    exists pointer,
      tail_loop m view width targetHeight n (stacked held) (len held)
      = Ok (stacked (newest (Z.to_nat targetHeight) all),
            len (newest (Z.to_nat targetHeight) all), pointer).
Proof.
  intros Hsoft Htail Ht Hsized.
  set (H := Z.to_nat targetHeight).
  induction n as [|n IH]; intros Hn all held.
  - exists (-1). reflexivity.
  - cbn [tail_loop].
    set (after := (flat_map (reflow_rows width) (skipn (S n) view) ++ below)%list)
      in *.
    assert (Hheld : List.length held = Nat.min H (List.length after))
      by apply newest_length.
    destruct (at_index_lt view n) as (l & Hl & Hin); [lia|].
    assert (Hnth : nth_error view n = Some l).
    { unfold at_index in Hl.
      destruct (Z.of_nat n <? 0); [discriminate|].
      rewrite Nat2Z.id in Hl.
      destruct (nth_error view n); [now inversion Hl | discriminate]. }
    assert (Hskip : skipn n view = l :: skipn (S n) view).
    { clear - Hnth. revert n Hnth.
      induction view as [|x view IHv]; intros [|n] Hnth; try discriminate.
      - now inversion Hnth.
      - cbn [skipn]. apply IHv. exact Hnth. }
    destruct (len held <? targetHeight) eqn:Hlt.
    + apply Z.ltb_lt in Hlt.
      assert (Hfew : (List.length after < H)%nat) by (unfold len in Hlt; lia).
      assert (Hall : held = after) by (apply newest_all; lia).
      rewrite Hl. cbn [bindR].
      assert (Hsub : sub targetHeight (len held) = targetHeight - len held).
      { unfold sub. apply wrap_small. unfold len. lia. }
      rewrite Forall_forall in Hsized.
      rewrite Hsub.
      rewrite (wrapLine_newest m l (targetHeight - len held) width Hsoft Htail)
        by (unfold len; try apply Hsized; try lia; exact Hin).
      cbn [bindR].
      set (kept := newest (Z.to_nat (targetHeight - len held))
                     (reflow_rows width l)).
      assert (Hkept : (1 <= List.length kept <= H - List.length held)%nat).
      { unfold kept. rewrite newest_length.
        pose proof (reflow_rows_cons width l). unfold len. lia. }
      assert (Hadd : add (len held) (len kept) = len (kept ++ held)%list).
      { unfold add, len. rewrite length_app, wrap_small by lia. lia. }
      rewrite Hadd.
      assert (Hstack : NL ++ Join kept NL ++ stacked held
                       = stacked (kept ++ held)%list).
      { rewrite stacked_app, (stacked_Join kept), append_assoc; [reflexivity|].
        intros He. rewrite He in Hkept. simpl in Hkept. lia. }
      rewrite Hstack.
      assert (Hnext : (kept ++ held)%list
                      = newest H (flat_map (reflow_rows width) (skipn n view)
                                    ++ below)%list).
      { rewrite Hskip. cbn [flat_map]. rewrite <- app_assoc. fold after.
        rewrite newest_app by lia. rewrite Hall. unfold kept. do 2 f_equal.
        unfold len. lia. }
      rewrite Hnext. apply IH. lia.
    + apply Z.ltb_ge in Hlt.
      assert (Hfull : (H <= List.length after)%nat) by (unfold len in Hlt; lia).
      eexists. do 2 f_equal.
      assert (Hsame : newest H all = held).
      { unfold all, held. fold after.
        rewrite <- (firstn_skipn (S n) view) at 1.
        rewrite flat_map_app, <- app_assoc. fold after.
        apply newest_app_full. exact Hfull. }
      rewrite Hsame. reflexivity.
Qed.

Lemma pad_loop_Join (blank : string) (n : nat) (rows : list string) :
  rows <> [] ->
  pad_loop (blank ++ NL) n (Join rows NL)
  = Join (repeat blank n ++ rows) NL.
Proof.
  intros Hne. revert rows Hne.
  induction n as [|n IH]; intros rows Hne; [reflexivity|].
  cbn [pad_loop].
  assert (Hstep : (blank ++ NL) ++ Join rows NL = Join (blank :: rows) NL).
  { destruct rows as [|r rows]; [contradiction|].
    rewrite Join_cons, append_assoc. reflexivity. }
  rewrite Hstep, IH by discriminate.
  f_equal. change (blank :: rows) with ([blank] ++ rows)%list.
  rewrite app_assoc, <- repeat_cons. reflexivity.
Qed.

(** X15: in soft-wrap mode a tailing [RenderLog] over a store that is not
    empty returns exactly [height] rows, for every height of at least 1 and
    every width that is not negative: the newest [height] rows of the
    wrapped content (the line view, then the buffer), oldest first, with
    blank rows of [width] spaces above them when they are fewer.  It does
    not panic. *)
Theorem RenderLog_tailing_rows (m : Model) (width height : Z) :
  shouldHardwrap m = false ->
  scrollPosition m < 0 ->
  0 <= width ->
  1 <= height < 2 ^ 63 ->
  lineView m <> [] \/ buffer m <> "" ->
  Forall (reflow_sized width) (buffer m :: lineView m) ->
  let shown := newest (Z.to_nat height) (wrapped_rows m width) in
  let blank := repeat_string " " (Z.to_nat width) in
  let output :=
    Join (repeat blank (Z.to_nat height - List.length shown) ++ shown) NL in
  eval (RenderLog width height) m = Ok output /\
  Count output nl + 1 = height.
Proof.
  intros Hsoft Htail Hw Hh Hstore Hsized shown blank output.
  destruct (RenderLog_tailing_count m width height
              Hsoft Htail Hw Hh Hstore Hsized) as (counted & Hrun & Hcount).
  assert (Hout : eval (RenderLog width height) m = Ok output).
  { clear counted Hrun Hcount.
    inversion Hsized as [|b v Hbuf Hview]; subst.
    assert (Hp : (scrollPosition m <? 0) = true) by (apply Z.ltb_lt; lia).
    unfold eval, RenderLog, bind, get, modify, reads, ret. rewrite Hp.
    set (below := if negb (buffer m =? "")%string
                  then reflow_rows width (buffer m) else []).
    assert (Hrows : wrapped_rows m width
                    = (flat_map (reflow_rows width) (lineView m) ++ below)%list).
    { unfold wrapped_rows, below. rewrite flat_map_app.
      destruct (negb (buffer m =? "")%string); cbn [flat_map];
        now rewrite ?app_nil_r. }
    assert (Hstart :
              (if negb (buffer m =? "")%string
               then let? '(wrapped, wrappedHeight) :=
                      wrapLine m (buffer m) height width in
                    Ok (NL ++ wrapped, wrappedHeight)
               else Ok ("", 0))
              = Ok (stacked (newest (Z.to_nat height) below),
                    len (newest (Z.to_nat height) below))).
    { unfold below. destruct (negb (buffer m =? "")%string).
      - rewrite (wrapLine_newest m (buffer m) height width Hsoft Htail Hh Hbuf).
        cbn [bindR]. rewrite stacked_Join; [reflexivity|].
        intros He. apply (f_equal (@List.length string)) in He.
        rewrite newest_length in He.
        pose proof (reflow_rows_cons width (buffer m)). simpl in He. lia.
      - reflexivity. }
    rewrite Hstart. cbv beta iota.
    destruct (tail_loop_newest m (lineView m) width height below
                Hsoft Htail Hh Hview (List.length (lineView m)) (Nat.le_refl _))
      as (pointer & Hloop).
    rewrite skipn_all in Hloop. cbn [flat_map app] in Hloop.
    rewrite Hloop, <- Hrows. cbv beta iota. fold shown.
    assert (Hne : shown <> []).
    { intros He. apply (f_equal (@List.length string)) in He.
      unfold shown in He. rewrite newest_length, Hrows in He.
      rewrite length_app in He. simpl in He.
      destruct Hstore as [Hv|Hb].
      - destruct (lineView m) as [|l view]; [contradiction|].
        cbn [flat_map] in He. rewrite length_app in He.
        pose proof (reflow_rows_cons width l). lia.
      - unfold below in He.
        destruct (String.eqb_spec (buffer m) "") as [Hb'|_]; [contradiction|].
        cbn [negb] in He. pose proof (reflow_rows_cons width (buffer m)). lia. }
    rewrite (stacked_Join shown Hne), TrimPrefix_NL.
    assert (Hlen : List.length shown
                   = Nat.min (Z.to_nat height)
                       (List.length (wrapped_rows m width)))
      by apply newest_length.
    destruct (len shown <? height) eqn:Hshort.
    - apply Z.ltb_lt in Hshort. unfold Repeat.
      assert (Hb : (width <? 0) = false) by (apply Z.ltb_ge; lia).
      rewrite Hb. cbn [bindR fst]. fold blank.
      rewrite pad_loop_Join by exact Hne.
      unfold output.
      replace (Z.to_nat (height - len shown))
        with (Z.to_nat height - List.length shown)%nat by (unfold len; lia).
      reflexivity.
    - apply Z.ltb_ge in Hshort. cbn [fst]. unfold output.
      replace (Z.to_nat height - List.length shown)%nat with 0%nat
        by (unfold len in Hshort; lia).
      reflexivity. }
  split; [exact Hout|].
  rewrite Hout in Hrun. injection Hrun as Hsame. rewrite Hsame. exact Hcount.
Qed.

End TailingRows.

Lemma RenderLog_tailing_rows_witness :
  let m := exec (Write ("abcdefgh" ++ NL ++ "xy")) Plain.start in
  let shown := newest (Z.to_nat 6) (wrapped_rows m 3) in
  let blank := repeat_string " " (Z.to_nat 3) in
  let output :=
    Join (repeat blank (Z.to_nat 6 - List.length shown) ++ shown) NL in
  (shown = ["abc"; "def"; "gh"; "xy"] /\
   output = "   " ++ NL ++ "   " ++ NL ++
            "abc" ++ NL ++ "def" ++ NL ++ "gh" ++ NL ++ "xy") /\
  eval (RenderLog 3 6) m = Ok output /\
  Count output nl + 1 = 6.
Proof.
  intros m. split; [split; reflexivity|].
  apply (RenderLog_tailing_rows m 3 6).
  - reflexivity.
  - reflexivity.
  - lia.
  - lia.
  - right. vm_compute. discriminate.
  - unfold reflow_sized.
    repeat (apply Forall_cons; [vm_compute; reflexivity|]).
    apply Forall_nil.
Defined.

(** ** Lines the scanner cannot hold *)

Lemma scan_segments_head (content : string) (s0 : string) (r : list string) :
  Split content nl = s0 :: r ->
  s0 <> "" ->
  exists r', scan_segments content = s0 :: r'.
Proof.
  intros Hs Hne. unfold scan_segments. rewrite Hs.
  destruct (last (s0 :: r) "" =? "")%string eqn:He; [|eexists; reflexivity].
  destruct r as [|s1 r].
  - cbn [last] in He. apply String.eqb_eq in He. contradiction.
  - eexists. reflexivity.
Qed.

Lemma scan_segments_second (content : string) (s0 s1 : string)
    (r : list string) :
  Split content nl = s0 :: s1 :: r ->
  s1 <> "" ->
  exists r', scan_segments content = s0 :: s1 :: r'.
Proof.
  intros Hs Hne. unfold scan_segments. rewrite Hs.
  destruct (last (s0 :: s1 :: r) "" =? "")%string eqn:He;
    [|eexists; reflexivity].
  destruct r as [|s2 r].
  - cbn [last] in He. apply String.eqb_eq in He. contradiction.
  - eexists. reflexivity.
Qed.

(** A line without a newline, a newline, and what follows. *)
Lemma Split_line (s rest : string) :
  contains_byte s nl = false ->
  Split (s ++ String nl rest) nl = s :: Split rest nl.
Proof.
  induction s as [|c s IH]; intros H.
  - cbn. reflexivity.
  - simpl in H. apply orb_false_iff in H. destruct H as [Hc Hs].
    cbn [append Split]. rewrite Hc, IH by assumption. reflexivity.
Qed.

Lemma long_not_empty (s : string) : MaxScanTokenSize <= slen s -> s <> "".
Proof. intros H ->. unfold slen, MaxScanTokenSize in H. simpl in H. lia. Qed.

Section TooLong.

Context {D : Deps}.

(** X16: when the first line of the content has [MaxScanTokenSize] bytes or
    more, [handleWrite] returns without a panic and leaves the model as it
    was: the whole content is dropped, whatever follows the line. *)
Theorem handleWrite_first_line_too_long (content : string) (m : Model) :
  MaxScanTokenSize <= slen (hd "" (Split content nl)) ->
  handleWrite content m = (Ok tt, m).
Proof.
  intros Hlong.
  destruct (Split_cons content nl) as (s0 & r & Hs). rewrite Hs in Hlong.
  cbn [hd] in Hlong.
  destruct (scan_segments_head content s0 r Hs (long_not_empty s0 Hlong))
    as (r' & Hseg).
  unfold handleWrite, NewScanner. rewrite Hseg. cbn [deliver].
  assert (Hb : (MaxScanTokenSize <=? slen s0) = true) by (apply Z.leb_le; lia).
  rewrite Hb. reflexivity.
Qed.

(** X17: when the first line of the content fits the scanner and the second
    has [MaxScanTokenSize] bytes or more, [handleWrite] panics with
    [ErrTooLong] after it has finished the first line: the model it leaves
    has that line appended (after the old buffer) and an empty buffer, and
    the rest of the content is lost. *)
Theorem handleWrite_second_line_too_long (first rest : string) (m : Model) :
  contains_byte first nl = false ->
  slen first < MaxScanTokenSize ->
  MaxScanTokenSize <= slen (hd "" (Split rest nl)) ->
  let content := first ++ NL ++ rest in
  eval (handleWrite content) m = Panic ErrTooLong /\
  lines (exec (handleWrite content) m)
  = (lines m ++ [(buffer m ++ dropCR first)%string])%list /\
  buffer (exec (handleWrite content) m) = "".
Proof.
  intros Hline Hshort Hlong content.
  destruct (Split_cons rest nl) as (s1 & r & Hrest). rewrite Hrest in Hlong.
  cbn [hd] in Hlong.
  assert (Hs : Split content nl = first :: s1 :: r).
  { unfold content, NL. cbn [append]. rewrite Split_line by assumption.
    now rewrite Hrest. }
  destruct (scan_segments_second content first s1 r Hs
              (long_not_empty s1 Hlong)) as (r' & Hseg).
  assert (Htok : tokens (NewScanner content) = [dropCR first] /\
                 failed (NewScanner content) = true).
  { unfold NewScanner. rewrite Hseg. cbn [deliver].
    assert (Hb0 : (MaxScanTokenSize <=? slen first) = false)
      by (apply Z.leb_gt; lia).
    assert (Hb1 : (MaxScanTokenSize <=? slen s1) = true)
      by (apply Z.leb_le; lia).
    rewrite Hb0, Hb1. split; reflexivity. }
  destruct Htok as [Htok Hfail].
  destruct (handleWrite_run content m (dropCR first) [] Htok)
    as (m3 & found & Hrun & Hl3 & Hb3 & _ & _).
  rewrite Hfail in Hrun. unfold eval, exec. rewrite Hrun. cbn [fst snd].
  split; [reflexivity|]. split; assumption.
Qed.

End TooLong.

(** A line of 64 KiB. *)
Definition long_line : string :=
  repeat_string "a" (Z.to_nat MaxScanTokenSize).

Lemma handleWrite_first_line_too_long_witness :
  handleWrite (long_line ++ NL ++ "b" ++ NL) Plain.start = (Ok tt, Plain.start).
Proof.
  apply handleWrite_first_line_too_long. vm_compute. discriminate.
Defined.

Lemma handleWrite_second_line_too_long_witness :
  let content := "b" ++ NL ++ (long_line ++ NL ++ "c") in
  let m := exec (Write "a") Plain.start in
  eval (handleWrite content) m = Panic ErrTooLong /\
  lines (exec (handleWrite content) m)
  = (lines m ++ [(buffer m ++ dropCR "b")%string])%list /\
  buffer (exec (handleWrite content) m) = "".
Proof.
  intros content m.
  apply (handleWrite_second_line_too_long "b" (long_line ++ NL ++ "c") m).
  - reflexivity.
  - reflexivity.
  - vm_compute. discriminate.
Defined.

(** ** Standard input, line by line *)

Lemma dropCR_slen (s : string) : slen (dropCR s) <= slen s.
Proof.
  unfold slen. induction s as [|c s IH]; [simpl; lia|].
  destruct s as [|d s].
  - simpl. destruct (Ascii.eqb c cr); simpl; lia.
  - change (dropCR (String c (String d s)))
      with (String c (dropCR (String d s))).
    simpl String.length in *. lia.
Qed.

(** A text the scanner delivers as one token when a newline follows it. *)
Definition one_line (text : string) : Prop :=
  contains_byte text nl = false /\ slen text < MaxScanTokenSize.

Lemma deliver_one_line (segs : list string) :
  Forall (fun seg => contains_byte seg nl = false) segs ->
  Forall one_line (fst (deliver segs)).
Proof.
  induction 1 as [|seg segs Hseg _ IH]; simpl; [constructor|].
  destruct (MaxScanTokenSize <=? slen seg) eqn:Hlong; [constructor|].
  apply Z.leb_gt in Hlong.
  destruct (deliver segs) as [ts err]. simpl in *.
  constructor; [|exact IH]. split.
  - now apply dropCR_contains.
  - pose proof (dropCR_slen seg). lia.
Qed.

Lemma tokens_one_line (content : string) :
  Forall one_line (tokens (NewScanner content)).
Proof.
  unfold NewScanner.
  pose proof (deliver_one_line (scan_segments content)
                (scan_segments_Forall _ content (Split_no_sep content nl))) as H.
  destruct (deliver (scan_segments content)) as [ts err]. exact H.
Qed.

Section Stdin.

Context {D : Deps}.

(** One line and its newline, written to a model: the line is finished. *)
Lemma Write_one_line (text : string) (m : Model) :
  one_line text ->
  exists m',
    Write (text ++ NL) m = (Ok tt, m') /\
    lines m' = (lines m ++ [(buffer m ++ dropCR text)%string])%list /\
    buffer m' = "".
Proof.
  intros [Hnl Hshort].
  assert (Hs : Split (text ++ NL) nl = [text; ""]).
  { unfold NL. now rewrite Split_line. }
  assert (Htok : tokens (NewScanner (text ++ NL)) = [dropCR text] /\
                 failed (NewScanner (text ++ NL)) = false).
  { unfold NewScanner, scan_segments. rewrite Hs. cbn [last removelast].
    cbn [String.eqb deliver].
    assert (Hb : (MaxScanTokenSize <=? slen text) = false)
      by (apply Z.leb_gt; lia).
    rewrite Hb. split; reflexivity. }
  destruct Htok as [Htok Hfail].
  destruct (handleWrite_run (text ++ NL) m (dropCR text) [] Htok)
    as (m3 & found & Hrun & Hl3 & Hb3 & _ & _).
  rewrite Hfail, HasSuffix_app in Hrun.
  exists m3. split; [exact Hrun|]. split; assumption.
Qed.

Lemma Write_lines (texts : list string) :
  Forall one_line texts ->
  forall m,
    buffer m = "" ->
    exists m',
      for_each (map (fun text => text ++ NL) texts) Write m = (Ok tt, m') /\
      lines m' = (lines m ++ map dropCR texts)%list /\
      buffer m' = "".
Proof.
  induction 1 as [|text texts Htext _ IH]; intros m Hbuf.
  - exists m. cbn. rewrite app_nil_r. repeat split. exact Hbuf.
  - destruct (Write_one_line text m Htext) as (m1 & Hrun1 & Hl1 & Hb1).
    destruct (IH m1 Hb1) as (m2 & Hrun2 & Hl2 & Hb2).
    exists m2. cbn [map for_each]. unfold bind at 1. rewrite Hrun1.
    split; [exact Hrun2|]. split; [|exact Hb2].
    rewrite Hl2, Hl1, Hbuf, <- app_assoc. reflexivity.
Qed.

(** X18: whatever standard input holds, writing what [tailStdin] sinks, in
    order, to a model with an empty buffer never panics, finishes one line
    per chunk and leaves the buffer empty.  Each line is a token of the
    scanner with one more trailing carriage return dropped; the line [EOF]
    follows them exactly when [tailStdin] returns no error, that is, when no
    line of the input has [MaxScanTokenSize] bytes or more. *)
Theorem tailStdin_feeds (stdin : string) (m : Model) :
  buffer m = "" ->
  let sc := NewScanner stdin in
  let run := for_each (fst (tailStdin stdin)) Write in
  eval run m = Ok tt /\
  buffer (exec run m) = "" /\
  lines (exec run m)
  = (lines m ++ map dropCR (tokens sc ++ if failed sc then [] else ["EOF"]))%list /\
  snd (tailStdin stdin) = if failed sc then Some ErrTooLong else None.
Proof.
  intros Hbuf sc run.
  assert (Hchunks : fst (tailStdin stdin)
                    = map (fun text => text ++ NL)
                        (tokens sc ++ if failed sc then [] else ["EOF"])%list).
  { unfold tailStdin. fold sc. destruct (failed sc); cbn [fst].
    - now rewrite app_nil_r.
    - now rewrite map_app. }
  assert (Hall : Forall one_line
                   (tokens sc ++ if failed sc then [] else ["EOF"])%list).
  { apply Forall_app. split; [apply tokens_one_line|].
    destruct (failed sc); constructor; [|constructor].
    split; reflexivity. }
  destruct (Write_lines _ Hall m Hbuf) as (m' & Hrun & Hl & Hb).
  unfold run, eval, exec. rewrite Hchunks, Hrun. cbn [fst snd].
  split; [reflexivity|]. split; [exact Hb|]. split; [exact Hl|].
  unfold tailStdin. fold sc. destruct (failed sc); reflexivity.
Qed.

End Stdin.

Lemma tailStdin_feeds_witness :
  let stdin := "one" ++ String cr (String cr NL) ++ "two" ++ NL ++ "three" in
  let m := exec (Write ("zero" ++ NL)) Plain.start in
  let sc := NewScanner stdin in
  let run := for_each (fst (tailStdin stdin)) Write in
  eval run m = Ok tt /\
  buffer (exec run m) = "" /\
  lines (exec run m)
  = (lines m ++ map dropCR (tokens sc ++ if failed sc then [] else ["EOF"]))%list /\
  snd (tailStdin stdin) = if failed sc then Some ErrTooLong else None.
Proof.
  intros stdin m. apply (tailStdin_feeds stdin m). reflexivity.
Defined.

(** ** Keys and the mouse *)

Section KeyFacts.

Context {D : Deps} {T : Tea D}.

(** The log and the geometry: the fields no message changes. *)
Definition same_log (m m' : Model) : Prop :=
  lines m' = lines m /\
  buffer m' = buffer m /\
  windowWidth m' = windowWidth m /\
  windowHeight m' = windowHeight m /\
  shouldShowStatusbar m' = shouldShowStatusbar m /\
  firstDisplayedLine m' = firstDisplayedLine m.

(** A method that never panics and keeps the log, from every model. *)
Definition safe {A : Type} (c : M Model A) : Prop :=
  forall m, exists a m', c m = (Ok a, m') /\ same_log m m'.

Lemma same_log_refl (m : Model) : same_log m m.
Proof. unfold same_log. repeat split. Qed.

Lemma same_log_trans (m1 m2 m3 : Model) :
  same_log m1 m2 -> same_log m2 m3 -> same_log m1 m3.
Proof. unfold same_log. intuition congruence. Qed.

Lemma safe_ret {A : Type} (a : A) : safe (ret a).
Proof. intros m. exists a, m. split; [reflexivity | apply same_log_refl]. Qed.

Lemma safe_modify (f : Model -> Model) :
  (forall m, same_log m (f m)) -> safe (modify f).
Proof. intros Hf m. exists tt, (f m). split; [reflexivity | apply Hf]. Qed.

Lemma safe_bind {A B : Type} (c : M Model A) (k : A -> M Model B) :
  safe c -> (forall a, safe (k a)) -> safe (bind c k).
Proof.
  intros Hc Hk m. destruct (Hc m) as (a & m1 & Hrun1 & Hsame1).
  destruct (Hk a m1) as (b & m2 & Hrun2 & Hsame2).
  exists b, m2. unfold bind. rewrite Hrun1.
  split; [exact Hrun2 | exact (same_log_trans _ _ _ Hsame1 Hsame2)].
Qed.

Lemma safe_get {A : Type} (k : Model -> M Model A) :
  (forall m0, safe (k m0)) -> safe (bind get k).
Proof. intros Hk m. exact (Hk m m). Qed.

Lemma safe_handleSearch : safe handleSearch.
Proof.
  intros m. destruct (handleSearch_run m) as (m' & Hrun & Hsame & _).
  exists tt, m'. split; [exact Hrun|].
  unfold same_outside_query in Hsame. unfold same_log. tauto.
Qed.

Lemma ScrollBy_sets (delta : Z) (m : Model) :
  ScrollBy delta m
  = set_scrollPosition
      (clamp 0 (len (lineView m) - 1)
         (add (if scrollPosition m <? 0 then Z.max 0 (firstDisplayedLine m)
               else scrollPosition m) delta)) m.
Proof. unfold ScrollBy. destruct (scrollPosition m <? 0); reflexivity. Qed.

Lemma ScrollTo_sets (line : Z) (m : Model) :
  ScrollTo line m
  = set_scrollPosition
      (if line <? 0 then -1 else clamp 0 (len (lineView m) - 1) line) m.
Proof. unfold ScrollTo. destruct (line <? 0); reflexivity. Qed.

Ltac same_log_fields :=
  rewrite ?ScrollBy_sets, ?ScrollTo_sets;
  unfold same_log; cbn; repeat split.

Ltac safe_step :=
  lazymatch goal with
  | |- safe (ret _) => apply safe_ret
  | |- safe handleSearch => apply safe_handleSearch
  | |- safe (modify _) => apply safe_modify; intros ?; same_log_fields
  | |- safe (bind get _) => apply safe_get; intros ?
  | |- safe (bind _ _) => apply safe_bind; [|intros ?]
  | |- safe (if ?b then _ else _) => destruct b
  | |- safe (match ?x with _ => _ end) => destruct x
  end.

Ltac safe_steps := repeat safe_step.

Lemma safe_SetFocus (area : FocusArea) : safe (SetFocus area).
Proof. unfold SetFocus. safe_steps. Qed.

Lemma safe_SetQuery (query : string) : safe (SetQuery query).
Proof. unfold SetQuery. safe_steps. Qed.

Lemma safe_typeInSearchBar (msg : KeyMsg) : safe (typeInSearchBar msg).
Proof. unfold typeInSearchBar. safe_steps. Qed.

Lemma safe_handleMouse (msg : MouseMsg) : safe (handleMouse msg).
Proof. unfold handleMouse. safe_steps. Qed.

Lemma safe_handleKey (msg : KeyMsg) : safe (handleKey msg).
Proof.
  unfold handleKey. apply safe_get. intros m0.
  repeat lazymatch goal with
    | |- safe (SetFocus _) => apply safe_SetFocus
    | |- safe (SetQuery _) => apply safe_SetQuery
    | |- safe (typeInSearchBar _) => apply safe_typeInSearchBar
    | |- _ => safe_step
    end.
  all: destruct (heldKey _ =? "g")%string; same_log_fields.
Qed.

(** X19: no message makes [Update] panic, and none changes the log or the
    geometry: the lines, the buffer, the window size, the status bar switch
    and the first displayed line are as before, whatever the focus, the key,
    the mouse button, or the text input's reaction. *)
Theorem Update_keeps_log (msg : Msg KeyMsg MouseMsg OtherMsg) (m : Model) :
  (exists cmd, eval (Update msg) m = Ok cmd) /\
  same_log m (exec (Update msg) m).
Proof.
  assert (Hsafe : safe (Update msg)).
  { unfold Update. destruct msg as [k|ms|o].
    - apply safe_handleKey.
    - apply safe_bind; [apply safe_handleMouse | intros ?; apply safe_ret].
    - safe_steps. }
  destruct (Hsafe m) as (cmd & m' & Hrun & Hsame).
  unfold eval, exec. rewrite Hrun. split; [now exists cmd | exact Hsame].
Qed.

(** The keys of the log pane are read: the focus is neither the help nor
    the search bar. *)
Definition reads_pane_keys (m : Model) : bool :=
  negb (FocusArea_eqb (focus m) FocusHelp) &&
  negb (FocusArea_eqb (focus m) FocusSearchBar).

(** The messages that scroll by lines or pages or to the top: the wheel of
    the mouse under any focus, and the scroll keys where the keys of the log
    pane are read. *)
Definition scrolls (m : Model) (msg : Msg KeyMsg MouseMsg OtherMsg) : bool :=
  match msg with
  | OfKey k =>
      reads_pane_keys m &&
      key_in (key_String k)
        ["up"; "k"; "down"; "j"; "pgup"; "pgdown"; "ctrl+u"; "ctrl+d"; "home"]
  | OfMouse ms =>
      match mouse_Button ms with
      | MouseButtonWheelDown | MouseButtonWheelUp => true
      | _ => false
      end
  | OfOther _ => false
  end.

Lemma ScrollBy_pins (delta : Z) (m : Model) :
  0 <= scrollPosition (ScrollBy delta m) <= Z.max 0 (len (lineView m) - 1) /\
  lineView (ScrollBy delta m) = lineView m /\
  focus (ScrollBy delta m) = focus m /\
  heldKey (ScrollBy delta m) = heldKey m.
Proof.
  rewrite ScrollBy_sets. cbn.
  split; [apply clamp_range|]. repeat split.
Qed.

Lemma ScrollTo_pins (line : Z) (m : Model) :
  0 <= line ->
  0 <= scrollPosition (ScrollTo line m) <= Z.max 0 (len (lineView m) - 1) /\
  lineView (ScrollTo line m) = lineView m /\
  focus (ScrollTo line m) = focus m /\
  heldKey (ScrollTo line m) = heldKey m.
Proof.
  intros Hline. rewrite ScrollTo_sets.
  assert (Hb : (line <? 0) = false) by (apply Z.ltb_ge; lia).
  rewrite Hb. cbn. split; [apply clamp_range|]. repeat split.
Qed.

Lemma reads_pane_keys_focus (m : Model) :
  reads_pane_keys m = true ->
  FocusArea_eqb (focus m) FocusHelp = false /\
  FocusArea_eqb (focus m) FocusSearchBar = false.
Proof.
  unfold reads_pane_keys. intros H. apply andb_prop in H. destruct H as [H1 H2].
  split; [now destruct (FocusArea_eqb (focus m) FocusHelp)
         | now destruct (FocusArea_eqb (focus m) FocusSearchBar)].
Qed.

(** X20: scrolling by the wheel of the mouse (under any focus) or by a scroll
    key of the log pane ([up], [k], [down], [j], [pgup], [pgdown], [ctrl+u],
    [ctrl+d], [home]) never panics, returns no command, and leaves the model
    pinned: the scroll position is from 0 to the last line of the line view
    (0 when the view is empty), never the tailing position, also when the
    model was tailing and the distance is 0.  The line view and the focus
    are as before. *)
Theorem Update_scroll_pins (msg : Msg KeyMsg MouseMsg OtherMsg) (m : Model) :
  scrolls m msg = true ->
  let m' := exec (Update msg) m in
  eval (Update msg) m = Ok None /\
  0 <= scrollPosition m' <= Z.max 0 (len (lineView m) - 1) /\
  lineView m' = lineView m /\
  focus m' = focus m.
Proof.
  intros Hscrolls.
  destruct msg as [k|ms|o]; cbn [scrolls] in Hscrolls; [| |discriminate].
  - apply andb_prop in Hscrolls. destruct Hscrolls as [Hpane Hkey].
    destruct (reads_pane_keys_focus m Hpane) as [Hhelp Hbar].
    cbn [Update]. unfold handleKey, eval, exec, bind, get.
    rewrite Hhelp, Hbar.
    remember (key_String k) as key eqn:Hk. clear Hk.
    unfold key_in in Hkey. cbn [existsb] in Hkey.
    repeat match type of Hkey with
      | (_ || _) = true =>
          apply orb_prop in Hkey; destruct Hkey as [Hkey|Hkey]
      end;
      try discriminate;
      apply String.eqb_eq in Hkey; subst key;
      cbn [key_in existsb String.eqb Ascii.eqb Bool.eqb orb modify ret fst snd];
      match goal with
      | |- context [ScrollBy ?d m] =>
          destruct (ScrollBy_pins d m) as (Hr & Hv & Hf & _)
      | |- context [ScrollTo 0 m] =>
          destruct (ScrollTo_pins 0 m (Z.le_refl 0)) as (Hr & Hv & Hf & _)
      end;
      (split; [reflexivity|]); (split; [exact Hr|]); split; assumption.
  - cbn [Update]. unfold handleMouse, eval, exec, bind.
    destruct (mouse_Button ms); try discriminate;
      cbn [modify ret fst snd];
      match goal with
      | |- context [ScrollBy ?d m] =>
          destruct (ScrollBy_pins d m) as (Hr & Hv & Hf & _)
      end;
      (split; [reflexivity|]); (split; [exact Hr|]); split; assumption.
Qed.

Lemma bind_run {A B : Type} (c : M Model A) (k : A -> M Model B)
    (m m' : Model) (a : A) :
  c m = (Ok a, m') -> bind c k m = k a m'.
Proof. intros H. unfold bind. now rewrite H. Qed.

Lemma handleKey_slash (k : KeyMsg) (m : Model) :
  reads_pane_keys m = true ->
  key_String k = "/" ->
  handleKey k m
  = ((modify (fun m => set_prevQuery (Query m) m) ;;
      SetQuery "" ;;
      SetFocus FocusSearchBar) ;;
     ret None) m.
Proof.
  intros Hpane Hkey.
  destruct (reads_pane_keys_focus m Hpane) as [Hhelp Hbar].
  unfold handleKey at 1. unfold bind at 1, get at 1.
  rewrite Hhelp, Hbar, Hkey. reflexivity.
Qed.

(** X21: opening the search bar with [/] over the log pane and leaving it at
    once with [esc] or [ctrl+c] never panics and puts the text of the query
    back into the text input, but not the filter: no query is compiled any
    more and the line view is the whole line store, although [Query] reads as
    before.  The text input is assumed to be empty once it is set to the
    empty text, to keep its text when it takes the focus, and to hold the
    former text once that is set again. *)
Theorem cancel_search_drops_filter (slash esc : KeyMsg) (m : Model) :
  reads_pane_keys m = true ->
  key_String slash = "/" ->
  key_in (key_String esc) ["esc"; "ctrl+c"] = true ->
  (forall i, input_Value (input_SetValue "" i) = "") ->
  (forall i, input_Value (input_Focus i) = input_Value i) ->
  input_Value
    (input_Blur
       (input_SetValue (Query m) (input_Focus (input_SetValue "" (input m)))))
  = Query m ->
  let run := handleKey slash ;; handleKey esc in
  let m' := exec run m in
  eval run m = Ok None /\
  focus m' = FocusLogPane /\
  Query m' = Query m /\
  prevQuery m' = "" /\
  queryRe m' = None /\
  lineView m' = lines m.
Proof.
  intros Hpane Hslash Hesc Hempty Hfocus Hback run m'.
  (* [/]: the query is kept aside, emptied, and the search bar takes over *)
  destruct (SetQuery_run "" (set_prevQuery (Query m) m))
    as (m1 & Hrun1 & Hsame1 & Hin1 & _).
  destruct (handleSearch_run
              (set_input (input_Focus (input m1))
                 (set_focus FocusSearchBar m1)))
    as (m2 & Hrun2 & Hsame2 & Hin2 & Hclear2).
  cbn [input set_input] in Hin2, Hclear2.
  assert (Hvalue : input_Value (input_Focus (input m1)) = "").
  { rewrite Hfocus, Hin1. apply Hempty. }
  destruct (Hclear2 Hvalue) as [Hq2 _].
  assert (Hbar : SetFocus FocusSearchBar m1 = (Ok tt, m2)).
  { unfold SetFocus.
    rewrite (bind_run _ _ m1 (set_focus FocusSearchBar m1) tt) by reflexivity.
    rewrite (bind_run _ _ _
               (set_input (input_Focus (input m1))
                  (set_focus FocusSearchBar m1)) tt) by reflexivity.
    exact Hrun2. }
  assert (Hopen : handleKey slash m = (Ok None, m2)).
  { rewrite (handleKey_slash slash m Hpane Hslash).
    rewrite (bind_run _ _ m m2 tt); [reflexivity|].
    rewrite (bind_run _ _ m (set_prevQuery (Query m) m) tt) by reflexivity.
    rewrite (bind_run _ _ _ _ _ Hrun1). exact Hbar. }
  (* [esc]: the text comes back, the search does not run *)
  assert (Hbar2 : focus m2 = FocusSearchBar).
  { unfold same_outside_query in Hsame2. decompose [and] Hsame2.
    match goal with H : focus m2 = _ |- _ => rewrite H end. reflexivity. }
  assert (Hclose : handleKey esc m2
                   = (Ok None,
                      set_input
                        (input_Blur (input_SetValue (prevQuery m2) (input m2)))
                        (set_focus FocusLogPane
                           (set_prevQuery ""
                              (set_input
                                 (input_SetValue (prevQuery m2) (input m2))
                                 m2))))).
  { unfold handleKey. unfold bind at 1. unfold get at 1.
    rewrite Hbar2. cbn [FocusArea_eqb]. rewrite Hesc. reflexivity. }
  assert (Hboth : run m = (Ok None, snd (handleKey esc m2))).
  { unfold run. rewrite (bind_run _ _ _ _ _ Hopen). now rewrite Hclose. }
  unfold m', eval, exec. rewrite Hboth, Hclose. cbn [fst snd].
  unfold same_outside_query in Hsame1, Hsame2.
  decompose [and] Hsame1. decompose [and] Hsame2.
  cbn [prevQuery lines set_prevQuery set_input set_focus] in *.
  assert (Hprev : prevQuery m2 = Query m) by congruence.
  assert (Hinput : input m2 = input_Focus (input_SetValue "" (input m))).
  { rewrite Hin2, Hin1. reflexivity. }
  split; [reflexivity|]. split; [reflexivity|].
  split.
  { unfold Query at 1. cbn [input set_input]. rewrite Hprev, Hinput.
    exact Hback. }
  split; [reflexivity|].
  split; [exact Hq2|].
  unfold lineView. cbn [queryRe set_input set_focus set_prevQuery lines].
  rewrite Hq2. congruence.
Qed.

(** The messages under which a held [g] and the focus of the log pane
    stay: every message but the keys [g] and [/]. *)
Definition passes (msg : Msg KeyMsg MouseMsg OtherMsg) : bool :=
  match msg with
  | OfKey k => negb (key_in (key_String k) ["g"; "/"])
  | _ => true
  end.

Lemma Update_passes (msg : Msg KeyMsg MouseMsg OtherMsg) (m : Model) :
  reads_pane_keys m = true ->
  passes msg = true ->
  exists cmd m',
    Update msg m = (Ok cmd, m') /\
    focus m' = focus m /\
    heldKey m' = heldKey m.
Proof.
  intros Hpane Hpass.
  destruct msg as [k|ms|o]; cbn [passes] in Hpass.
  - destruct (reads_pane_keys_focus m Hpane) as [Hhelp Hbar].
    cbn [Update]. unfold handleKey, bind, get. rewrite Hhelp, Hbar.
    remember (key_String k) as key eqn:Hk. clear Hk.
    apply negb_true_iff in Hpass. unfold key_in in Hpass |- *.
    cbn [existsb] in Hpass |- *.
    apply orb_false_elim in Hpass. destruct Hpass as [Hg Hslash].
    rewrite orb_false_r in Hslash. rewrite Hg, Hslash.
    repeat (match goal with
            | |- context [(key =? ?s)%string] => destruct (key =? s)%string
            end; cbn [orb]);
      cbn [modify ret];
      (eexists; eexists; split; [reflexivity|]);
      rewrite ?ScrollBy_sets, ?ScrollTo_sets; split; reflexivity.
  - cbn [Update]. unfold handleMouse, bind.
    destruct (mouse_Button ms); cbn [modify ret];
      (eexists; eexists; split; [reflexivity|]);
      rewrite ?ScrollBy_sets; split; reflexivity.
  - cbn [Update]. unfold bind, get.
    destruct (input_Update (OfOther o) (input m)) as [newInput cmd].
    cbn [modify ret].
    eexists. eexists. split; [reflexivity|]. split; reflexivity.
Qed.

Lemma for_each_passes (between : list (Msg KeyMsg MouseMsg OtherMsg)) :
  forallb passes between = true ->
  forall m,
    reads_pane_keys m = true ->
    exists m',
      for_each between (fun msg => Update msg ;; ret tt) m = (Ok tt, m') /\
      focus m' = focus m /\
      heldKey m' = heldKey m.
Proof.
  induction between as [|msg between IH]; intros Hall m Hpane.
  - exists m. repeat split.
  - cbn [forallb] in Hall. apply andb_prop in Hall. destruct Hall as [Hmsg Hall].
    destruct (Update_passes msg m Hpane Hmsg) as (cmd & m1 & Hrun1 & Hf1 & Hh1).
    assert (Hpane1 : reads_pane_keys m1 = true).
    { unfold reads_pane_keys in *. now rewrite Hf1. }
    destruct (IH Hall m1 Hpane1) as (m2 & Hrun2 & Hf2 & Hh2).
    exists m2. cbn [for_each].
    rewrite (bind_run _ _ m m1 tt).
    + split; [exact Hrun2|]. split; congruence.
    + now rewrite (bind_run _ _ m m1 cmd Hrun1).
Qed.

Lemma handleKey_g (k : KeyMsg) (m : Model) :
  reads_pane_keys m = true ->
  key_String k = "g" ->
  handleKey k m
  = (Ok None,
     if (heldKey m =? "g")%string then set_heldKey "" (ScrollTo 0 m)
     else set_heldKey "g" m).
Proof.
  intros Hpane Hkey.
  destruct (reads_pane_keys_focus m Hpane) as [Hhelp Hbar].
  unfold handleKey, bind, get. rewrite Hhelp, Hbar, Hkey. reflexivity.
Qed.

(** X22: over the log pane the second [g] scrolls to the top whatever came in
    between, as long as it was neither [g] nor [/]: after [g], any messages
    (scroll keys, the wheel of the mouse, keys without a meaning, messages of
    other types) and [g] again, nothing has panicked, the model is pinned at
    line 0 and no key is held.  The first [g] is not forgotten when another
    key is pressed. *)
Theorem g_twice_scrolls_home
    (g : KeyMsg) (between : list (Msg KeyMsg MouseMsg OtherMsg)) (m : Model) :
  reads_pane_keys m = true ->
  key_String g = "g" ->
  (heldKey m =? "g")%string = false ->
  forallb passes between = true ->
  let run := Update (OfKey g) ;;
             for_each between (fun msg => Update msg ;; ret tt) ;;
             Update (OfKey g) in
  eval run m = Ok None /\
  scrollPosition (exec run m) = 0 /\
  heldKey (exec run m) = "".
Proof.
  intros Hpane Hkey Hheld Hall run.
  pose proof (handleKey_g g m Hpane Hkey) as Hfirst. rewrite Hheld in Hfirst.
  assert (Hpane1 : reads_pane_keys (set_heldKey "g" m) = true) by exact Hpane.
  destruct (for_each_passes between Hall _ Hpane1) as (m2 & Hrun2 & Hf2 & Hh2).
  assert (Hpane2 : reads_pane_keys m2 = true).
  { unfold reads_pane_keys in *. now rewrite Hf2. }
  pose proof (handleKey_g g m2 Hpane2 Hkey) as Hlast.
  rewrite Hh2 in Hlast. cbn [heldKey set_heldKey String.eqb Ascii.eqb Bool.eqb]
    in Hlast.
  assert (Hboth : run m = (Ok None, set_heldKey "" (ScrollTo 0 m2))).
  { unfold run. cbn [Update].
    rewrite (bind_run _ _ _ _ _ Hfirst), (bind_run _ _ _ _ _ Hrun2).
    exact Hlast. }
  unfold eval, exec. rewrite Hboth. cbn [fst snd].
  split; [reflexivity|]. split; [|reflexivity].
  rewrite ScrollTo_sets. cbn. unfold clamp. lia.
Qed.

End KeyFacts.

Lemma Update_scroll_pins_witness :
  let m := exec (Write ("a" ++ NL ++ "b" ++ NL ++ "c" ++ NL)) Plain.start in
  let msg : Msg string MouseButton unit := OfKey "pgup" in
  let m' := exec (@Update _ PlainTea.tea msg) m in
  scrollPosition m = -1 /\
  eval (@Update _ PlainTea.tea msg) m = Ok None /\
  0 <= scrollPosition m' <= Z.max 0 (len (lineView m) - 1) /\
  lineView m' = lineView m /\
  focus m' = focus m.
Proof.
  intros m msg. split; [reflexivity|].
  apply (@Update_scroll_pins Plain.deps PlainTea.tea msg m). reflexivity.
Defined.

Lemma cancel_search_drops_filter_witness :
  let m := exec (Write ("ab" ++ NL ++ "cd" ++ NL) ;; SetQuery "a") Plain.start in
  let run := @handleKey _ PlainTea.tea "/" ;; @handleKey _ PlainTea.tea "esc" in
  let m' := exec run m in
  lineView m = ["[a]b"] /\
  eval run m = Ok None /\
  focus m' = FocusLogPane /\
  Query m' = Query m /\
  prevQuery m' = "" /\
  queryRe m' = None /\
  lineView m' = lines m.
Proof.
  intros m run. split; [reflexivity|].
  apply (@cancel_search_drops_filter Plain.deps PlainTea.tea "/" "esc" m);
    reflexivity.
Defined.

Lemma g_twice_scrolls_home_witness :
  let m := ScrollBy 2
             (exec (Write ("a" ++ NL ++ "b" ++ NL ++ "c" ++ NL)) Plain.start) in
  let between : list (Msg string MouseButton unit) :=
    [OfKey "j"; OfMouse MouseButtonWheelDown; OfOther tt; OfKey "x"] in
  let run := @Update _ PlainTea.tea (OfKey "g") ;;
             for_each between
               (fun msg => @Update _ PlainTea.tea msg ;; ret tt) ;;
             @Update _ PlainTea.tea (OfKey "g") in
  scrollPosition m = 2 /\
  eval run m = Ok None /\
  scrollPosition (exec run m) = 0 /\
  heldKey (exec run m) = "".
Proof.
  intros m between. split; [reflexivity|].
  apply (@g_twice_scrolls_home Plain.deps PlainTea.tea "g" between m);
    reflexivity.
Defined.
